(** * Rag-Assistant: chunking, retrieval gate and answer formatting

    A shallow embedding of the retrieval core of the handbook assistant
    ([src/utils.py], [src/ingest.py], [src/ask.py], [src/app_simple.py],
    [config.py]) together with the properties its specification states
    about it. Reading and writing files, the PDF library, the embedding
    model and the user interfaces are outside the embedding: the
    ingestion starts from the texts extracted from the pages and ends
    with what it saves, and an assistant starts from what it loads.

    Conventions of the embedding.
    - A Python [str] is a [string]; a character is a code point below 256,
      and the character classes used by [str.split], [str.strip],
      [str.isupper] and the [re] module are the ones Python assigns to
      these code points.
    - A Python [int] that may be negative (indices, sizes passed by the
      caller, page numbers) is a [Z]; the result of [len] is a [nat].
    - A Python [float] is a rational number [Q]: every finite float is one,
      and the comparisons the program makes agree with the rational order.
      Rounding is not modelled.
    - A chunk is a Python [dict]; the keys ['chunk_id'] and ['score'] are
      added after creation, so they are optional fields, and reading a
      missing one raises [KeyError].
    - Exceptions are values of a small error monad.
    - A regular expression is a sequence of character classes with
      quantifiers, matched greedily with backtracking as [re] does. *)

From Stdlib Require Import ZArith QArith Qround Lia String Ascii List
  DecimalString.
From stdpp Require Import gmap strings list sorting.

(** ** Python values and built-ins *)

Module Py.

Inductive exn : Set :=
| IndexError | KeyError | ValueError | ZeroDivisionError.

Inductive result (A : Type) : Type :=
| Ok (a : A)
| Raise (e : exn).
Arguments Ok {A} a.
Arguments Raise {A} e.

Definition bind {A B} (m : result A) (k : A -> result B) : result B :=
  match m with
  | Ok a => k a
  | Raise e => Raise e
  end.

#[global] Instance result_ret : MRet result := @Ok.
#[global] Instance result_bind : MBind result := fun A B k m => bind m k.

(** [for x in l: ... f(x) ...] collecting the results, stopping at the
    first exception. *)
Fixpoint traverse {A B} (f : A -> result B) (l : list A) : result (list B) :=
  match l with
  | [] => Ok []
  | x :: l' => y ← f x; ys ← traverse f l'; Ok (y :: ys)
  end.

(** *** Characters *)

Definition code (c : ascii) : N := N_of_ascii c.

Definition between (lo hi n : N) : bool := ((lo <=? n) && (n <=? hi))%N.

(** [str.isspace] on one character, also what [\s] matches. *)
Definition is_space (c : ascii) : bool :=
  between 9 13 (code c) || between 28 32 (code c)
  || (code c =? 133)%N || (code c =? 160)%N.

(** [\d]. *)
Definition is_digit (c : ascii) : bool := between 48 57 (code c).

(** [[A-Z]]. *)
Definition is_ascii_upper (c : ascii) : bool := between 65 90 (code c).

Definition is_upper (c : ascii) : bool :=
  between 65 90 (code c) || between 192 214 (code c)
  || between 216 222 (code c).

Definition is_lower (c : ascii) : bool :=
  between 97 122 (code c) || (code c =? 170)%N || (code c =? 181)%N
  || (code c =? 186)%N || between 223 246 (code c)
  || between 248 255 (code c).

Definition LF : ascii := ascii_of_N 10.
Definition SP : ascii := ascii_of_N 32.

(** *** Strings *)

Definition is_empty (s : string) : bool :=
  match s with
  | EmptyString => true
  | String _ _ => false
  end.

Fixpoint forallb_str (p : ascii -> bool) (s : string) : bool :=
  match s with
  | EmptyString => true
  | String c s' => p c && forallb_str p s'
  end.

Fixpoint existsb_str (p : ascii -> bool) (s : string) : bool :=
  match s with
  | EmptyString => false
  | String c s' => p c || existsb_str p s'
  end.

Fixpoint map_str (f : ascii -> ascii) (s : string) : string :=
  match s with
  | EmptyString => EmptyString
  | String c s' => String (f c) (map_str f s')
  end.

Fixpoint drop_while (p : ascii -> bool) (s : string) : string :=
  match s with
  | EmptyString => EmptyString
  | String c s' => if p c then drop_while p s' else s
  end.

Fixpoint rev_str (acc s : string) : string :=
  match s with
  | EmptyString => acc
  | String c s' => rev_str (String c acc) s'
  end.

(** [s.strip()]. *)
Definition strip (s : string) : string :=
  let s1 := drop_while is_space s in
  rev_str "" (drop_while is_space (rev_str "" s1)).

(** [s[:n]]. *)
Definition prefix (n : nat) (s : string) : string := substring 0 n s.

(** [s.replace(a, b)] for single characters. *)
Definition replace (a b : ascii) (s : string) : string :=
  map_str (fun c => if Ascii.eqb c a then b else c) s.

(** [s.isupper()]: no lower-case character and at least one upper-case
    one. *)
Definition isupper (s : string) : bool :=
  forallb_str (fun c => negb (is_lower c)) s && existsb_str is_upper s.

Definition emit (cur : string) : list string :=
  if is_empty cur then [] else [cur].

Fixpoint split_go (cur s : string) : list string :=
  match s with
  | EmptyString => emit cur
  | String c s' =>
      if is_space c then emit cur ++ split_go "" s'
      else split_go (cur +:+ String c "") s'
  end.

(** [s.split()]: the maximal runs of non-whitespace characters. *)
Definition split (s : string) : list string := split_go "" s.

Fixpoint split_on_go (sep : ascii) (cur s : string) : list string :=
  match s with
  | EmptyString => [cur]
  | String c s' =>
      if Ascii.eqb c sep then cur :: split_on_go sep "" s'
      else split_on_go sep (cur +:+ String c "") s'
  end.

(** [s.split(sep)] for a one-character separator: empty fields are kept. *)
Definition split_on (sep : ascii) (s : string) : list string :=
  split_on_go sep "" s.

(** [sep.join(l)]. *)
Definition join (sep : string) (l : list string) : string :=
  String.concat sep l.

(** [s.lower()]. *)
Definition lower_char (c : ascii) : ascii :=
  if is_upper c then ascii_of_N (code c + 32) else c.

Definition lower (s : string) : string := map_str lower_char s.

(** *** Regular expressions

    The patterns the program uses are sequences of one-character classes,
    each taken once, optionally, or repeated. Matching is the one of the
    [re] module: greedy, with backtracking. *)

Inductive quant : Set := One | Opt | Star | Plus.

Definition pattern : Type := list ((ascii -> bool) * quant).

(** [cls*] followed by the continuation [k]: the longest run first. *)
Fixpoint re_star (cls : ascii -> bool) (k : string -> option string)
    (s : string) : option string :=
  match s with
  | String c s' =>
      if cls c then
        match re_star cls k s' with
        | Some rest => Some rest
        | None => k s
        end
      else k s
  | EmptyString => k s
  end.

(** A match of the pattern at the start of [s]: what is left of [s]
    after it. *)
Fixpoint re_match (p : pattern) (s : string) : option string :=
  match p with
  | [] => Some s
  | (cls, q) :: p' =>
      let k := re_match p' in
      match q with
      | One =>
          match s with
          | String c s' => if cls c then k s' else None
          | EmptyString => None
          end
      | Opt =>
          match s with
          | String c s' =>
              if cls c then
                match k s' with
                | Some rest => Some rest
                | None => k s
                end
              else k s
          | EmptyString => k s
          end
      | Star => re_star cls k s
      | Plus =>
          match s with
          | String c s' => if cls c then re_star cls k s' else None
          | EmptyString => None
          end
      end
  end.

(** [re.sub(p, repl, s)] for a pattern that matches no empty string:
    scan from the left, replace each match and go on after it. [fuel]
    bounds the number of steps; the length of [s] is enough. *)
Fixpoint re_sub_steps (fuel : nat) (p : pattern) (repl s : string)
    : string :=
  match fuel with
  | O => s
  | S fuel' =>
      match s with
      | EmptyString => EmptyString
      | String c s' =>
          match re_match p s with
          | Some rest => repl +:+ re_sub_steps fuel' p repl rest
          | None => String c (re_sub_steps fuel' p repl s')
          end
      end
  end.

Definition re_sub (p : pattern) (repl s : string) : string :=
  re_sub_steps (String.length s) p repl s.

(** [str(n)] for an integer. *)
Definition str (n : Z) : string := NilZero.string_of_int (Z.to_int n).

(** *** Numbers *)

(** [int(x)] for a float: truncation toward zero. *)
Definition int (x : Q) : Z := Z.quot (Qnum x) (Z.pos (Qden x)).

Definition Qltb (x y : Q) : bool := negb (Qle_bool y x).

(** [max(l)]: the first greatest element; [ValueError] on an empty
    sequence. *)
Definition max (l : list Q) : result Q :=
  match l with
  | [] => Raise ValueError
  | x :: l' => Ok (fold_left (fun m y => if Qltb m y then y else m) l' x)
  end.

(** *** Sequences *)

Definition len {A} (l : list A) : Z := Z.of_nat (length l).

(** [l[i]] with Python's negative indices. *)
Definition getitem {A} (l : list A) (i : Z) : result A :=
  let j := if (i <? 0)%Z then (i + len l)%Z else i in
  if (j <? 0)%Z then Raise IndexError
  else match l !! Z.to_nat j with
       | Some x => Ok x
       | None => Raise IndexError
       end.

(** The position a slice bound denotes in a sequence of length [n]. *)
Definition clamp (n i : Z) : Z :=
  let j := if (i <? 0)%Z then (i + n)%Z else i in
  Z.max 0 (Z.min n j).

(** [l[lo:hi]]. *)
Definition slice {A} (l : list A) (lo hi : Z) : list A :=
  let a := clamp (len l) lo in
  let b := clamp (len l) hi in
  take (Z.to_nat (b - a)) (drop (Z.to_nat a) l).

(** [range(start, stop, step)] as the list of its elements. *)
Definition range (start stop step : Z) : result (list Z) :=
  if (step =? 0)%Z then Raise ValueError
  else
    let n :=
      (if 0 <? step then (stop - start + step - 1) / step
       else (start - stop - step - 1) / (- step))%Z in
    Ok (map (fun k => start + Z.of_nat k * step)%Z (seq 0 (Z.to_nat n))).

End Py.


(** ** Configuration ([config.py]) *)

Module config.
Definition CHUNK_SIZE_WORDS : Z := 350.
Definition OVERLAP_PERCENTAGE : Q := 30 # 100.
Definition MIN_CHUNK_SIZE : nat := 50.
Definition TOP_K : nat := 5.
Definition SIMILARITY_THRESHOLD : Q := 25 # 100.
End config.

(** ** Chunks *)

Record Chunk : Type := mkChunk {
  text : string;
  page : Z;
  section : string;
  word_count : nat;
  chunk_id : option nat;
  score : option Q
}.

Definition set_chunk_id (c : Chunk) (i : nat) : Chunk :=
  mkChunk (text c) (page c) (section c) (word_count c) (Some i) (score c).

Definition set_score (c : Chunk) (s : Q) : Chunk :=
  mkChunk (text c) (page c) (section c) (word_count c) (chunk_id c) (Some s).

(** [chunk['score']]. *)
Definition get_score (c : Chunk) : Py.result Q :=
  match score c with
  | Some s => Py.Ok s
  | None => Py.Raise Py.KeyError
  end.

(** ** [utils.py] *)

Module utils.

(** [\.?]: skip one period if there is one. *)
Definition optional_period (r : string) : string :=
  match r with
  | String "."%char r' => r'
  | _ => r
  end.

(** [re.match(r'^\d+\.?\s+[A-Z]', line)]: the four character classes are
    pairwise disjoint, so the greedy match never has to backtrack. *)
Definition numbered_heading (line : string) : bool :=
  match line with
  | String c _ =>
      Py.is_digit c &&
      (let r := optional_period (Py.drop_while Py.is_digit line) in
       match r with
       | String c2 _ =>
           Py.is_space c2 &&
           match Py.drop_while Py.is_space r with
           | String c3 _ => Py.is_ascii_upper c3
           | EmptyString => false
           end
       | EmptyString => false
       end)
  | EmptyString => false
  end.

Definition heading_like (line : string) : bool :=
  (5 <? String.length line)%nat && (String.length line <? 100)%nat
  && (Py.isupper line || numbered_heading line).

(** The loop over [lines[:3]], returning at the first hit. *)
Fixpoint first_heading (lines : list string) : option string :=
  match lines with
  | [] => None
  | l :: rest =>
      let line := Py.strip l in
      if heading_like line then Some line else first_heading rest
  end.

Definition extract_section_hint (text : string) : string :=
  let lines := Py.split_on Py.LF text in
  match first_heading (take 3 lines) with
  | Some line => line
  | None => Py.strip (Py.replace Py.LF Py.SP (Py.prefix 50 text)) +:+ "..."
  end.

(** The body of the [for i in range(...)] loop, with its [break]. *)
Fixpoint chunk_loop (words : list string) (page_num chunk_size_words : Z)
    (idxs : list Z) : list Chunk :=
  match idxs with
  | [] => []
  | i :: rest =>
      let chunk_words := Py.slice words i (i + chunk_size_words) in
      if (length chunk_words <? config.MIN_CHUNK_SIZE)%nat then []
      else
        let chunk_text := Py.join " " chunk_words in
        let section_hint := extract_section_hint chunk_text in
        mkChunk chunk_text page_num section_hint (length chunk_words)
                None None
        :: chunk_loop words page_num chunk_size_words rest
  end.

Definition overlap_words (chunk_size_words : Z) (overlap_pct : Q) : Z :=
  Py.int (inject_Z chunk_size_words * overlap_pct).

Definition step (chunk_size_words : Z) (overlap_pct : Q) : Z :=
  chunk_size_words - overlap_words chunk_size_words overlap_pct.

Definition chunk_text_with_overlap (text : string) (page_num : Z)
    (chunk_size_words : Z) (overlap_pct : Q) : Py.result (list Chunk) :=
  let words := Py.split text in
  if (length words <? config.MIN_CHUNK_SIZE)%nat then Py.Ok []
  else
    idxs ← Py.range 0 (Py.len words) (step chunk_size_words overlap_pct);
    Py.Ok (chunk_loop words page_num chunk_size_words idxs).

(** [r' +'] and [r'\n\s*\n\s*\n+']. *)
Definition SPACES : Py.pattern := [(Ascii.eqb Py.SP, Py.Plus)].

Definition BLANK_LINES : Py.pattern :=
  [ (Ascii.eqb Py.LF, Py.One); (Py.is_space, Py.Star);
    (Ascii.eqb Py.LF, Py.One); (Py.is_space, Py.Star);
    (Ascii.eqb Py.LF, Py.Plus) ].

Definition clean_text (text : string) : string :=
  let text := Py.re_sub SPACES " " text in
  let text :=
    Py.re_sub BLANK_LINES (String Py.LF (String Py.LF "")) text in
  Py.strip text.

Definition DECLINE : string := "I don't have that in the handbook.".

(** One round of the grouping loop: create the page's group if it is
    missing, then append the chunk to it. *)
Definition add_to_group (page_groups : gmap Z (list Chunk)) (chunk : Chunk)
    : gmap Z (list Chunk) :=
  let page := page chunk in
  let page_groups :=
    match page_groups !! page with
    | None => <[page := []]> page_groups
    | Some _ => page_groups
    end in
  alter (fun page_chunks => page_chunks ++ [chunk]) page page_groups.

Definition group_by_page (chunks : list Chunk) : gmap Z (list Chunk) :=
  foldl add_to_group ∅ chunks.

(** The order [sorted] puts [dict.items()] in: keys are distinct, so the
    comparison of two items is decided by their keys. *)
Definition item_le (x y : Z * list Chunk) : Prop := (x.1 ≤ y.1)%Z.

#[global] Instance item_le_dec : RelDecision item_le :=
  fun x y => decide (x.1 ≤ y.1)%Z.

Definition sorted_items (page_groups : gmap Z (list Chunk))
    : list (Z * list Chunk) :=
  merge_sort item_le (map_to_list page_groups).

(** [f"{page_text} (p. {page})"] for one page. *)
Definition answer_part (item : Z * list Chunk) : string :=
  let page_text := Py.join (String Py.LF "") (map text item.2) in
  page_text +:+ " (p. " +:+ Py.str item.1 +:+ ")".

Definition format_retrieved_chunks (chunks : list Chunk) : string :=
  match chunks with
  | [] => DECLINE
  | _ =>
      let page_groups := group_by_page chunks in
      let answer_parts := map answer_part (sorted_items page_groups) in
      Py.join (String Py.LF (String Py.LF "")) answer_parts
  end.

(** [sorted(list(set(...)))]. *)
Definition get_unique_pages (chunks : list Chunk) : list Z :=
  merge_sort Z.le (elements (list_to_set (map page chunks) : gset Z)).

(** What [log_prompt] appends to the prompt log. The rendering of the
    entry as text and its time stamp are left out. *)
Record LogEntry : Type := mkLogEntry {
  log_question : string;
  log_chunks : list Chunk;
  log_answer : string
}.

Definition log_prompt (question : string) (retrieved_chunks : list Chunk)
    (answer : string) (log : list LogEntry) : list LogEntry :=
  log ++ [mkLogEntry question retrieved_chunks answer].

End utils.

(** ** [ingest.py] *)

Module ingest.

(** The inner loop of [create_chunks]: number the chunks of one page and
    append them. The state is [(all_chunks, chunk_id)]. *)
Definition add_page_chunks (st : list Chunk * nat) (page_chunks : list Chunk)
    : list Chunk * nat :=
  foldl (fun st chunk => (st.1 ++ [set_chunk_id chunk st.2], S st.2))
        st page_chunks.

(** The outer loop over the sorted page numbers. *)
Fixpoint chunk_pages (page_texts : gmap Z string) (pages : list Z)
    (st : list Chunk * nat) : Py.result (list Chunk * nat) :=
  match pages with
  | [] => Py.Ok st
  | page_num :: rest =>
      text ← match page_texts !! page_num with
             | Some t => Py.Ok t
             | None => Py.Raise Py.KeyError
             end;
      page_chunks ← utils.chunk_text_with_overlap text page_num
                      config.CHUNK_SIZE_WORDS config.OVERLAP_PERCENTAGE;
      chunk_pages page_texts rest (add_page_chunks st page_chunks)
  end.

Definition sorted_keys (page_texts : gmap Z string) : list Z :=
  merge_sort Z.le (map_to_list page_texts).*1.

(** [create_chunks]. The summary it prints divides by [len(all_chunks)],
    which raises when no chunk was created. *)
Definition create_chunks (page_texts : gmap Z string)
    : Py.result (list Chunk) :=
  st ← chunk_pages page_texts (sorted_keys page_texts) ([], 0%nat);
  match st.1 with
  | [] => Py.Raise Py.ZeroDivisionError
  | _ => Py.Ok st.1
  end.

(** The loop of [extract_text_from_pdf] over what the PDF library
    extracts from the pages, [None] for a page it finds no text on; [i]
    is the counter of [enumerate]. *)
Fixpoint extract_pages (i : nat) (pages : list (option string))
    (page_texts : gmap Z string) : gmap Z string :=
  match pages with
  | [] => page_texts
  | extracted :: rest =>
      let page_num := (Z.of_nat i + 1)%Z in
      extract_pages (S i) rest
        match extracted with
        | Some text =>
            if Py.is_empty text then page_texts
            else <[page_num := utils.clean_text text]> page_texts
        | None => page_texts
        end
  end.

Definition extract_text_from_pdf (pages : list (option string))
    : gmap Z string :=
  extract_pages 0 pages ∅.

(** What [main] ends with: one of its two early returns, or the index
    and the metadata it saves. *)
Inductive Ingested : Type :=
  | NoText
  | NoChunks
  | Saved (index : list (list Q)) (metadata : list Chunk).

Section pipeline.

Variable normalize_L2 : list Q -> list Q.
Variable encode : string -> list Q.

(** [create_embeddings]: one row per chunk, the encoding of its text. *)
Definition create_embeddings (chunks : list Chunk) : list (list Q) :=
  map encode (map text chunks).

(** [build_faiss_index]: the rows, normalised, in their order. *)
Definition build_faiss_index (embeddings : list (list Q))
    : list (list Q) :=
  map normalize_L2 embeddings.

(** [main], from the extraction on; the test that the PDF file exists
    comes before it, and the saving has no result. *)
Definition main (pages : list (option string)) : Py.result Ingested :=
  let page_texts := extract_text_from_pdf pages in
  if decide (page_texts = ∅) then Py.Ok NoText
  else
    chunks ← create_chunks page_texts;
    match chunks with
    | [] => Py.Ok NoChunks
    | _ =>
        let embeddings := create_embeddings chunks in
        let index := build_faiss_index embeddings in
        Py.Ok (Saved index chunks)
    end.

End pipeline.

End ingest.

(** ** The vector index

    [faiss.IndexFlatIP] is a library class. Its [search] scores every
    stored row by inner product with the query, returns the [k] best in
    descending order of score and, when fewer than [k] rows are stored,
    fills the remaining slots with the label [-1] and the score
    [-FLT_MAX]: the two arrays it returns always have [k] columns. *)

Module faiss.

Definition FLT_MAX : Q := inject_Z ((2 ^ 24 - 1) * 2 ^ 104).

Definition dot (u v : list Q) : Q := foldr Qplus 0%Q (zip_with Qmult u v).

(** Ranking of two hits: higher score first, lower label first among
    equal scores. *)
Definition better (x y : Q * Z) : Prop :=
  (y.1 < x.1)%Q \/ ((y.1 == x.1)%Q /\ (x.2 ≤ y.2)%Z).

#[global] Instance Qlt_decision (x y : Q) : Decision (x < y)%Q :=
  decide (Qnum x * QDen y < Qnum y * QDen x)%Z.

#[global] Instance Qeq_decision (x y : Q) : Decision (x == y)%Q :=
  decide (Qnum x * QDen y = Qnum y * QDen x)%Z.

#[global] Instance better_dec : RelDecision better.
Proof. intros x y. unfold better. apply _. Defined.

Definition padding : Q * Z := ((- FLT_MAX)%Q, (-1)%Z).

(** Every stored row with its score and its label. *)
Definition hits (rows : list (list Q)) (x : list Q) : list (Q * Z) :=
  imap (fun i row => (dot x row, Z.of_nat i)) rows.

(** The [k] best hits, best first. *)
Definition found (rows : list (list Q)) (x : list Q) (k : nat)
    : list (Q * Z) :=
  take k (merge_sort better (hits rows x)).

(** [index.search(x, k)] for one query vector, as the list of the pairs
    [(scores[0][j], indices[0][j])]. *)
Definition search (rows : list (list Q)) (x : list Q) (k : nat)
    : list (Q * Z) :=
  let found := found rows x k in
  found ++ replicate (k - length found) padding.

End faiss.

(** ** [ask.py] *)

Module ask.

(** The loaded state of the assistant: the rows of the index, the pickled
    metadata, and the sentence encoder. *)
Record HandbookAssistant : Type := mkAssistant {
  index : list (list Q);
  metadata : list Chunk;
  encoder : string -> list Q
}.

(** The dictionary [ask] returns. *)
Record Answer : Type := mkAnswer {
  answer : string;
  sources : list Chunk;
  pages : list Z;
  confidence : string;
  max_score : Q
}.

Section assistant.

(** [faiss.normalize_L2] divides a vector by its Euclidean norm, which
    has no rational model; the development holds for any function put in
    its place. *)
Variable normalize_L2 : list Q -> list Q.

Definition retrieve (self : HandbookAssistant) (query : string)
    (top_k : option nat) : Py.result (list Chunk) :=
  let top_k := default config.TOP_K top_k in
  let query_embedding := normalize_L2 (encoder self query) in
  let found := faiss.search (index self) query_embedding top_k in
  Py.traverse
    (fun hit =>
       chunk ← Py.getitem (metadata self) hit.2;
       Py.Ok (set_score chunk hit.1))
    found.

Definition check_relevance (retrieved_chunks : list Chunk)
    : Py.result bool :=
  match retrieved_chunks with
  | [] => Py.Ok false
  | _ =>
      scores ← Py.traverse get_score retrieved_chunks;
      max_score ← Py.max scores;
      Py.Ok (Qle_bool config.SIMILARITY_THRESHOLD max_score)
  end.

Definition declined : Answer :=
  mkAnswer "I don't have that in the handbook." [] [] "low" 0%Q.

(** [ask] threads the prompt log, the only state it changes. *)
Definition ask (self : HandbookAssistant) (question : string)
    (log : list utils.LogEntry)
    : Py.result (Answer * list utils.LogEntry) :=
  retrieved_chunks ← retrieve self question None;
  relevant ← check_relevance retrieved_chunks;
  if negb relevant then Py.Ok (declined, log)
  else
    let answer := utils.format_retrieved_chunks retrieved_chunks in
    let pages := utils.get_unique_pages retrieved_chunks in
    let log := utils.log_prompt question retrieved_chunks answer log in
    first ← Py.getitem retrieved_chunks 0;
    top ← get_score first;
    Py.Ok (mkAnswer answer retrieved_chunks pages
             (if Py.Qltb (1 # 2) top then "high" else "medium") top,
           log).

End assistant.

End ask.

(** ** [app_simple.py] *)

Module app_simple.

Record SimpleHandbookAssistant : Type := mkSimple {
  index : list (list Q);
  metadata : list Chunk
}.

(** [set(s.split())]. *)
Definition word_set (s : string) : gset string := list_to_set (Py.split s).

(** The body of the loop of [simple_retrieve] for one chunk: the pair it
    appends to [scored_chunks], if any. *)
Definition scored (query_lower : string) (chunk : Chunk)
    : option (Chunk * Q) :=
  let chunk_text := Py.lower (text chunk) in
  let query_words := word_set query_lower in
  let chunk_words := word_set chunk_text in
  let common_words := query_words ∩ chunk_words in
  let score :=
    if decide (query_words = ∅) then 0%Q
    else (inject_Z (Z.of_nat (size common_words))
          / inject_Z (Z.of_nat (size query_words)))%Q in
  if Py.Qltb 0 score then Some (set_score chunk score, score) else None.

(** [l.sort(key=lambda x: x[1], reverse=True)]: descending by score,
    pairs of equal score in their original order. *)
Fixpoint insert_by_score (x : Chunk * Q) (l : list (Chunk * Q))
    : list (Chunk * Q) :=
  match l with
  | [] => [x]
  | y :: l' =>
      if Py.Qltb x.2 y.2 then y :: insert_by_score x l' else x :: l
  end.

Definition sort_by_score (l : list (Chunk * Q)) : list (Chunk * Q) :=
  foldr insert_by_score [] l.

Definition simple_retrieve (self : SimpleHandbookAssistant)
    (query : string) (top_k : Z) : list Chunk :=
  let query_lower := Py.lower query in
  let scored_chunks := omap (scored query_lower) (metadata self) in
  let scored_chunks := sort_by_score scored_chunks in
  map fst (Py.slice scored_chunks 0 top_k).

(** [answer_question] returns the answer, the sources and the score; the
    prompt log is threaded as in [ask]. *)
Definition answer_question (self : SimpleHandbookAssistant)
    (question : string) (log : list utils.LogEntry)
    : Py.result ((string * list Chunk * Q) * list utils.LogEntry) :=
  let chunks :=
    simple_retrieve self question (Z.of_nat config.TOP_K) in
  match chunks with
  | [] => Py.Ok ((utils.DECLINE, [], 0%Q), log)
  | _ =>
      first ← Py.getitem chunks 0;
      max_score ← get_score first;
      if Py.Qltb max_score config.SIMILARITY_THRESHOLD
      then Py.Ok ((utils.DECLINE, [], 0%Q), log)
      else
        let answer := utils.format_retrieved_chunks chunks in
        let log := utils.log_prompt question chunks answer log in
        Py.Ok ((answer, chunks, max_score), log)
  end.

End app_simple.

(** ** Vocabulary of the specification *)

(** The scores present in a chunk sequence. *)
Definition scores_of (chunks : list Chunk) : list Q := omap score chunks.

(** The highest of a sequence of scores, [0] when there is none. *)
Fixpoint highest (l : list Q) : Q :=
  match l with
  | [] => 0%Q
  | x :: l' =>
      match l' with
      | [] => x
      | _ => let h := highest l' in if Qle_bool h x then x else h
      end
  end.

Definition highest_score (chunks : list Chunk) : Q :=
  highest (scores_of chunks).

(** The declined outcome is the one reported with the lowest tier. *)
Definition is_declined (r : ask.Answer) : bool :=
  String.eqb (ask.confidence r) "low".

(** A retrieved chunk that is the metadata record of some stored row,
    with the score of that row against the query vector [x]. *)
Definition own_record (self : ask.HandbookAssistant) (x : list Q)
    (c : Chunk) : Prop :=
  exists i row m,
    ask.index self !! i = Some row /\ ask.metadata self !! i = Some m
    /\ c = set_score m (faiss.dot x row).

(** [c] is the metadata record of row [i], with the score of that row
    against the query vector [x]. *)
Definition record_of_row (self : ask.HandbookAssistant) (x : list Q)
    (i : nat) (c : Chunk) : Prop :=
  exists row m,
    ask.index self !! i = Some row /\ ask.metadata self !! i = Some m
    /\ c = set_score m (faiss.dot x row).

(** What [retrieve] makes of one hit. *)
Definition joined (self : ask.HandbookAssistant) (hit : Q * Z) (c : Chunk)
    : Prop :=
  exists m, Py.getitem (ask.metadata self) hit.2 = Py.Ok m
            /\ c = set_score m hit.1.

(** A word: a non-empty string without white space. *)
Definition is_word (w : string) : Prop :=
  Py.is_empty w = false
  /\ Py.forallb_str (fun c => negb (Py.is_space c)) w = true.

(** The words of a chunk. *)
Definition words_of (c : Chunk) : list string := Py.split (text c).

(** Two word sequences overlap by exactly [n] words: the last [n] words
    of the first are the first [n] words of the second. *)
Definition overlap_exactly (n : nat) (w1 w2 : list string) : Prop :=
  n <= length w1 /\ n <= length w2
  /\ drop (length w1 - n) w1 = take n w2.

(** The lines the numbered-heading pattern matches: one or more digits,
    an optional period, one or more white-space characters, a capital
    letter, anything. *)
Definition numbered_line (s : string) : Prop :=
  exists ds dot ws c rest,
    s = ds +:+ dot +:+ ws +:+ String c rest
    /\ ds <> "" /\ Py.forallb_str Py.is_digit ds = true
    /\ (dot = "" \/ dot = ".")
    /\ ws <> "" /\ Py.forallb_str Py.is_space ws = true
    /\ Py.is_ascii_upper c = true.

(** The longest prefix of characters that satisfy [p]. *)
Fixpoint take_while (p : ascii -> bool) (s : string) : string :=
  match s with
  | EmptyString => EmptyString
  | String c s' => if p c then String c (take_while p s') else EmptyString
  end.

(** A line the heuristic takes for a heading. *)
Definition heading (line : string) : Prop :=
  6 <= String.length line <= 99
  /\ (Py.isupper line = true \/ numbered_line line).

(** The heading heuristic in the words of the specification: the lines
    are taken as they are, the period of a numbered heading is required,
    and the fallback collapses white space. *)
Definition numbered_with_period (line : string) : bool :=
  match line with
  | String c _ =>
      Py.is_digit c &&
      match Py.drop_while Py.is_digit line with
      | String "."%char r =>
          match r with
          | String c2 _ =>
              Py.is_space c2 &&
              match Py.drop_while Py.is_space r with
              | String c3 _ => Py.is_ascii_upper c3
              | EmptyString => false
              end
          | EmptyString => false
          end
      | _ => false
      end
  | EmptyString => false
  end.

Definition collapse_whitespace (s : string) : string :=
  Py.join " " (Py.split s).

Definition spec_section_hint (text : string) : string :=
  match
    find (fun line =>
            (Py.isupper line || numbered_with_period line)
            && (6 <=? String.length line)%nat
            && (String.length line <=? 99)%nat)
         (take 3 (Py.split_on Py.LF text))
  with
  | Some line => line
  | None => collapse_whitespace (Py.prefix 50 text) +:+ "..."
  end.

(** The chunks of one page of the handbook, as [create_chunks] asks for
    them. *)
Definition page_chunks_of (page_texts : gmap Z string) (p : Z)
    (chunks : list Chunk) : Prop :=
  exists page_text,
    page_texts !! p = Some page_text
    /\ utils.chunk_text_with_overlap page_text p
         config.CHUNK_SIZE_WORDS config.OVERLAP_PERCENTAGE
       = Py.Ok chunks.

(** Numbering a chunk sequence from [start]. *)
Definition numbered_from (start : nat) (chunks : list Chunk) : list Chunk :=
  imap (fun i c => set_chunk_id c (start + i)) chunks.

(** The [j]-th window of [size] words, [stride] words apart. *)
Definition window (words : list string) (size stride : Z) (j : nat)
    : list string :=
  take (Z.to_nat size) (drop (j * Z.to_nat stride) words).

(** The chunk the chunker makes of a window. *)
Definition chunk_of (page_num : Z) (w : list string) : Chunk :=
  mkChunk (Py.join " " w) page_num
          (utils.extract_section_hint (Py.join " " w)) (length w) None None.

(** The overlap property in its unrestricted form: for the chunks of one
    page, every chunk but possibly the final one overlaps its predecessor
    by exactly [overlap_words] words. *)
Definition overlap_everywhere (text : string) (page_num size : Z) (pct : Q)
    : Prop :=
  utils.overlap_words size pct = Qfloor (inject_Z size * pct)
  /\ forall chunks j c1 c2,
       utils.chunk_text_with_overlap text page_num size pct = Py.Ok chunks ->
       chunks !! j = Some c1 -> chunks !! S j = Some c2 ->
       S (S j) < length chunks ->
       overlap_exactly (Z.to_nat (utils.overlap_words size pct))
         (words_of c1) (words_of c2).

(** The chunks of a sequence that come from one page, in the order of
    the sequence. *)
Definition chunks_on (p : Z) (chunks : list Chunk) : list Chunk :=
  filter (fun c => page c = p) chunks.

(** One page of the formatted answer: the page's chunk texts joined by a
    newline, followed by the citation. *)
Definition page_block (chunks : list Chunk) (p : Z) : string :=
  Py.join (String Py.LF "") (map text (chunks_on p chunks))
  +:+ " (p. " +:+ Py.str p +:+ ")".

(** The last character of a string. *)
Fixpoint last_char (s : string) : option ascii :=
  match s with
  | EmptyString => None
  | String c EmptyString => Some c
  | String _ s' => last_char s'
  end.

(** [t in s] for strings. *)
Definition substring_of (t s : string) : Prop :=
  exists a b, s = a +:+ t +:+ b.

(** *** Regular expressions and runs of characters *)

(** A string matches an item of a pattern. *)
Definition item_matches (cls : ascii -> bool) (q : Py.quant) (a : string)
    : Prop :=
  Py.forallb_str cls a = true
  /\ match q with
     | Py.One => String.length a = 1
     | Py.Opt => String.length a <= 1
     | Py.Star => True
     | Py.Plus => 1 <= String.length a
     end.

(** A string matches a pattern: it is a concatenation of matches of the
    items. *)
Inductive matches : Py.pattern -> string -> Prop :=
  | matches_nil : matches [] ""
  | matches_cons cls q p a b :
      item_matches cls q a -> matches p b ->
      matches ((cls, q) :: p) (a +:+ b).

(** The length of the run of [c] at the start of [s], and of the longest
    run of [c] in [s]. *)
Fixpoint run (c : ascii) (s : string) : nat :=
  match s with
  | String d s' => if Ascii.eqb c d then S (run c s') else 0
  | EmptyString => 0
  end.

Fixpoint longest_run (c : ascii) (s : string) : nat :=
  match s with
  | String _ s' => Nat.max (run c s) (longest_run c s')
  | EmptyString => 0
  end.

(** The first character of a string. *)
Definition first_char (s : string) : option ascii :=
  match s with
  | String c _ => Some c
  | EmptyString => None
  end.

(** A pattern whose matches are never empty. *)
Definition consuming (p : Py.pattern) : Prop :=
  forall s r, Py.re_match p s = Some r -> String.length r < String.length s.

(** A pattern that matches white space only. *)
Definition whitespace_only (p : Py.pattern) : Prop :=
  Forall (fun it => forall c, it.1 c = true -> Py.is_space c = true) p.

(** The replacement for a run of blank lines. *)
Definition NL2 : string := String Py.LF (String Py.LF "").

(** A chunk made of the text of a page of the document: a window of the
    configured size of the words on the page as extracted, joined by
    single spaces, under the page's number. *)
Definition chunk_from_page (pages : list (option string)) (c : Chunk)
    : Prop :=
  exists j raw k,
    page c = (Z.of_nat j + 1)%Z
    /\ pages !! j = Some (Some raw)
    /\ words_of c
       = window (Py.split raw) config.CHUNK_SIZE_WORDS
           (utils.step config.CHUNK_SIZE_WORDS config.OVERLAP_PERCENTAGE) k
    /\ text c = Py.join " " (words_of c)
    /\ config.MIN_CHUNK_SIZE <= length (words_of c).

(** The number of newlines in the white space a string starts with. *)
Fixpoint lead_newlines (s : string) : nat :=
  match s with
  | String c s' =>
      if Py.is_space c
      then (if Ascii.eqb Py.LF c then 1 else 0) + lead_newlines s'
      else 0
  | EmptyString => 0
  end.

(** No newline of the string starts a stretch of white space with three
    newlines or more. *)
Fixpoint settled (s : string) : Prop :=
  match s with
  | String c s' => (c = Py.LF -> lead_newlines s <= 2) /\ settled s'
  | EmptyString => True
  end.

(** *** Matching by words *)

(** The share of the distinct words of the query that occur among the
    words of the text, both in lower case; [0] for a query without
    words. *)
Definition share (query text : string) : Q :=
  (inject_Z (Z.of_nat (size (app_simple.word_set (Py.lower query)
                             ∩ app_simple.word_set (Py.lower text))))
   / inject_Z (Z.of_nat (size (app_simple.word_set (Py.lower query)))))%Q.

(** The text has a word of the query, case apart. *)
Definition shares_word (query text : string) : Prop :=
  exists w, w ∈ Py.split (Py.lower query) /\ w ∈ Py.split (Py.lower text).

(** The order [sort] puts the scored chunks in. *)
Definition by_score (a b : Chunk * Q) : Prop := (b.2 <= a.2)%Q.

(** *** Sample data

    A small handbook: five chunks on five pages, indexed by unit vectors
    with rational coordinates, so that the normalisation of the index and
    of the query is the identity on them; and a few pages to chunk. *)

Module demo.

Definition chunk_at (i : nat) (page_num : Z) (body : string) : Chunk :=
  mkChunk body page_num (utils.extract_section_hint body)
          (length (Py.split body)) (Some i) None.

Definition handbook : list Chunk :=
  [ chunk_at 0 1 "Margins must be one inch on all sides.";
    chunk_at 1 2 "Headings use 12pt bold font.";
    chunk_at 2 3 "Chapters start on a new page.";
    chunk_at 3 4 "Endnotes follow the last chapter.";
    chunk_at 4 5 "The abstract has at most 300 words." ].

Definition rows : list (list Q) :=
  [ [1 # 4; 3 # 4; 1 # 2; 1 # 4; 1 # 4];
    [0; 1; 0; 0; 0];
    [0; 0; 1; 0; 0];
    [0; 0; 0; 1; 0];
    [0; 0; 0; 0; 1] ]%Q.

Definition encode (query : string) : list Q :=
  (if String.eqb query "What margins are required?"
   then [1 # 4; 3 # 4; 1 # 2; 1 # 4; 1 # 4]
   else if String.eqb query "Which sides?"
   then [1; 0; 0; 0; 0]
   else [- (40 # 41); 9 # 41; 0; 0; 0])%Q.

Definition assistant : ask.HandbookAssistant :=
  ask.mkAssistant rows handbook encode.

(** The corpus of two chunks of the end-to-end scenarios. *)
Definition two_chunks : list Chunk :=
  [ chunk_at 0 1 "Margins must be one inch on all sides.";
    chunk_at 1 2 "Headings use 12pt bold font." ].

Definition small (encoder : string -> list Q) : ask.HandbookAssistant :=
  ask.mkAssistant [[1; 0]; [0; 1]]%Q two_chunks encoder.

(** What [retrieve] returns for a question, [[]] if it raises. *)
Definition retrieved_for (question : string) : list Chunk :=
  match ask.retrieve id assistant question None with
  | Py.Ok l => l
  | Py.Raise _ => []
  end.

(** A question whose best score is exactly the threshold, and one whose
    best score, [9/41], is below it. *)
Definition at_threshold : list Chunk :=
  Eval vm_compute in retrieved_for "Which sides?".

Definition below_threshold : list Chunk :=
  Eval vm_compute in retrieved_for "What is the weather today?".

Definition well_matched : list Chunk :=
  Eval vm_compute in retrieved_for "What margins are required?".

(** A page of a hundred words, ["0"] to ["99"], and its chunks for
    windows of 100 words overlapping by 90. *)
Definition hundred_words : string :=
  Py.join " " (map (fun k => Py.str (Z.of_nat k)) (seq 0 100)).

Definition hundred_chunks : list Chunk :=
  Eval vm_compute in
    match utils.chunk_text_with_overlap hundred_words 1 100 (9 # 10) with
    | Py.Ok l => l
    | Py.Raise _ => []
    end.

(** A page of fifty one-letter words that starts like a numbered
    heading without a period. *)
Definition numbered_page : string :=
  Py.join " " ("1" :: "A" :: replicate 48 "b").

(** A handbook of three pages: the second is too short to chunk, the
    third has 600 words. *)
Definition long_page : string :=
  Py.join " " (map (fun k => Py.str (Z.of_nat k)) (seq 0 600)).

Definition three_pages : gmap Z string :=
  {[ 3%Z := long_page; 1%Z := numbered_page; 2%Z := "Too short." ]}.

Definition three_pages_chunks : list Chunk :=
  Eval vm_compute in
    match ingest.create_chunks three_pages with
    | Py.Ok l => l
    | Py.Raise _ => []
    end.

(** A handbook whose only page is too short to chunk. *)
Definition short_handbook : gmap Z string := {[ 1%Z := "Too short." ]}.

(** A document of four pages as the PDF library extracts it: the first
    with white space around its text, the second without text, the
    fourth with an empty text; and what [main] saves for it. *)
Definition scanned : list (option string) :=
  [ Some ("  " +:+ numbered_page
          +:+ String Py.LF (String Py.LF (String Py.LF "  ")));
    None; Some hundred_words; Some "" ].

Definition scanned_index : list (list Q) :=
  Eval vm_compute in
    match ingest.main id encode scanned with
    | Py.Ok (ingest.Saved index _) => index
    | _ => []
    end.

Definition scanned_chunks : list Chunk :=
  Eval vm_compute in
    match ingest.main id encode scanned with
    | Py.Ok (ingest.Saved _ metadata) => metadata
    | _ => []
    end.

(** The simple assistant on the small handbook, and what it retrieves
    for two queries. *)
Definition simple : app_simple.SimpleHandbookAssistant :=
  app_simple.mkSimple rows handbook.

Definition last_page_found : list Chunk :=
  Eval vm_compute in app_simple.simple_retrieve simple "the LAST page" 5.

Definition on_a_new_found : list Chunk :=
  Eval vm_compute in app_simple.simple_retrieve simple "on a new" 5.

(** What [ask] returns for a question on an empty log. *)
Definition outcome_for (question : string)
    : ask.Answer * list utils.LogEntry :=
  match ask.ask id assistant question [] with
  | Py.Ok out => out
  | Py.Raise _ => (ask.declined, [])
  end.

End demo.

(** * Properties *)

(** ** The error monad and the numeric built-ins *)

Ltac run_bind := unfold mbind, Py.result_bind; cbn [Py.bind].

Section py_facts.

Lemma bind_Ok {A B} (m : Py.result A) (k : A -> Py.result B) b :
  (m ≫= k) = Py.Ok b -> exists a, m = Py.Ok a /\ k a = Py.Ok b.
Proof. destruct m as [a|e]; [eauto | discriminate]. Qed.

Lemma traverse_Forall2 {A B} (f : A -> Py.result B) l ys :
  Py.traverse f l = Py.Ok ys -> Forall2 (fun x y => f x = Py.Ok y) l ys.
Proof.
  revert ys. induction l as [|x l IH]; intros ys H; simpl in H.
  - injection H as <-. constructor.
  - apply bind_Ok in H as (y & Hy & H).
    apply bind_Ok in H as (ys' & Hys & H).
    injection H as <-. constructor; auto.
Qed.

Lemma Forall2_traverse {A B} (f : A -> Py.result B) l ys :
  Forall2 (fun x y => f x = Py.Ok y) l ys -> Py.traverse f l = Py.Ok ys.
Proof.
  induction 1 as [|x y l ys Hxy _ IH]; simpl; [done|].
  rewrite Hxy. simpl. unfold mbind, Py.result_bind in *. simpl.
  rewrite IH. done.
Qed.

Lemma Qltb_lt x y : Py.Qltb x y = true <-> (x < y)%Q.
Proof.
  unfold Py.Qltb. rewrite negb_true_iff. split.
  - intros H. apply Qnot_le_lt. intros Hle.
    apply Qle_bool_iff in Hle. congruence.
  - intros H. destruct (Qle_bool y x) eqn:E; [|done].
    apply Qle_bool_iff in E. exfalso. eapply Qlt_not_le; eauto.
Qed.

Lemma Qltb_ge x y : Py.Qltb x y = false <-> (y <= x)%Q.
Proof.
  unfold Py.Qltb. rewrite negb_false_iff. apply Qle_bool_iff.
Qed.

Lemma run_max_spec (l : list Q) (x : Q) :
  let m := fold_left (fun m y => if Py.Qltb m y then y else m) l x in
  m ∈ x :: l /\ forall y, y ∈ x :: l -> (y <= m)%Q.
Proof.
  revert x. induction l as [|z l IH]; intros x; simpl.
  - split; [left|]. intros y Hy. apply list_elem_of_singleton in Hy as ->.
    apply Qle_refl.
  - destruct (Py.Qltb x z) eqn:E.
    + destruct (IH z) as [Hin Hle]. split; [by right|].
      intros y Hy. apply elem_of_cons in Hy as [->|Hy]; [|by apply Hle].
      apply Qltb_lt in E. eapply Qle_trans; [apply Qlt_le_weak, E|].
      apply Hle. left.
    + destruct (IH x) as [Hin Hle]. split.
      * apply elem_of_cons in Hin as [->|Hin]; [left|right; by right].
      * intros y Hy. apply elem_of_cons in Hy as [->|Hy]; [apply Hle; left|].
        apply elem_of_cons in Hy as [->|Hy]; [|apply Hle; by right].
        apply Qltb_ge in E. eapply Qle_trans; [apply E|]. apply Hle. left.
Qed.

Lemma max_spec (l : list Q) (m : Q) :
  Py.max l = Py.Ok m -> m ∈ l /\ forall y, y ∈ l -> (y <= m)%Q.
Proof.
  destruct l as [|x l]; simpl; [discriminate|].
  intros [= <-]. apply run_max_spec.
Qed.

Lemma max_nonempty (l : list Q) : l <> [] -> exists m, Py.max l = Py.Ok m.
Proof. destruct l; [done|]. simpl. eauto. Qed.

End py_facts.

(** ** The index search *)

Section faiss_facts.

#[local] Instance better_total : Total faiss.better.
Proof.
  intros [s i] [t j]. unfold faiss.better; simpl.
  destruct (Q_dec s t) as [[Hlt|Hgt]|Heq]; [right; by left|left; by left|].
  destruct (Z.le_gt_cases i j) as [Hij|Hij].
  - left. right. split; [by symmetry|done].
  - right. right. split; [done|lia].
Qed.

#[local] Instance better_trans : Transitive faiss.better.
Proof.
  intros [s i] [t j] [u k]. unfold faiss.better; simpl.
  intros [H1|[H1 H1']] [H2|[H2 H2']].
  - left. eapply Qlt_trans; eauto.
  - left. rewrite H2. done.
  - left. rewrite <- H1. done.
  - right. split; [|lia]. rewrite H2. done.
Qed.

Lemma better_score_ge x y : faiss.better x y -> (y.1 <= x.1)%Q.
Proof.
  intros [H|[H _]]; [by apply Qlt_le_weak|]. rewrite H. apply Qle_refl.
Qed.

Lemma search_split rows x k :
  faiss.search rows x k
  = faiss.found rows x k
    ++ replicate (k - length (faiss.found rows x k)) faiss.padding.
Proof. reflexivity. Qed.

Lemma length_found rows x k :
  length (faiss.found rows x k) = Nat.min k (length rows).
Proof.
  unfold faiss.found, faiss.hits. rewrite length_take.
  rewrite (Permutation_length (merge_sort_Permutation _ _)).
  by rewrite length_imap.
Qed.

Lemma length_search rows x k : length (faiss.search rows x k) = k.
Proof.
  rewrite search_split, length_app, length_replicate.
  pose proof (length_found rows x k). lia.
Qed.

Lemma found_sorted rows x k :
  StronglySorted faiss.better (faiss.found rows x k).
Proof.
  unfold faiss.found.
  pose proof (StronglySorted_merge_sort faiss.better (faiss.hits rows x)) as H.
  rewrite <- (take_drop k (merge_sort faiss.better (faiss.hits rows x))) in H.
  by apply StronglySorted_app_1_l in H.
Qed.

Lemma found_label rows x k h :
  h ∈ faiss.found rows x k ->
  exists i row, rows !! i = Some row /\ h = (faiss.dot x row, Z.of_nat i).
Proof.
  unfold faiss.found. intros H. apply subseteq_take in H.
  rewrite merge_sort_Permutation in H.
  apply elem_of_lookup_imap in H as (i & row & -> & Hrow). eauto.
Qed.

(** Every stored row is among the hits when [k] covers the index. *)
Lemma found_all rows x k i row :
  length rows <= k -> rows !! i = Some row ->
  (faiss.dot x row, Z.of_nat i) ∈ faiss.found rows x k.
Proof.
  intros Hk Hrow. unfold faiss.found. rewrite take_ge.
  - rewrite merge_sort_Permutation. unfold faiss.hits.
    apply (elem_of_lookup_imap_2
             (fun i row => (faiss.dot x row, Z.of_nat i)) _ _ _ Hrow).
  - rewrite (Permutation_length (merge_sort_Permutation _ _)).
    unfold faiss.hits. by rewrite length_imap.
Qed.

End faiss_facts.

(** ** Retrieval and the relevance gate *)

Section ask_facts.

Variable normalize_L2 : list Q -> list Q.

Lemma highest_spec (l : list Q) :
  l <> [] -> highest l ∈ l /\ forall y, y ∈ l -> (y <= highest l)%Q.
Proof.
  induction l as [|x l IH]; [done|]. intros _.
  destruct l as [|z l].
  - simpl. split; [left|]. intros y Hy.
    apply list_elem_of_singleton in Hy as ->. apply Qle_refl.
  - destruct IH as [Hin Hle]; [done|].
    change (highest (x :: z :: l))
      with (if Qle_bool (highest (z :: l)) x then x else highest (z :: l)).
    destruct (Qle_bool (highest (z :: l)) x) eqn:E.
    + apply Qle_bool_iff in E. split; [left|].
      intros y Hy. apply elem_of_cons in Hy as [->|Hy]; [apply Qle_refl|].
      eapply Qle_trans; [by apply Hle|done].
    + split; [by right|]. intros y Hy.
      apply elem_of_cons in Hy as [->|Hy]; [|by apply Hle].
      apply Qlt_le_weak, Qltb_lt. unfold Py.Qltb. by rewrite E.
Qed.

Lemma max_highest (l : list Q) (m : Q) :
  Py.max l = Py.Ok m -> (m == highest l)%Q.
Proof.
  intros H. assert (l <> []) as Hne by (destruct l; done).
  apply max_spec in H as [Hin Hle].
  destruct (highest_spec l Hne) as [Hin' Hle'].
  apply Qle_antisym; auto.
Qed.

Lemma Qle_bool_Qeq (t x y : Q) : (x == y)%Q -> Qle_bool t x = Qle_bool t y.
Proof.
  intros H. destruct (Qle_bool t x) eqn:E1, (Qle_bool t y) eqn:E2; try done.
  - apply Qle_bool_iff in E1. rewrite H in E1.
    apply Qle_bool_iff in E1. congruence.
  - apply Qle_bool_iff in E2. rewrite <- H in E2.
    apply Qle_bool_iff in E2. congruence.
Qed.

Lemma getitem_nat {A} (l : list A) (i : nat) (x : A) :
  l !! i = Some x -> Py.getitem l (Z.of_nat i) = Py.Ok x.
Proof.
  intros H. unfold Py.getitem.
  destruct (Z.ltb_spec (Z.of_nat i) 0) as [?|_]; [lia|].
  destruct (Z.ltb_spec (Z.of_nat i) 0) as [?|_]; [lia|].
  by rewrite Nat2Z.id, H.
Qed.

Lemma getitem_last {A} (l : list A) (x : A) :
  last l = Some x -> Py.getitem l (-1) = Py.Ok x.
Proof.
  intros H. unfold Py.getitem, Py.len. rewrite last_lookup in H.
  assert (length l <> 0) by (destruct l; done).
  destruct (Z.ltb_spec (-1) 0) as [_|?]; [|lia].
  destruct (Z.ltb_spec (-1 + Z.of_nat (length l)) 0) as [?|_]; [lia|].
  replace (Z.to_nat (-1 + Z.of_nat (length l))) with (pred (length l))
    by lia.
  by rewrite H.
Qed.

Lemma retrieve_joined self query top_k retrieved :
  ask.retrieve normalize_L2 self query top_k = Py.Ok retrieved ->
  Forall2 (joined self)
    (faiss.search (ask.index self)
       (normalize_L2 (ask.encoder self query))
       (default config.TOP_K top_k))
    retrieved.
Proof.
  unfold ask.retrieve. intros H. apply traverse_Forall2 in H.
  eapply Forall2_impl; [apply H|]. simpl. intros hit c Hc.
  apply bind_Ok in Hc as (m & Hm & Hc). injection Hc as <-.
  by exists m.
Qed.

Lemma joined_scores self found retrieved :
  Forall2 (joined self) found retrieved ->
  scores_of retrieved = found.*1
  /\ Py.traverse get_score retrieved = Py.Ok found.*1.
Proof.
  induction 1 as [|h c hs cs (m & _ & ->) _ [IH1 IH2]]; [done|].
  change (scores_of (set_score m h.1 :: cs)) with (h.1 :: scores_of cs).
  change ((h :: hs).*1) with (h.1 :: hs.*1).
  split; [by rewrite IH1|].
  change (Py.traverse get_score (set_score m h.1 :: cs))
    with (Py.bind (Py.traverse get_score cs)
            (fun ys => Py.Ok (h.1 :: ys))).
  by rewrite IH2.
Qed.

Lemma check_relevance_spec retrieved :
  Py.traverse get_score retrieved = Py.Ok (scores_of retrieved) ->
  ask.check_relevance retrieved
  = Py.Ok (Qle_bool config.SIMILARITY_THRESHOLD (highest_score retrieved)).
Proof.
  intros H. destruct retrieved as [|c cs]; [done|].
  assert (scores_of (c :: cs) <> []) as Hne.
  { intros E. rewrite E in H. apply traverse_Forall2 in H. inversion H. }
  destruct (max_nonempty _ Hne) as [m Hm].
  unfold ask.check_relevance. rewrite H. run_bind. rewrite Hm. run_bind.
  f_equal. apply Qle_bool_Qeq. by apply max_highest.
Qed.

(** The two ways [ask] returns. *)
Lemma ask_cases self question log retrieved :
  ask.retrieve normalize_L2 self question None = Py.Ok retrieved ->
  ((highest_score retrieved < config.SIMILARITY_THRESHOLD)%Q
   /\ ask.ask normalize_L2 self question log = Py.Ok (ask.declined, log))
  \/ ((config.SIMILARITY_THRESHOLD <= highest_score retrieved)%Q
      /\ exists first rest top,
          retrieved = first :: rest /\ score first = Some top
          /\ ask.ask normalize_L2 self question log
             = Py.Ok (ask.mkAnswer
                        (utils.format_retrieved_chunks retrieved)
                        retrieved
                        (utils.get_unique_pages retrieved)
                        (if Py.Qltb (1 # 2) top then "high" else "medium")
                        top,
                      utils.log_prompt question retrieved
                        (utils.format_retrieved_chunks retrieved) log)).
Proof.
  intros Hret. pose proof (retrieve_joined _ _ _ _ Hret) as Hj.
  apply joined_scores in Hj as [Hs Ht]. rewrite <- Hs in Ht.
  pose proof (check_relevance_spec _ Ht) as Hc.
  unfold ask.ask. rewrite Hret. run_bind. rewrite Hc. run_bind.
  destruct (Qle_bool _ _) eqn:E; cbn [negb].
  - right. apply Qle_bool_iff in E. split; [done|].
    destruct retrieved as [|first rest].
    { exfalso. revert E. unfold highest_score. simpl.
      unfold config.SIMILARITY_THRESHOLD, Qle. simpl. lia. }
    apply traverse_Forall2 in Ht. inversion Ht as [|? top ? ? Hf _]; subst.
    exists first, rest, top. split; [done|].
    unfold get_score in Hf. destruct (score first) as [s|] eqn:Es; [|done].
    injection Hf as <-. split; [done|].
    change (Py.getitem (first :: rest) 0) with (Py.Ok first). run_bind.
    unfold get_score. rewrite Es. done.
  - left. split; [|done]. apply Qltb_lt. unfold Py.Qltb. by rewrite E.
Qed.

End ask_facts.

(** ** The claims about retrieval and the gate *)

Section gate_claims.

Variable normalize_L2 : list Q -> list Q.

Lemma traverse_total {A B} (f : A -> Py.result B) (l : list A) :
  (forall x, x ∈ l -> exists y, f x = Py.Ok y) ->
  exists ys, Py.traverse f l = Py.Ok ys.
Proof.
  induction l as [|x l IH]; intros H; [by exists []|].
  destruct (H x) as [y Hy]; [left|].
  destruct IH as [ys Hys]; [intros z Hz; apply H; by right|].
  exists (y :: ys). simpl. rewrite Hy. run_bind. by rewrite Hys.
Qed.

Lemma traverse_app {A B} (f : A -> Py.result B) l1 l2 ys1 ys2 :
  Py.traverse f l1 = Py.Ok ys1 -> Py.traverse f l2 = Py.Ok ys2 ->
  Py.traverse f (l1 ++ l2) = Py.Ok (ys1 ++ ys2).
Proof.
  intros H1 H2. apply traverse_Forall2 in H1. apply traverse_Forall2 in H2.
  apply Forall2_traverse. by apply Forall2_app.
Qed.

Lemma traverse_replicate {A B} (f : A -> Py.result B) n x y :
  f x = Py.Ok y -> Py.traverse f (replicate n x) = Py.Ok (replicate n y).
Proof.
  intros H. apply Forall2_traverse. induction n; simpl; by constructor.
Qed.

Lemma traverse_length {A B} (f : A -> Py.result B) l ys :
  Py.traverse f l = Py.Ok ys -> length ys = length l.
Proof. intros H. apply traverse_Forall2 in H. by apply Forall2_length in H. Qed.

(** [retrieve] hands back as many chunks as the search has columns. *)
Lemma retrieve_length self query top_k retrieved :
  ask.retrieve normalize_L2 self query top_k = Py.Ok retrieved ->
  length retrieved = default config.TOP_K top_k.
Proof.
  intros H. apply traverse_length in H. by rewrite length_search in H.
Qed.

(** Asking for more chunks than are stored: the stored ones come first,
    each joined to the metadata record of its own row, and every
    remaining slot is joined to the last metadata record through the
    label [-1]. *)
Lemma retrieve_beyond_corpus self query k last_chunk :
  length (ask.index self) = length (ask.metadata self) ->
  last (ask.metadata self) = Some last_chunk ->
  length (ask.index self) < k ->
  exists stored,
    ask.retrieve normalize_L2 self query (Some k)
    = Py.Ok (stored ++ replicate (k - length (ask.index self))
                         (set_score last_chunk (- faiss.FLT_MAX)%Q))
    /\ length stored = length (ask.index self)
    /\ Forall (own_record self (normalize_L2 (ask.encoder self query)))
         stored.
Proof.
  intros Hlen Hlast Hk. unfold ask.retrieve.
  change (default config.TOP_K (Some k)) with k.
  rewrite search_split. set (x := normalize_L2 _).
  set (f := fun hit : Q * Z => _).
  assert (forall h, h ∈ faiss.found (ask.index self) x k ->
            exists c, f h = Py.Ok c /\ own_record self x c) as Hown.
  { intros h Hh. apply found_label in Hh as (i & row & Hrow & ->).
    pose proof (lookup_lt_Some _ _ _ Hrow) as Hi. rewrite Hlen in Hi.
    apply lookup_lt_is_Some in Hi as [m Hm].
    exists (set_score m (faiss.dot x row)). split.
    - unfold f. cbn [fst snd]. by rewrite (getitem_nat _ _ _ Hm).
    - by exists i, row, m. }
  destruct (traverse_total f (faiss.found (ask.index self) x k))
    as [stored Hs].
  { intros h Hh. destruct (Hown h Hh) as (c & Hc & _). eauto. }
  exists stored. split; [|split].
  - apply traverse_app; [done|].
    rewrite length_found, Nat.min_r by lia.
    apply traverse_replicate. unfold f, faiss.padding. cbn [fst snd].
    by rewrite (getitem_last _ _ Hlast).
  - apply traverse_length in Hs. rewrite Hs, length_found. lia.
  - apply traverse_Forall2 in Hs. apply Forall_forall. intros c Hc.
    apply list_elem_of_lookup in Hc as [j Hj].
    destruct (Forall2_lookup_r _ _ _ _ _ Hs Hj) as (h & Hh & Hfh).
    apply list_elem_of_lookup_2 in Hh.
    destruct (Hown h Hh) as (c' & Hc' & Hrec). congruence.
Qed.

(** An assistant whose metadata is aligned with a non-empty index always
    retrieves. *)
Lemma retrieve_returns self query top_k :
  length (ask.index self) = length (ask.metadata self) ->
  ask.metadata self <> [] ->
  exists retrieved,
    ask.retrieve normalize_L2 self query top_k = Py.Ok retrieved.
Proof.
  intros Hlen Hne. unfold ask.retrieve. apply traverse_total.
  intros h Hh. rewrite search_split in Hh.
  apply elem_of_app in Hh as [Hh|Hh].
  - apply found_label in Hh as (i & row & Hrow & ->).
    apply lookup_lt_Some in Hrow. rewrite Hlen in Hrow.
    apply lookup_lt_is_Some in Hrow as [m Hm]. cbn [fst snd].
    rewrite (getitem_nat _ _ _ Hm). by eexists.
  - apply elem_of_replicate in Hh as [-> _].
    destruct (last (ask.metadata self)) as [m|] eqn:Hlast.
    + unfold faiss.padding. cbn [fst snd].
      rewrite (getitem_last _ _ Hlast). by eexists.
    + apply last_None in Hlast. done.
Qed.

(** With nothing stored, the label [-1] has no record to go to. *)
Lemma retrieve_empty_index query k :
  ask.retrieve normalize_L2 (ask.mkAssistant [] [] (fun _ => [])) query
    (Some (S k))
  = Py.Raise Py.IndexError.
Proof. reflexivity. Qed.

End gate_claims.

(** C1, at the input of the end-to-end scenario (two stored chunks, five
    requested): [retrieve] returns five results, not two; the last three
    are copies of the last metadata record carrying the score
    [-FLT_MAX]. *)
Theorem retrieve_five_of_two normalize_L2 encoder query :
  exists stored,
    ask.retrieve normalize_L2 (demo.small encoder) query (Some 5)
    = Py.Ok (stored
             ++ replicate 3
                  (set_score
                     (demo.chunk_at 1 2 "Headings use 12pt bold font.")
                     (- faiss.FLT_MAX)%Q))
    /\ length stored = 2.
Proof.
  destruct (retrieve_beyond_corpus normalize_L2 (demo.small encoder) query 5
              (demo.chunk_at 1 2 "Headings use 12pt bold font."))
    as (stored & H & Hlen & _); [done|done|simpl; lia|].
  exists stored. split; [exact H|exact Hlen].
Qed.

Section answer_claims.

Variable normalize_L2 : list Q -> list Q.

Lemma padding_below_threshold :
  (- faiss.FLT_MAX < config.SIMILARITY_THRESHOLD)%Q.
Proof. reflexivity. Qed.

(** When the gate is passed, the first retrieved chunk carries the
    highest score: the stored hits are ranked, and every padded slot is
    below the threshold. *)
Lemma first_is_highest self query top_k first rest top :
  ask.retrieve normalize_L2 self query top_k = Py.Ok (first :: rest) ->
  score first = Some top ->
  (config.SIMILARITY_THRESHOLD <= highest_score (first :: rest))%Q ->
  (top == highest_score (first :: rest))%Q.
Proof.
  intros Hret Htop Hgate.
  pose proof (retrieve_joined _ _ _ _ _ Hret) as Hj.
  destruct (joined_scores _ _ _ Hj) as [Hs _].
  rewrite search_split in Hj, Hs.
  set (fd := faiss.found _ _ _) in *. set (pad := replicate _ _) in *.
  unfold highest_score in *. 
  assert (scores_of (first :: rest) <> []) as Hne.
  { unfold scores_of. simpl. by rewrite Htop. }
  destruct (highest_spec _ Hne) as [Hin Hle].
  set (hs := highest _) in *.
  assert (top ∈ scores_of (first :: rest)) as Htin.
  { unfold scores_of. simpl. rewrite Htop. left. }
  clearbody hs. apply Qle_antisym; [by apply Hle|].
  rewrite Hs in Hin. apply list_elem_of_fmap in Hin as (h & -> & Hin).
  apply elem_of_app in Hin as [Hin|Hin].
  - destruct fd as [|f0 fd'] eqn:Efd; [by apply elem_of_nil in Hin|].
    inversion Hj as [|? ? ? ? (m & _ & Hf) _]; subst.
    simpl in Htop. injection Htop as <-.
    pose proof (found_sorted (ask.index self)
                  (normalize_L2 (ask.encoder self query))
                  (default config.TOP_K top_k)) as Hsorted.
    fold fd in Hsorted. rewrite Efd in Hsorted.
    apply StronglySorted_inv in Hsorted as [_ Hall].
    apply elem_of_cons in Hin as [->|Hin]; [apply Qle_refl|].
    rewrite Forall_forall in Hall. by apply better_score_ge, Hall.
  - apply elem_of_replicate in Hin as [-> _]. exfalso.
    eapply Qlt_not_le; [apply padding_below_threshold|exact Hgate].
Qed.

(** C2: with [max_score] the highest score among the retrieved chunks,
    [0] when there are none, [ask] declines exactly when [max_score] is
    strictly below the threshold, and then returns the fixed decline
    string, no sources, no pages and the lowest tier; at or above the
    threshold it answers. *)
Theorem relevance_gate self question log retrieved :
  ask.retrieve normalize_L2 self question None = Py.Ok retrieved ->
  exists r log',
    ask.ask normalize_L2 self question log = Py.Ok (r, log')
    /\ (is_declined r = true
        <-> (highest_score retrieved < config.SIMILARITY_THRESHOLD)%Q)
    /\ (is_declined r = true ->
        ask.answer r = "I don't have that in the handbook."
        /\ ask.sources r = [] /\ ask.pages r = []
        /\ ask.confidence r = "low")
    /\ ((config.SIMILARITY_THRESHOLD <= highest_score retrieved)%Q ->
        is_declined r = false
        /\ ask.answer r = utils.format_retrieved_chunks retrieved).
Proof.
  intros Hret.
  destruct (ask_cases normalize_L2 self question log retrieved Hret)
    as [[Hlow Hask]|[Hhigh (first & rest & top & -> & Htop & Hask)]];
    rewrite Hask; eexists _, _; (split; [reflexivity|]).
  - split; [split; [by intros _|by intros _]|].
    split; [by intros _|].
    intros Hge. exfalso. eapply Qlt_not_le; eauto.
  - assert (is_declined
              (ask.mkAnswer
                 (utils.format_retrieved_chunks (first :: rest))
                 (first :: rest)
                 (utils.get_unique_pages (first :: rest))
                 (if Py.Qltb (1 # 2) top then "high" else "medium") top)
            = false) as Hd.
    { unfold is_declined. simpl. by destruct (Py.Qltb _ _). }
    rewrite Hd. split; [split; [done|]|].
    + intros Hlt. exfalso. eapply Qlt_not_le; eauto.
    + split; [done|]. by intros _.
Qed.

(** C3: an answered outcome exposes the whole retrieved sequence, in
    retrieval order, as its sources; a chunk below the threshold stays. *)
Theorem answered_sources self question log retrieved r log' :
  ask.retrieve normalize_L2 self question None = Py.Ok retrieved ->
  ask.ask normalize_L2 self question log = Py.Ok (r, log') ->
  is_declined r = false ->
  ask.sources r = retrieved
  /\ length (ask.sources r) = config.TOP_K
  /\ forall c s, c ∈ retrieved -> score c = Some s ->
       (s < config.SIMILARITY_THRESHOLD)%Q -> c ∈ ask.sources r.
Proof.
  intros Hret Hask Hd.
  pose proof (retrieve_length normalize_L2 _ _ _ _ Hret) as Hlen.
  destruct (ask_cases normalize_L2 self question log retrieved Hret)
    as [[_ Hask']|[_ (first & rest & top & -> & _ & Hask')]];
    rewrite Hask' in Hask; injection Hask as <- <-.
  - discriminate Hd.
  - simpl. repeat split; auto.
Qed.

(** C9: in an answered outcome, [max_score] is the score of the first
    retrieved chunk, which is the highest one, and the tier is ["high"]
    exactly when that score exceeds 0.5, ["medium"] otherwise. *)
Theorem answered_confidence self question log retrieved r log' :
  ask.retrieve normalize_L2 self question None = Py.Ok retrieved ->
  ask.ask normalize_L2 self question log = Py.Ok (r, log') ->
  is_declined r = false ->
  (exists first, retrieved !! 0 = Some first
                 /\ score first = Some (ask.max_score r))
  /\ (ask.max_score r == highest_score retrieved)%Q
  /\ (ask.confidence r = "high" <-> (1 # 2 < ask.max_score r)%Q)
  /\ (~ (1 # 2 < ask.max_score r)%Q -> ask.confidence r = "medium").
Proof.
  intros Hret Hask Hd.
  destruct (ask_cases normalize_L2 self question log retrieved Hret)
    as [[_ Hask']|[Hgate (first & rest & top & -> & Htop & Hask')]];
    rewrite Hask' in Hask; injection Hask as <- <-.
  - discriminate Hd.
  - cbn [ask.max_score ask.confidence]. split; [by exists first|].
    split; [by eapply first_is_highest|].
    destruct (Py.Qltb (1 # 2) top) eqn:E.
    + apply Qltb_lt in E. repeat split; done.
    + apply Qltb_ge in E. split; [|done]. split; [done|].
      intros Hlt. exfalso. eapply Qlt_not_le; eauto.
Qed.

(** C10: a declined outcome reports [max_score = 0.0], whatever the
    retrieved scores were. *)
Theorem declined_max_score self question log r log' :
  ask.ask normalize_L2 self question log = Py.Ok (r, log') ->
  is_declined r = true ->
  ask.max_score r = 0%Q.
Proof.
  intros Hask Hd. pose proof Hask as Hask0. unfold ask.ask in Hask0.
  apply bind_Ok in Hask0 as (retrieved & Hret & _).
  destruct (ask_cases normalize_L2 self question log retrieved Hret)
    as [[_ Hask']|[_ (first & rest & top & -> & _ & Hask')]];
    rewrite Hask' in Hask; injection Hask as <- <-.
  - reflexivity.
  - exfalso. revert Hd. unfold is_declined. simpl.
    by destruct (Py.Qltb _ _).
Qed.

End answer_claims.

(** The gate at its boundary: a best score equal to the threshold is
    answered. *)
Lemma relevance_gate_witness :
  ask.retrieve id demo.assistant "Which sides?" None
  = Py.Ok demo.at_threshold
  /\ (highest_score demo.at_threshold == config.SIMILARITY_THRESHOLD)%Q
  /\ exists r log',
       ask.ask id demo.assistant "Which sides?" [] = Py.Ok (r, log')
       /\ is_declined r = false.
Proof.
  assert (ask.retrieve id demo.assistant "Which sides?" None
          = Py.Ok demo.at_threshold) as Hret by (vm_compute; reflexivity).
  split; [exact Hret|]. split; [vm_compute; reflexivity|].
  destruct (relevance_gate id demo.assistant "Which sides?" [] _ Hret)
    as (r & log' & Hask & _ & _ & Hans).
  exists r, log'. split; [exact Hask|].
  apply Hans. vm_compute. discriminate.
Defined.

(** Four of the five sources of this answer score [0], below the
    threshold. *)
Lemma answered_sources_witness :
  let out := demo.outcome_for "Which sides?" in
  ask.retrieve id demo.assistant "Which sides?" None
  = Py.Ok demo.at_threshold
  /\ ask.ask id demo.assistant "Which sides?" [] = Py.Ok out
  /\ is_declined out.1 = false
  /\ ask.sources out.1 = demo.at_threshold
  /\ length (ask.sources out.1) = 5.
Proof.
  intros out.
  assert (ask.retrieve id demo.assistant "Which sides?" None
          = Py.Ok demo.at_threshold) as Hret by (vm_compute; reflexivity).
  assert (ask.ask id demo.assistant "Which sides?" []
          = Py.Ok (out.1, out.2)) as Hask by (vm_compute; reflexivity).
  assert (is_declined out.1 = false) as Hd by (vm_compute; reflexivity).
  destruct (answered_sources id _ _ _ _ _ _ Hret Hask Hd)
    as (Hsrc & Hlen & _).
  exact (conj Hret (conj Hask (conj Hd (conj Hsrc Hlen)))).
Defined.

Lemma answered_confidence_witness :
  let out := demo.outcome_for "What margins are required?" in
  ask.retrieve id demo.assistant "What margins are required?" None
  = Py.Ok demo.well_matched
  /\ ask.ask id demo.assistant "What margins are required?" [] = Py.Ok out
  /\ is_declined out.1 = false
  /\ (ask.max_score out.1 == 1)%Q
  /\ ask.confidence out.1 = "high".
Proof.
  intros out.
  assert (ask.retrieve id demo.assistant "What margins are required?" None
          = Py.Ok demo.well_matched) as Hret by (vm_compute; reflexivity).
  assert (ask.ask id demo.assistant "What margins are required?" []
          = Py.Ok (out.1, out.2)) as Hask by (vm_compute; reflexivity).
  assert (is_declined out.1 = false) as Hd by (vm_compute; reflexivity).
  destruct (answered_confidence id _ _ _ _ _ _ Hret Hask Hd)
    as (_ & Hmax & Hhigh & _).
  refine (conj Hret (conj Hask (conj Hd (conj _ _)))).
  - vm_compute; reflexivity.
  - apply Hhigh. vm_compute; reflexivity.
Defined.

(** The best score of this question is [9/41], not [0]; it is not
    reported. *)
Lemma declined_max_score_witness :
  let out := demo.outcome_for "What is the weather today?" in
  ask.ask id demo.assistant "What is the weather today?" [] = Py.Ok out
  /\ is_declined out.1 = true
  /\ (highest_score demo.below_threshold == 9 # 41)%Q
  /\ ask.max_score out.1 = 0%Q.
Proof.
  intros out.
  assert (ask.ask id demo.assistant "What is the weather today?" []
          = Py.Ok (out.1, out.2)) as Hask by (vm_compute; reflexivity).
  assert (is_declined out.1 = true) as Hd by (vm_compute; reflexivity).
  refine (conj Hask (conj Hd (conj _
            (declined_max_score id _ _ _ _ _ Hask Hd)))).
  vm_compute; reflexivity.
Defined.

(** ** The answer formatter *)

Section format_facts.

Lemma add_to_group_lookup (m : gmap Z (list Chunk)) (c : Chunk) (p : Z) :
  utils.add_to_group m c !! p
  = if decide (page c = p) then Some (default [] (m !! p) ++ [c])
    else m !! p.
Proof.
  unfold utils.add_to_group. rewrite lookup_alter.
  destruct (decide (page c = p)) as [<-|Hne].
  - destruct (m !! page c) as [g|] eqn:E.
    + by rewrite E.
    + by rewrite lookup_insert_eq.
  - destruct (m !! page c); [done|]. by rewrite lookup_insert_ne.
Qed.

(** After the grouping loop, a page maps to its chunks in arrival order,
    and only pages with a chunk have a group. *)
Lemma group_by_page_lookup (chunks : list Chunk) (p : Z) :
  utils.group_by_page chunks !! p
  = match chunks_on p chunks with
    | [] => None
    | g => Some g
    end.
Proof.
  unfold utils.group_by_page.
  induction chunks as [|c chunks IH] using rev_ind; [done|].
  rewrite foldl_app. cbn [foldl]. rewrite add_to_group_lookup.
  unfold chunks_on in *. rewrite filter_app.
  destruct (decide (page c = p)) as [Hp|Hp].
  - rewrite (filter_cons_True _ c []) by done. rewrite filter_nil.
    rewrite IH. destruct (filter _ chunks) as [|c0 g]; [done|].
    cbn [default from_option id]. done.
  - rewrite (filter_cons_False _ c []) by done. rewrite filter_nil.
    by rewrite app_nil_r.
Qed.

#[local] Instance item_le_total : Total utils.item_le.
Proof. intros x y. unfold utils.item_le. lia. Qed.

#[local] Instance item_le_trans : Transitive utils.item_le.
Proof. intros x y z. unfold utils.item_le. lia. Qed.

Lemma sorted_items_elem (m : gmap Z (list Chunk)) p g :
  (p, g) ∈ utils.sorted_items m <-> m !! p = Some g.
Proof.
  unfold utils.sorted_items. rewrite merge_sort_Permutation.
  apply elem_of_map_to_list.
Qed.

Lemma ascending_distinct (l : list Z) :
  StronglySorted Z.le l -> NoDup l -> StronglySorted Z.lt l.
Proof.
  induction 1 as [|x l Hs IH Hall]; intros Hnd; constructor.
  - apply IH. by apply NoDup_cons in Hnd as [_ ?].
  - apply NoDup_cons in Hnd as [Hx _].
    rewrite Forall_forall in *. intros y Hy.
    assert (x <> y) by (intros ->; done).
    specialize (Hall y Hy). lia.
Qed.

Lemma sorted_items_keys (m : gmap Z (list Chunk)) :
  StronglySorted Z.lt (utils.sorted_items m).*1.
Proof.
  apply ascending_distinct.
  - apply (StronglySorted_fmap fst utils.item_le Z.le); [done|].
    apply (StronglySorted_merge_sort utils.item_le).
  - unfold utils.sorted_items.
    rewrite (merge_sort_Permutation utils.item_le).
    apply NoDup_fst_map_to_list.
Qed.

Lemma sorted_items_blocks (chunks : list Chunk) :
  map utils.answer_part (utils.sorted_items (utils.group_by_page chunks))
  = map (page_block chunks)
        (utils.sorted_items (utils.group_by_page chunks)).*1.
Proof.
  set (items := utils.sorted_items _).
  change (utils.answer_part <$> items
          = page_block chunks <$> (fst <$> items)).
  rewrite <- list_fmap_compose. apply Forall_fmap_ext_1, Forall_forall.
  intros [p g] Hin. apply sorted_items_elem in Hin.
  rewrite group_by_page_lookup in Hin.
  unfold utils.answer_part, page_block. cbn [fst snd compose].
  destruct (chunks_on p chunks); [done|]. by injection Hin as <-.
Qed.

End format_facts.

(** C4: the formatter returns the decline string on an empty sequence;
    otherwise its output is the page blocks, joined by a blank line, of
    the pages that have a chunk, each page once and in ascending order.
    A page block is the texts of the page's chunks, in arrival order,
    joined by a newline and followed by [" (p. <page>)"]. *)
Theorem format_by_page :
  utils.format_retrieved_chunks []
  = "I don't have that in the handbook."
  /\ forall c chunks, exists pages,
       StronglySorted Z.lt pages
       /\ (forall p,
             p ∈ pages <-> exists c', c' ∈ c :: chunks /\ page c' = p)
       /\ utils.format_retrieved_chunks (c :: chunks)
          = Py.join (String Py.LF (String Py.LF ""))
              (map (page_block (c :: chunks)) pages).
Proof.
  split; [reflexivity|]. intros c chunks.
  exists (utils.sorted_items (utils.group_by_page (c :: chunks))).*1.
  split; [apply sorted_items_keys|]. split.
  - intros p. rewrite list_elem_of_fmap. split.
    + intros ([p' g] & -> & Hin). apply sorted_items_elem in Hin.
      rewrite group_by_page_lookup in Hin. cbn [fst].
      destruct (chunks_on p' (c :: chunks)) as [|c' g'] eqn:E; [done|].
      assert (c' ∈ chunks_on p' (c :: chunks)) as Hc by (rewrite E; left).
      apply list_elem_of_filter in Hc as [Hp Hc]. eauto.
    + intros (c' & Hc & Hp).
      assert (c' ∈ chunks_on p (c :: chunks)) as Hin.
      { apply list_elem_of_filter. done. }
      destruct (chunks_on p (c :: chunks)) as [|c0 g] eqn:E.
      { by apply elem_of_nil in Hin. }
      exists (p, c0 :: g). split; [done|].
      apply sorted_items_elem. by rewrite group_by_page_lookup, E.
  - unfold utils.format_retrieved_chunks. by rewrite sorted_items_blocks.
Qed.

(** ** Splitting and joining words *)

Section word_facts.

Lemma append_cons (c : ascii) (s t : string) :
  String c s +:+ t = String c (s +:+ t).
Proof. reflexivity. Qed.

Lemma append_empty_r (s : string) : s +:+ "" = s.
Proof.
  induction s as [|c s IH]; [done|]. by rewrite append_cons, IH.
Qed.

Lemma append_snoc (s t : string) (c : ascii) :
  (s +:+ String c "") +:+ t = s +:+ String c t.
Proof.
  induction s as [|d s IH]; [done|]. by rewrite !append_cons, IH.
Qed.

Lemma forallb_str_append p (s t : string) :
  Py.forallb_str p (s +:+ t) = Py.forallb_str p s && Py.forallb_str p t.
Proof.
  induction s as [|c s IH]; [done|].
  rewrite append_cons. simpl. rewrite IH. by rewrite andb_assoc.
Qed.

Lemma is_empty_append (s : string) (c : ascii) :
  Py.is_empty (s +:+ String c "") = false.
Proof. by destruct s. Qed.

Lemma split_go_words (s cur : string) :
  Py.forallb_str (fun c => negb (Py.is_space c)) cur = true ->
  Forall is_word (Py.split_go cur s).
Proof.
  revert cur. induction s as [|c s IH]; intros cur Hcur; simpl.
  - unfold Py.emit. destruct (Py.is_empty cur) eqn:E; [constructor|].
    repeat constructor; done.
  - destruct (Py.is_space c) eqn:Ec.
    + apply Forall_app. split; [|by apply IH].
      unfold Py.emit. destruct (Py.is_empty cur) eqn:E; [constructor|].
      repeat constructor; done.
    + apply IH. rewrite forallb_str_append, Hcur. simpl. by rewrite Ec.
Qed.

Lemma split_words (s : string) : Forall is_word (Py.split s).
Proof. by apply split_go_words. Qed.

Lemma split_go_word (w cur s : string) :
  Py.forallb_str (fun c => negb (Py.is_space c)) w = true ->
  Py.split_go cur (w +:+ s) = Py.split_go (cur +:+ w) s.
Proof.
  revert cur. induction w as [|c w IH]; intros cur Hw.
  - by rewrite append_empty_r.
  - simpl in Hw. apply andb_true_iff in Hw as [Hc Hw].
    apply negb_true_iff in Hc. rewrite append_cons. simpl.
    rewrite Hc, IH by done. by rewrite append_snoc.
Qed.

(** [" ".join(ws).split() == ws] for a list of words. *)
Lemma split_join (ws : list string) :
  Forall is_word ws -> Py.split (Py.join " " ws) = ws.
Proof.
  unfold Py.split, Py.join.
  induction 1 as [|w ws [Hne Hw] Hws IH]; [done|].
  destruct ws as [|w2 ws].
  - cbn [String.concat]. rewrite <- (append_empty_r w) at 1.
    rewrite split_go_word by done. change ("" +:+ w) with w.
    cbn [Py.split_go]. unfold Py.emit. by rewrite Hne.
  - change (String.concat " " (w :: w2 :: ws))
      with (w +:+ String Py.SP (String.concat " " (w2 :: ws))).
    rewrite split_go_word by done.
    change (Py.split_go ("" +:+ w)
              (String Py.SP (String.concat " " (w2 :: ws))))
      with (Py.emit w ++ Py.split_go "" (String.concat " " (w2 :: ws))).
    rewrite IH. unfold Py.emit. by rewrite Hne.
Qed.

End word_facts.

(** ** The chunker *)

Section chunk_facts.

Lemma slice_from {A} (l : list A) (lo n : Z) :
  (0 <= lo)%Z -> (0 <= n)%Z ->
  Py.slice l lo (lo + n) = take (Z.to_nat n) (drop (Z.to_nat lo) l).
Proof.
  intros Hlo Hn. unfold Py.slice, Py.clamp, Py.len.
  destruct (Z.ltb_spec lo 0) as [?|_]; [lia|].
  destruct (Z.ltb_spec (lo + n) 0) as [?|_]; [lia|].
  destruct (Z.le_gt_cases (Z.of_nat (length l)) lo) as [Hge|Hlt].
  - rewrite (drop_ge l (Z.to_nat lo)) by lia.
    rewrite drop_ge by lia. by rewrite !take_nil.
  - replace (Z.to_nat (0 `max` (Z.of_nat (length l) `min` lo)))
      with (Z.to_nat lo) by lia.
    destruct (Z.le_gt_cases (lo + n) (Z.of_nat (length l))) as [Hin|Hout].
    + f_equal. lia.
    + rewrite !take_ge; [done| |]; rewrite length_drop; lia.
Qed.

Lemma chunk_loop_lookup words page_num size (f : nat -> Z) n a j c :
  utils.chunk_loop words page_num size (map f (seq a n)) !! j = Some c ->
  c = chunk_of page_num (Py.slice words (f (a + j)) (f (a + j) + size))
  /\ config.MIN_CHUNK_SIZE
     <= length (Py.slice words (f (a + j)) (f (a + j) + size)).
Proof.
  revert a j. induction n as [|n IH]; intros a j H; [done|].
  cbn [seq map utils.chunk_loop] in H.
  destruct (Nat.ltb_spec
              (length (Py.slice words (f a) (f a + size)))
              config.MIN_CHUNK_SIZE) as [Hlt|Hge]; [done|].
  destruct j as [|j].
  - injection H as <-. by rewrite Nat.add_0_r.
  - apply IH in H. by replace (a + S j) with (S a + j) by lia.
Qed.

(** The chunks are the windows, in order, each of at least the minimum
    size. *)
Lemma chunk_is_window text page_num size pct chunks j c :
  (0 <= size)%Z -> (1 <= utils.step size pct)%Z ->
  utils.chunk_text_with_overlap text page_num size pct = Py.Ok chunks ->
  chunks !! j = Some c ->
  c = chunk_of page_num
        (window (Py.split text) size (utils.step size pct) j)
  /\ config.MIN_CHUNK_SIZE
     <= length (window (Py.split text) size (utils.step size pct) j).
Proof.
  intros Hsize Hstep Hrun Hj. unfold utils.chunk_text_with_overlap in Hrun.
  destruct (Nat.ltb_spec (length (Py.split text)) config.MIN_CHUNK_SIZE)
    as [_|_]; [by injection Hrun as <-|].
  unfold Py.range in Hrun.
  destruct (Z.eqb_spec (utils.step size pct) 0) as [?|_]; [lia|].
  run_bind. cbn [Py.bind] in Hrun. injection Hrun as <-.
  apply (chunk_loop_lookup _ _ _
           (fun k => (0 + Z.of_nat k * utils.step size pct)%Z)) in Hj.
  cbn [Nat.add] in Hj. rewrite slice_from in Hj by lia.
  unfold window.
  replace (Z.to_nat (0 + Z.of_nat j * utils.step size pct))
    with (j * Z.to_nat (utils.step size pct)) in Hj; [done|].
  rewrite Z.add_0_l, Z2Nat.inj_mul, Nat2Z.id by lia. done.
Qed.

Lemma chunk_text_returns text page_num size pct :
  utils.step size pct <> 0%Z ->
  exists chunks,
    utils.chunk_text_with_overlap text page_num size pct = Py.Ok chunks.
Proof.
  intros Hstep. unfold utils.chunk_text_with_overlap, Py.range.
  destruct (_ <? _); [by eexists|].
  destruct (Z.eqb_spec (utils.step size pct) 0) as [?|_]; [done|].
  by eexists.
Qed.

Lemma window_words text size stride j :
  Forall is_word (window (Py.split text) size stride j).
Proof.
  unfold window. apply Forall_take, Forall_drop, split_words.
Qed.

Lemma words_of_chunk_of page_num text size stride j :
  words_of (chunk_of page_num (window (Py.split text) size stride j))
  = window (Py.split text) size stride j.
Proof. apply split_join, window_words. Qed.

End chunk_facts.

(** A stride of at least one word with an overlap fraction below one
    needs a target of at least one word. *)
Lemma positive_stride_size size pct :
  (pct < 1)%Q -> (1 <= utils.step size pct)%Z -> (1 <= size)%Z.
Proof.
  intros Hpct Hstep.
  destruct (Z.le_gt_cases 1 size) as [?|Hle]; [done|]. exfalso.
  unfold utils.step, utils.overlap_words, Py.int in Hstep.
  destruct pct as [n d]. unfold Qlt in Hpct. simpl in Hpct, Hstep.
  rewrite Pos.mul_1_l in Hstep.
  destruct (Z.le_gt_cases 0 (size * n)) as [Hpos|Hneg].
  - assert (0 <= (size * n) ÷ Z.pos d)%Z by (apply Z.quot_pos; lia). lia.
  - replace (size * n)%Z with (- (- size * n))%Z in Hstep by lia.
    rewrite Z.quot_opp_l in Hstep by lia.
    rewrite Z.quot_div_nonneg in Hstep by lia.
    assert (- size * n / Z.pos d < - size)%Z; [|lia].
    apply Z.div_lt_upper_bound; nia.
Qed.

(** C6: with an overlap fraction below one and a stride of at least one
    word, the chunker returns, and every chunk it returns has between
    [MIN_CHUNK_SIZE] and [chunk_size_words] words; a page with fewer than
    [MIN_CHUNK_SIZE] words gives the empty sequence, not an error. *)
Theorem chunk_size_bounds page_text page_num size pct :
  (pct < 1)%Q -> (1 <= utils.step size pct)%Z ->
  exists chunks,
    utils.chunk_text_with_overlap page_text page_num size pct
    = Py.Ok chunks
    /\ (forall c, c ∈ chunks ->
          config.MIN_CHUNK_SIZE <= word_count c
          /\ (Z.of_nat (word_count c) <= size)%Z
          /\ word_count c = length (words_of c)
          /\ page c = page_num)
    /\ (length (Py.split page_text) < config.MIN_CHUNK_SIZE ->
        chunks = []).
Proof.
  intros Hpct Hstep.
  assert (0 <= size)%Z as Hsize
    by (pose proof (positive_stride_size size pct Hpct Hstep); lia).
  destruct (chunk_text_returns page_text page_num size pct)
    as [chunks Hrun]; [lia|].
  exists chunks. split; [done|]. split.
  - intros c Hc. apply list_elem_of_lookup in Hc as [j Hj].
    destruct (chunk_is_window _ _ _ _ _ _ _ Hsize Hstep Hrun Hj)
      as [-> Hmin].
    rewrite words_of_chunk_of. cbn [word_count page chunk_of].
    split; [done|]. split; [|done].
    unfold window. rewrite length_take. lia.
  - intros Hshort. unfold utils.chunk_text_with_overlap in Hrun.
    destruct (Nat.ltb_spec (length (Py.split page_text))
                config.MIN_CHUNK_SIZE)
      as [_|?]; [by injection Hrun as <-|lia].
Qed.

Lemma chunk_size_bounds_witness :
  (9 # 10 < 1)%Q /\ (1 <= utils.step 100 (9 # 10))%Z
  /\ exists chunks,
       utils.chunk_text_with_overlap demo.hundred_words 1 100 (9 # 10)
       = Py.Ok chunks
       /\ forall c, c ∈ chunks ->
            50 <= word_count c /\ (Z.of_nat (word_count c) <= 100)%Z.
Proof.
  assert (9 # 10 < 1)%Q as H1 by (vm_compute; reflexivity).
  assert (1 <= utils.step 100 (9 # 10))%Z as H2 by (vm_compute; discriminate).
  split; [exact H1|]. split; [exact H2|].
  destruct (chunk_size_bounds demo.hundred_words 1 100 (9 # 10) H1 H2)
    as (chunks & Hrun & Hall & _).
  exists chunks. split; [exact Hrun|].
  intros c Hc. destruct (Hall c Hc) as (Hlo & Hhi & _).
  split; [exact Hlo|exact Hhi].
Defined.

Section overlap_facts.

Lemma int_floor (x : Q) : (0 <= x)%Q -> Py.int x = Qfloor x.
Proof.
  destruct x as [n d]. unfold Qle, Py.int, Qfloor. simpl. intros H.
  apply Z.quot_div_nonneg; lia.
Qed.

Lemma overlap_words_bounds size pct :
  (1 <= size)%Z -> (0 <= pct)%Q -> (pct < 1)%Q ->
  utils.overlap_words size pct = Qfloor (inject_Z size * pct)
  /\ (0 <= utils.overlap_words size pct < size)%Z.
Proof.
  intros Hsize H0 H1. unfold utils.overlap_words.
  assert (0 <= inject_Z size * pct)%Q as Hx.
  { apply Qmult_le_0_compat; [|done]. change 0%Q with (inject_Z 0).
    rewrite <- Zle_Qle. lia. }
  rewrite int_floor by done. split; [done|]. split.
  - rewrite <- (Qfloor_Z 0). by apply Qfloor_resp_le.
  - rewrite Zlt_Qlt. eapply Qle_lt_trans; [apply Qfloor_le|].
    rewrite <- (Qmult_1_r (inject_Z size)) at 2.
    apply Qmult_lt_l; [|done]. change 0%Q with (inject_Z 0).
    rewrite <- Zlt_Qlt. lia.
Qed.

(** A full window and the next one share the last [size - stride] words
    of the first. *)
Lemma window_overlap (words : list string) (size stride : Z) (j : nat) :
  (1 <= stride <= size)%Z ->
  length (window words size stride j) = Z.to_nat size ->
  overlap_exactly (Z.to_nat (size - stride))
    (window words size stride j) (window words size stride (S j)).
Proof.
  intros Hs Hfull. unfold overlap_exactly. rewrite Hfull.
  unfold window in *. rewrite length_take, length_drop in *.
  set (S0 := Z.to_nat size) in *. set (T := Z.to_nat stride) in *.
  assert (T <= S0) by lia. assert (1 <= T) by lia.
  replace (Z.to_nat (size - stride)) with (S0 - T) by lia.
  split; [lia|]. split; [cbn [Nat.mul]; lia|].
  replace (S0 - (S0 - T)) with T by lia.
  rewrite take_take, Nat.min_l by lia.
  replace (S j * T) with (j * T + T) by (cbn [Nat.mul]; lia).
  rewrite <- drop_drop.
  rewrite (take_drop_commute _ (S0 - T) T).
  by replace (T + (S0 - T)) with S0 by lia.
Qed.

(** A window that follows a short one is its tail. *)
Lemma window_tail (words : list string) (size stride : Z) (j : nat) :
  (1 <= stride <= size)%Z ->
  length (window words size stride j) < Z.to_nat size ->
  window words size stride (S j)
  = drop (Z.to_nat stride) (window words size stride j)
  /\ length (window words size stride (S j))
     = length (window words size stride j) - Z.to_nat stride.
Proof.
  intros Hs Hshort. unfold window in *.
  rewrite length_take, length_drop in *.
  set (S0 := Z.to_nat size) in *. set (T := Z.to_nat stride) in *.
  assert (T <= S0) by lia.
  replace (S j * T) with (j * T + T) by (cbn [Nat.mul]; lia).
  rewrite <- drop_drop.
  rewrite (take_ge (drop (j * T) words)) by (rewrite length_drop; lia).
  rewrite take_ge by (rewrite !length_drop; lia).
  split; [done|]. rewrite length_drop. lia.
Qed.

End overlap_facts.

(** C5, as the code has it: [overlap_words] is the floor of
    [chunk_size_words * overlap_pct]; a chunk of full size and its
    successor overlap by exactly [overlap_words] words; the successor of a
    shorter chunk is the tail of that chunk and overlaps it by fewer
    words. When [2 * overlap_words <= chunk_size_words + MIN_CHUNK_SIZE],
    every chunk but possibly the final one overlaps its predecessor by
    exactly [overlap_words] words. *)
Theorem overlap_of_consecutive_chunks text page_num size pct :
  (1 <= size)%Z -> (0 <= pct)%Q -> (pct < 1)%Q ->
  utils.overlap_words size pct = Qfloor (inject_Z size * pct)
  /\ exists chunks,
      utils.chunk_text_with_overlap text page_num size pct = Py.Ok chunks
      /\ forall j c1 c2,
          chunks !! j = Some c1 -> chunks !! S j = Some c2 ->
          (Z.of_nat (word_count c1) = size ->
           overlap_exactly (Z.to_nat (utils.overlap_words size pct))
             (words_of c1) (words_of c2))
          /\ ((Z.of_nat (word_count c1) < size)%Z ->
              words_of c2
              = drop (Z.to_nat (utils.step size pct)) (words_of c1)
              /\ length (words_of c2)
                 < Z.to_nat (utils.overlap_words size pct))
          /\ ((2 * utils.overlap_words size pct
               <= size + Z.of_nat config.MIN_CHUNK_SIZE)%Z ->
              S (S j) < length chunks ->
              overlap_exactly (Z.to_nat (utils.overlap_words size pct))
                (words_of c1) (words_of c2)).
Proof.
  intros Hsize H0 H1.
  destruct (overlap_words_bounds size pct Hsize H0 H1) as [Hfloor Hov].
  split; [exact Hfloor|].
  assert (1 <= utils.step size pct <= size)%Z as Hstep
    by (unfold utils.step; lia).
  destruct (chunk_text_returns text page_num size pct) as [chunks Hrun];
    [lia|].
  exists chunks. split; [exact Hrun|].
  intros j c1 c2 Hj1 Hj2.
  assert (0 <= size)%Z as Hsize0 by lia.
  destruct (chunk_is_window _ _ _ _ _ _ _ Hsize0 (proj1 Hstep) Hrun Hj1)
    as [-> Hmin1].
  destruct (chunk_is_window _ _ _ _ _ _ _ Hsize0 (proj1 Hstep) Hrun Hj2)
    as [-> Hmin2].
  rewrite !words_of_chunk_of. cbn [word_count chunk_of].
  set (w1 := window _ _ _ j) in *. set (w2 := window _ _ _ (S j)) in *.
  assert (utils.overlap_words size pct = size - utils.step size pct)%Z
    as Eov by (unfold utils.step; lia).
  assert (length w1 = Z.to_nat size ->
          overlap_exactly (Z.to_nat (utils.overlap_words size pct)) w1 w2)
    as Hfull.
  { intros Hlen. rewrite Eov. by apply window_overlap. }
  split; [intros Hlen; apply Hfull; lia|]. split.
  - intros Hshort.
    destruct (window_tail (Py.split text) size (utils.step size pct) j)
      as [Htail Hlen]; [done|fold w1; lia|].
    fold w1 w2 in Htail, Hlen. split; [done|].
    unfold config.MIN_CHUNK_SIZE in *. lia.
  - intros Hsmall Hnext. apply Hfull.
    destruct (lookup_lt_is_Some_2 chunks (S (S j)) Hnext) as [c3 Hj3].
    destruct (chunk_is_window _ _ _ _ _ _ _ Hsize0 (proj1 Hstep) Hrun Hj3)
      as [_ Hmin3].
    unfold w1, window in *. rewrite length_take, length_drop in *.
    cbn [Nat.mul] in Hmin3. unfold config.MIN_CHUNK_SIZE in *. lia.
Qed.

Lemma overlap_of_consecutive_chunks_witness :
  (1 <= 100)%Z /\ (0 <= 9 # 10)%Q /\ (9 # 10 < 1)%Q
  /\ utils.overlap_words 100 (9 # 10) = 90%Z
  /\ exists c1 c2,
       demo.hundred_chunks !! 0 = Some c1
       /\ demo.hundred_chunks !! 1 = Some c2
       /\ overlap_exactly 90 (words_of c1) (words_of c2).
Proof.
  assert (1 <= 100)%Z as H1 by lia.
  assert (0 <= 9 # 10)%Q as H2 by (vm_compute; discriminate).
  assert (9 # 10 < 1)%Q as H3 by (vm_compute; reflexivity).
  destruct (overlap_of_consecutive_chunks demo.hundred_words 1 100 (9 # 10)
              H1 H2 H3)
    as (_ & chunks & Hrun & Hall).
  assert (utils.chunk_text_with_overlap demo.hundred_words 1 100 (9 # 10)
          = Py.Ok demo.hundred_chunks) as Hrun' by (vm_compute; reflexivity).
  rewrite Hrun' in Hrun. injection Hrun as <-.
  refine (conj H1 (conj H2 (conj H3 (conj _ _)))).
  - vm_compute; reflexivity.
  - destruct (demo.hundred_chunks !! 0) as [c1|] eqn:E1; [|discriminate E1].
    destruct (demo.hundred_chunks !! 1) as [c2|] eqn:E2; [|discriminate E2].
    exists c1, c2. split; [reflexivity|]. split; [reflexivity|].
    destruct (Hall 0 c1 c2 E1 E2) as [Hfull _].
    apply Hfull. injection E1 as <-. vm_compute; reflexivity.
Defined.

(** C5 fails as stated: with windows of 100 words overlapping by 90 on a
    page of 100 words, the chunks have 100, 90, 80, 70, 60 and 50 words;
    the third one is not the final chunk and has only 80 words to share
    with the second. *)
Lemma overlap_everywhere_fails :
  (9 # 10 < 1)%Q
  /\ utils.chunk_text_with_overlap demo.hundred_words 1 100 (9 # 10)
     = Py.Ok demo.hundred_chunks
  /\ map word_count demo.hundred_chunks = [100; 90; 80; 70; 60; 50]
  /\ ~ overlap_everywhere demo.hundred_words 1 100 (9 # 10).
Proof.
  assert (utils.chunk_text_with_overlap demo.hundred_words 1 100 (9 # 10)
          = Py.Ok demo.hundred_chunks) as Hrun by (vm_compute; reflexivity).
  split; [reflexivity|]. split; [exact Hrun|].
  split; [vm_compute; reflexivity|].
  intros [_ H].
  destruct (demo.hundred_chunks !! 1) as [c1|] eqn:E1; [|discriminate E1].
  destruct (demo.hundred_chunks !! 2) as [c2|] eqn:E2; [|discriminate E2].
  specialize (H demo.hundred_chunks 1 c1 c2 Hrun E1 E2).
  destruct H as (_ & Hlen & _).
  - vm_compute. lia.
  - injection E2 as <-. vm_compute in Hlen. lia.
Qed.

(** ** The section hint *)

Section hint_facts.

Ltac all_chars c :=
  destruct c as [[|] [|] [|] [|] [|] [|] [|] [|]]; try discriminate;
  try reflexivity.

Lemma space_not_digit c : Py.is_space c = true -> Py.is_digit c = false.
Proof. all_chars c. Qed.

Lemma upper_not_space c : Py.is_ascii_upper c = true -> Py.is_space c = false.
Proof. all_chars c. Qed.

Lemma optional_period_space c r :
  Py.is_space c = true ->
  utils.optional_period (String c r) = String c r.
Proof. all_chars c. Qed.

Lemma optional_period_other c r :
  c <> "."%char -> utils.optional_period (String c r) = String c r.
Proof. intros H. all_chars c. done. Qed.

Lemma span p (s : string) : s = take_while p s +:+ Py.drop_while p s.
Proof.
  induction s as [|c s IH]; [done|]. simpl. destruct (p c); [|done].
  rewrite append_cons. by rewrite <- IH.
Qed.

Lemma take_while_all p (s : string) :
  Py.forallb_str p (take_while p s) = true.
Proof.
  induction s as [|c s IH]; [done|]. simpl.
  destruct (p c) eqn:E; [|done]. simpl. by rewrite E.
Qed.

Lemma drop_while_append p (pre c_rest : string) :
  Py.forallb_str p pre = true ->
  match c_rest with
  | EmptyString => True
  | String c _ => p c = false
  end ->
  Py.drop_while p (pre +:+ c_rest) = c_rest.
Proof.
  intros Hpre Hrest. induction pre as [|d pre IH].
  - destruct c_rest as [|c r]; [done|]. simpl.
    change ("" +:+ String c r) with (String c r). simpl. by rewrite Hrest.
  - simpl in Hpre. apply andb_true_iff in Hpre as [Hd Hpre].
    rewrite append_cons. simpl. rewrite Hd. by apply IH.
Qed.

Lemma numbered_heading_iff (line : string) :
  utils.numbered_heading line = true <-> numbered_line line.
Proof.
  split.
  - destruct line as [|c0 s0]; [done|].
    unfold utils.numbered_heading. intros H.
    apply andb_true_iff in H as [Hc0 H].
    set (s := String c0 s0) in *.
    pose proof (span Py.is_digit s) as Hs.
    pose proof (take_while_all Py.is_digit s) as Hds.
    set (ds := take_while Py.is_digit s) in *.
    set (r1 := Py.drop_while Py.is_digit s) in *.
    assert (ds <> "") as Hne.
    { unfold ds, s. simpl. by rewrite Hc0. }
    assert (exists dot, r1 = dot +:+ utils.optional_period r1
                        /\ (dot = "" \/ dot = ".")) as (dot & Hr1 & Hdot).
    { destruct r1 as [|a r]; [exists ""; auto|].
      destruct (ascii_dec a ".") as [->|Ha].
      - exists ".". auto.
      - exists "". rewrite optional_period_other by done. auto. }
    set (r2 := utils.optional_period r1) in *.
    destruct r2 as [|c2 r2'] eqn:Er2; [done|].
    apply andb_true_iff in H as [Hc2 H].
    pose proof (span Py.is_space (String c2 r2')) as Hs2.
    pose proof (take_while_all Py.is_space (String c2 r2')) as Hws.
    set (ws := take_while Py.is_space (String c2 r2')) in *.
    destruct (Py.drop_while Py.is_space (String c2 r2')) as [|c3 rest];
      [done|].
    exists ds, dot, ws, c3, rest.
    split; [by rewrite Hs, Hr1, Hs2 at 1|].
    split; [done|]. split; [done|]. split; [done|].
    split; [|done]. unfold ws. simpl. by rewrite Hc2.
  - intros (ds & dot & ws & c & rest & -> & Hne & Hds & Hdot & Hwne & Hws & Hc).
    destruct ds as [|d ds]; [done|]. destruct ws as [|w ws]; [done|].
    simpl in Hds, Hws. apply andb_true_iff in Hds as [Hd Hds].
    apply andb_true_iff in Hws as [Hw Hws].
    assert (Py.drop_while Py.is_digit
              (String d ds +:+ dot +:+ String w ws +:+ String c rest)
            = dot +:+ String w ws +:+ String c rest) as Hr1.
    { apply drop_while_append; [simpl; by rewrite Hd, Hds|].
      destruct Hdot as [-> | ->].
      - change ("" +:+ String w ws +:+ String c rest)
          with (String w (ws +:+ String c rest)).
        by apply space_not_digit.
      - reflexivity. }
    assert (utils.optional_period
              (dot +:+ String w ws +:+ String c rest)
            = String w (ws +:+ String c rest)) as Hr2.
    { destruct Hdot as [-> | ->]; [|reflexivity].
      change ("" +:+ String w ws +:+ String c rest)
        with (String w (ws +:+ String c rest)).
      by apply optional_period_space. }
    unfold utils.numbered_heading. rewrite append_cons, Hd.
    rewrite <- append_cons, Hr1, Hr2, Hw.
    rewrite <- append_cons, drop_while_append.
    + done.
    + simpl. by rewrite Hw, Hws.
    + by apply upper_not_space.
Qed.

Lemma heading_like_iff (line : string) :
  utils.heading_like line = true <-> heading line.
Proof.
  unfold utils.heading_like, heading.
  rewrite !andb_true_iff, orb_true_iff, numbered_heading_iff.
  rewrite !Nat.ltb_lt. split; intros H; (split; [lia|tauto]).
Qed.

Lemma first_heading_found (lines : list string) i l :
  lines !! i = Some l -> heading (Py.strip l) ->
  (forall i' l', i' < i -> lines !! i' = Some l' ->
                 ~ heading (Py.strip l')) ->
  utils.first_heading lines = Some (Py.strip l).
Proof.
  revert i. induction lines as [|l0 lines IH]; intros i Hi Hl Hbefore;
    [done|].
  simpl. destruct i as [|i].
  - injection Hi as ->. apply heading_like_iff in Hl. by rewrite Hl.
  - destruct (utils.heading_like (Py.strip l0)) eqn:E.
    + apply heading_like_iff in E. exfalso.
      apply (Hbefore 0 l0); [lia|done|done].
    + apply (IH i); [done|done|].
      intros i' l' Hlt Hi'. apply (Hbefore (S i') l'); [lia|done].
Qed.

Lemma first_heading_none (lines : list string) :
  (forall l, l ∈ lines -> ~ heading (Py.strip l)) ->
  utils.first_heading lines = None.
Proof.
  induction lines as [|l0 lines IH]; intros H; [done|]. simpl.
  destruct (utils.heading_like (Py.strip l0)) eqn:E.
  - apply heading_like_iff in E. exfalso. apply (H l0); [left|done].
  - apply IH. intros l Hl. apply H. by right.
Qed.

End hint_facts.

(** The section of a chunk is the hint of its text. *)
Lemma chunk_section page_text page_num size pct chunks c :
  (0 <= size)%Z -> (1 <= utils.step size pct)%Z ->
  utils.chunk_text_with_overlap page_text page_num size pct
  = Py.Ok chunks ->
  c ∈ chunks ->
  section c = utils.extract_section_hint (text c).
Proof.
  intros Hsize Hstep Hrun Hc. apply list_elem_of_lookup in Hc as [j Hj].
  by destruct (chunk_is_window _ _ _ _ _ _ _ Hsize Hstep Hrun Hj) as [-> _].
Qed.

(** C7, as the code has it: among the first three lines of the text,
    each stripped of surrounding white space, the hint is the first one
    that has 6 to 99 characters and is upper-case or starts with digits,
    an optional period, white space and a capital letter; when there is
    none, it is the first 50 characters of the text with newlines
    replaced by spaces, stripped, followed by ["..."]. *)
Theorem section_hint_spec (text : string) :
  let lines := take 3 (Py.split_on Py.LF text) in
  (forall i l,
     lines !! i = Some l -> heading (Py.strip l) ->
     (forall i' l', i' < i -> lines !! i' = Some l' ->
                    ~ heading (Py.strip l')) ->
     utils.extract_section_hint text = Py.strip l)
  /\ ((forall l, l ∈ lines -> ~ heading (Py.strip l)) ->
      utils.extract_section_hint text
      = Py.strip (Py.replace Py.LF Py.SP (Py.prefix 50 text)) +:+ "...").
Proof.
  intros lines. unfold utils.extract_section_hint. fold lines. split.
  - intros i l Hi Hl Hbefore.
    by rewrite (first_heading_found lines i l Hi Hl Hbefore).
  - intros Hnone. by rewrite (first_heading_none lines Hnone).
Qed.

Lemma section_hint_spec_witness :
  heading (Py.strip "3. Report Format")
  /\ utils.extract_section_hint
       ("3. Report Format" +:+ String Py.LF "Margins are one inch.")
     = "3. Report Format".
Proof.
  assert (heading (Py.strip "3. Report Format")) as Hh
    by (apply heading_like_iff; vm_compute; reflexivity).
  split; [exact Hh|].
  destruct (section_hint_spec
              ("3. Report Format" +:+ String Py.LF "Margins are one inch."))
    as [Hfound _].
  apply (Hfound 0 "3. Report Format"); [reflexivity|exact Hh|].
  intros i' l' Hlt. lia.
Defined.

(** C7 fails as stated: a chunk that starts with a number and a capital
    letter but has no period is taken for a heading. *)
Lemma section_hint_without_period :
  (exists c,
     utils.chunk_text_with_overlap demo.numbered_page 1
       config.CHUNK_SIZE_WORDS config.OVERLAP_PERCENTAGE
     = Py.Ok [c]
     /\ text c = demo.numbered_page
     /\ section c = demo.numbered_page)
  /\ utils.extract_section_hint demo.numbered_page = demo.numbered_page
  /\ spec_section_hint demo.numbered_page
     = Py.prefix 49 demo.numbered_page +:+ "..."
  /\ spec_section_hint demo.numbered_page
     <> utils.extract_section_hint demo.numbered_page.
Proof.
  split.
  { eexists. split; [vm_compute; reflexivity|].
    split; vm_compute; reflexivity. }
  split; [vm_compute; reflexivity|].
  split; [vm_compute; reflexivity|].
  intros H. vm_compute in H. discriminate H.
Qed.

(** ** Chunk ids *)

Section id_facts.

Lemma add_page_chunks_spec (acc : list Chunk) (n : nat) (cs : list Chunk) :
  ingest.add_page_chunks (acc, n) cs
  = (acc ++ numbered_from n cs, n + length cs).
Proof.
  unfold ingest.add_page_chunks, numbered_from.
  revert acc n. induction cs as [|c cs IH]; intros acc n.
  - simpl. by rewrite app_nil_r, Nat.add_0_r.
  - cbn [foldl fst snd]. rewrite IH. rewrite imap_cons.
    rewrite <- app_assoc. cbn [app length]. f_equal.
    + f_equal. rewrite Nat.add_0_r. f_equal.
      apply imap_ext. intros i x _. simpl. f_equal. lia.
    + lia.
Qed.

Lemma numbered_from_app n cs1 cs2 :
  numbered_from n (cs1 ++ cs2)
  = numbered_from n cs1 ++ numbered_from (n + length cs1) cs2.
Proof.
  unfold numbered_from. rewrite imap_app. f_equal.
  apply imap_ext. intros i x _. simpl. f_equal. lia.
Qed.

Lemma chunk_pages_spec page_texts pages acc n st :
  ingest.chunk_pages page_texts pages (acc, n) = Py.Ok st ->
  exists per_page,
    Forall2 (page_chunks_of page_texts) pages per_page
    /\ st = (acc ++ numbered_from n (concat per_page),
             n + length (concat per_page)).
Proof.
  revert acc n. induction pages as [|p pages IH]; intros acc n H.
  - injection H as <-. exists []. split; [constructor|].
    unfold numbered_from. simpl. by rewrite app_nil_r, Nat.add_0_r.
  - cbn [ingest.chunk_pages] in H.
    apply bind_Ok in H as (page_text & Ht & H).
    apply bind_Ok in H as (cs & Hcs & H).
    rewrite add_page_chunks_spec in H.
    apply IH in H as (per_page & Hall & ->).
    exists (cs :: per_page). split.
    + constructor; [|done]. exists page_text. split; [|done].
      by destruct (page_texts !! p) as [t|]; [injection Ht as ->|].
    + cbn [concat]. rewrite numbered_from_app, length_app.
      rewrite <- app_assoc. f_equal. lia.
Qed.

Lemma sorted_keys_spec (page_texts : gmap Z string) :
  StronglySorted Z.lt (ingest.sorted_keys page_texts)
  /\ forall p, p ∈ ingest.sorted_keys page_texts
               <-> is_Some (page_texts !! p).
Proof.
  unfold ingest.sorted_keys. split.
  - apply ascending_distinct.
    + apply (StronglySorted_merge_sort Z.le).
    + rewrite (merge_sort_Permutation Z.le). apply NoDup_fst_map_to_list.
  - intros p. rewrite (merge_sort_Permutation Z.le).
    rewrite list_elem_of_fmap. split.
    + intros ([p' t] & -> & Hin). apply elem_of_map_to_list in Hin. eauto.
    + intros [t Ht]. exists (p, t). split; [done|].
      by apply elem_of_map_to_list.
Qed.

(** The chunker cannot raise with the configured sizes. *)
Lemma configured_chunker_returns page_text p :
  exists chunks,
    utils.chunk_text_with_overlap page_text p
      config.CHUNK_SIZE_WORDS config.OVERLAP_PERCENTAGE
    = Py.Ok chunks.
Proof. apply chunk_text_returns. vm_compute. discriminate. Qed.

(** [create_chunks] raises only through the division in its summary,
    when it has made no chunk. *)
Lemma create_chunks_outcome page_texts :
  (exists all_chunks, ingest.create_chunks page_texts = Py.Ok all_chunks)
  \/ ingest.create_chunks page_texts = Py.Raise Py.ZeroDivisionError.
Proof.
  unfold ingest.create_chunks.
  assert (forall pages st,
            (forall p, p ∈ pages -> is_Some (page_texts !! p)) ->
            exists st', ingest.chunk_pages page_texts pages st = Py.Ok st')
    as Hloop.
  { induction pages as [|p pages IH]; intros st Hin; [by eexists|].
    cbn [ingest.chunk_pages].
    destruct (Hin p) as [t Ht]; [left|]. rewrite Ht. run_bind.
    destruct (configured_chunker_returns t p) as [cs Hcs].
    rewrite Hcs. run_bind. apply IH. intros q Hq. apply Hin. by right. }
  destruct (Hloop (ingest.sorted_keys page_texts) ([], 0)) as [st Hst].
  { intros p. apply sorted_keys_spec. }
  rewrite Hst. run_bind. destruct st.1; eauto.
Qed.

End id_facts.

(** C8: the chunks [create_chunks] returns are the chunks of the pages,
    page after page in ascending page order and in the chunker's order
    within a page, each carrying its position in the sequence as its id:
    the ids start at 0 and increase by one. *)
Theorem chunk_ids_are_positions page_texts all_chunks :
  ingest.create_chunks page_texts = Py.Ok all_chunks ->
  (forall i c, all_chunks !! i = Some c -> chunk_id c = Some i)
  /\ (forall i j ci cj,
        all_chunks !! i = Some ci -> all_chunks !! j = Some cj -> i < j ->
        exists a b, chunk_id ci = Some a /\ chunk_id cj = Some b /\ a < b)
  /\ exists pages per_page,
       StronglySorted Z.lt pages
       /\ (forall p, p ∈ pages <-> is_Some (page_texts !! p))
       /\ Forall2 (page_chunks_of page_texts) pages per_page
       /\ all_chunks = numbered_from 0 (concat per_page).
Proof.
  intros H. unfold ingest.create_chunks in H.
  apply bind_Ok in H as (st & Hst & H).
  apply chunk_pages_spec in Hst as (per_page & Hall & ->).
  cbn [fst app Nat.add] in H.
  assert (all_chunks = numbered_from 0 (concat per_page)) as ->.
  { destruct (numbered_from 0 (concat per_page)); [done|].
    by injection H as <-. }
  assert (forall i c,
            numbered_from 0 (concat per_page) !! i = Some c ->
            chunk_id c = Some i) as Hid.
  { intros i c Hi. unfold numbered_from in Hi.
    rewrite list_lookup_imap in Hi.
    destruct (concat per_page !! i); [|done]. by injection Hi as <-. }
  split; [exact Hid|]. split.
  - intros i j ci cj Hi Hj Hlt. exists i, j. auto.
  - exists (ingest.sorted_keys page_texts), per_page.
    destruct (sorted_keys_spec page_texts) as [Hsorted Hkeys]. auto.
Qed.

Lemma chunk_ids_are_positions_witness :
  ingest.create_chunks demo.three_pages = Py.Ok demo.three_pages_chunks
  /\ map page demo.three_pages_chunks = [1; 3; 3; 3]%Z
  /\ map word_count demo.three_pages_chunks = [50; 350; 350; 110]
  /\ forall i c, demo.three_pages_chunks !! i = Some c -> chunk_id c = Some i.
Proof.
  assert (ingest.create_chunks demo.three_pages
          = Py.Ok demo.three_pages_chunks) as H by (vm_compute; reflexivity).
  split; [exact H|]. split; [vm_compute; reflexivity|].
  split; [vm_compute; reflexivity|].
  exact (proj1 (chunk_ids_are_positions _ _ H)).
Defined.

(** ** Further properties *)



(** When no page has enough words for a chunk, [create_chunks] does not
    return the empty sequence: its summary divides by zero. *)
Theorem create_chunks_without_chunks page_texts :
  (forall p page_text,
     page_texts !! p = Some page_text ->
     length (Py.split page_text) < config.MIN_CHUNK_SIZE) ->
  ingest.create_chunks page_texts = Py.Raise Py.ZeroDivisionError.
Proof.
  intros Hshort.
  destruct (create_chunks_outcome page_texts) as [[all_chunks H]|H];
    [exfalso|done].
  unfold ingest.create_chunks in H.
  apply bind_Ok in H as (st & Hst & H).
  apply chunk_pages_spec in Hst as (per_page & Hall & ->).
  cbn [fst app Nat.add] in H.
  assert (concat per_page = []) as E.
  { clear H. induction Hall as [|p cs pages per_page Hp _ IH]; [done|].
    cbn [concat]. rewrite IH, app_nil_r.
    destruct Hp as (page_text & Ht & Hcs).
    unfold utils.chunk_text_with_overlap in Hcs.
    destruct (Nat.ltb_spec (length (Py.split page_text))
                config.MIN_CHUNK_SIZE) as [_|Hge].
    - by injection Hcs as <-.
    - specialize (Hshort p page_text Ht). lia. }
  rewrite E in H. discriminate H.
Qed.

Lemma create_chunks_without_chunks_witness :
  ingest.create_chunks demo.short_handbook = Py.Raise Py.ZeroDivisionError.
Proof.
  apply create_chunks_without_chunks. intros p page_text H.
  destruct (decide (p = 1%Z)) as [->|Hne].
  - injection H as <-. vm_compute. lia.
  - unfold demo.short_handbook in H.
    rewrite lookup_singleton_ne in H by done. discriminate H.
Defined.

(** The pages of an answer are the pages of its sources, each once, in
    ascending order. *)
Theorem unique_pages_sorted (chunks : list Chunk) :
  StronglySorted Z.lt (utils.get_unique_pages chunks)
  /\ forall p, p ∈ utils.get_unique_pages chunks
               <-> exists c, c ∈ chunks /\ page c = p.
Proof.
  unfold utils.get_unique_pages. split.
  - apply ascending_distinct.
    + apply (StronglySorted_merge_sort Z.le).
    + rewrite (merge_sort_Permutation Z.le). apply NoDup_elements.
  - intros p. rewrite (merge_sort_Permutation Z.le).
    rewrite elem_of_elements, elem_of_list_to_set, list_elem_of_fmap.
    split; intros (c & Hc & Hp); eauto.
Qed.

(** ** More on the chunker *)

Section chunker_more.

Lemma chunk_loop_exists words page_num size (f : nat -> Z) n a j :
  j < n ->
  (forall j', j' <= j ->
     config.MIN_CHUNK_SIZE
     <= length (Py.slice words (f (a + j')) (f (a + j') + size))) ->
  is_Some (utils.chunk_loop words page_num size (map f (seq a n)) !! j).
Proof.
  revert a j. induction n as [|n IH]; intros a j Hj Hall; [lia|].
  cbn [seq map utils.chunk_loop].
  pose proof (Hall 0 ltac:(lia)) as H0. rewrite Nat.add_0_r in H0.
  destruct (Nat.ltb_spec
              (length (Py.slice words (f a) (f a + size)))
              config.MIN_CHUNK_SIZE) as [Hlt|_]; [lia|].
  destruct j as [|j]; [by eexists|].
  cbn [lookup list_lookup]. apply IH; [lia|].
  intros j' Hj'. replace (S a + j') with (a + S j') by lia.
  apply Hall. lia.
Qed.

Lemma length_window words size stride j :
  length (window words size stride j)
  = Nat.min (Z.to_nat size) (length words - j * Z.to_nat stride).
Proof. unfold window. by rewrite length_take, length_drop. Qed.

(** Chunk [j] exists exactly when window [j] has enough words. *)
Lemma chunk_lookup_iff page_text page_num size pct chunks j :
  (0 <= size)%Z -> (1 <= utils.step size pct)%Z ->
  utils.chunk_text_with_overlap page_text page_num size pct
  = Py.Ok chunks ->
  is_Some (chunks !! j)
  <-> config.MIN_CHUNK_SIZE
      <= length (window (Py.split page_text) size (utils.step size pct) j).
Proof.
  intros Hsize Hstep Hrun. split.
  - intros [c Hc].
    by destruct (chunk_is_window _ _ _ _ _ _ _ Hsize Hstep Hrun Hc).
  - intros Hwin. rewrite length_window in Hwin.
    unfold config.MIN_CHUNK_SIZE in Hwin.
    unfold utils.chunk_text_with_overlap in Hrun.
    destruct (Nat.ltb_spec (length (Py.split page_text))
                config.MIN_CHUNK_SIZE) as [Hshort|_].
    { unfold config.MIN_CHUNK_SIZE in Hshort. lia. }
    unfold Py.range in Hrun.
    destruct (Z.eqb_spec (utils.step size pct) 0) as [?|_]; [lia|].
    destruct (Z.ltb_spec 0 (utils.step size pct)) as [_|?]; [|lia].
    run_bind. cbn [Py.bind] in Hrun. injection Hrun as <-.
    set (T := utils.step size pct) in *.
    set (L := length (Py.split page_text)) in *.
    assert (j * Z.to_nat T < L) as HjL by lia.
    apply chunk_loop_exists.
    + unfold Py.len. fold L.
      assert (Z.of_nat j + 1 <= (Z.of_nat L - 0 + T - 1) / T)%Z; [|lia].
      apply Z.div_le_lower_bound; [lia|]. nia.
    + intros j' Hj'. cbn [Nat.add]. rewrite slice_from by lia.
      rewrite length_take, length_drop. fold L.
      replace (Z.to_nat (0 + Z.of_nat j' * T)) with (j' * Z.to_nat T)
        by (rewrite Z.add_0_l, Z2Nat.inj_mul, Nat2Z.id by lia; done).
      unfold config.MIN_CHUNK_SIZE. nia.
Qed.

End chunker_more.

(** Chunk [j] holds the words [words[j*step : j*step + size]] of its
    page, joined by single spaces. *)
Theorem chunk_words_window page_text page_num size pct chunks j c :
  (pct < 1)%Q -> (1 <= utils.step size pct)%Z ->
  utils.chunk_text_with_overlap page_text page_num size pct
  = Py.Ok chunks ->
  chunks !! j = Some c ->
  words_of c
  = take (Z.to_nat size)
         (drop (j * Z.to_nat (utils.step size pct)) (Py.split page_text))
  /\ text c = Py.join " " (words_of c)
  /\ page c = page_num /\ chunk_id c = None /\ score c = None.
Proof.
  intros Hpct Hstep Hrun Hj.
  assert (0 <= size)%Z as Hsize
    by (pose proof (positive_stride_size size pct Hpct Hstep); lia).
  destruct (chunk_is_window _ _ _ _ _ _ _ Hsize Hstep Hrun Hj) as [-> _].
  rewrite words_of_chunk_of. by unfold window.
Qed.

Lemma chunk_words_window_witness :
  (9 # 10 < 1)%Q /\ (1 <= utils.step 100 (9 # 10))%Z
  /\ exists c,
       demo.hundred_chunks !! 2 = Some c
       /\ words_of c = take 100 (drop 20 (Py.split demo.hundred_words)).
Proof.
  assert (9 # 10 < 1)%Q as H1 by (vm_compute; reflexivity).
  assert (1 <= utils.step 100 (9 # 10))%Z as H2 by (vm_compute; discriminate).
  assert (utils.chunk_text_with_overlap demo.hundred_words 1 100 (9 # 10)
          = Py.Ok demo.hundred_chunks) as Hrun by (vm_compute; reflexivity).
  split; [exact H1|]. split; [exact H2|].
  destruct (demo.hundred_chunks !! 2) as [c|] eqn:E; [|discriminate E].
  exists c. split; [reflexivity|].
  exact (proj1 (chunk_words_window _ _ _ _ _ 2 c H1 H2 Hrun E)).
Defined.

(** The number of chunks of a page of [L] words: none when the page or
    the target is below the minimum, otherwise one for every multiple of
    the stride that leaves at least [MIN_CHUNK_SIZE] words. *)
Theorem chunk_count page_text page_num size pct chunks :
  (pct < 1)%Q -> (1 <= utils.step size pct)%Z ->
  utils.chunk_text_with_overlap page_text page_num size pct
  = Py.Ok chunks ->
  length chunks
  = if (length (Py.split page_text) <? config.MIN_CHUNK_SIZE)
       || (Z.to_nat size <? config.MIN_CHUNK_SIZE)
    then 0
    else (length (Py.split page_text) - config.MIN_CHUNK_SIZE)
         / Z.to_nat (utils.step size pct) + 1.
Proof.
  intros Hpct Hstep Hrun.
  assert (0 <= size)%Z as Hsize
    by (pose proof (positive_stride_size size pct Hpct Hstep); lia).
  assert (forall j, j < length chunks
                    <-> config.MIN_CHUNK_SIZE
                        <= Nat.min (Z.to_nat size)
                             (length (Py.split page_text)
                              - j * Z.to_nat (utils.step size pct))) as Hlt.
  { intros j. rewrite <- length_window, <- lookup_lt_is_Some.
    by apply (chunk_lookup_iff page_text page_num size pct). }
  set (L := length (Py.split page_text)) in *.
  set (T := Z.to_nat (utils.step size pct)) in *.
  set (S0 := Z.to_nat size) in *. set (n := length chunks) in *.
  assert (1 <= T) as HT by lia.
  unfold config.MIN_CHUNK_SIZE in *.
  destruct (Nat.ltb_spec L 50) as [HL|HL];
    [|destruct (Nat.ltb_spec S0 50) as [HS|HS]]; cbn [orb].
  - destruct n; [done|]. pose proof (proj1 (Hlt 0) ltac:(lia)). lia.
  - destruct n; [done|]. pose proof (proj1 (Hlt 0) ltac:(lia)). lia.
  - pose proof (Nat.Div0.mul_div_le (L - 50) T) as Hq1.
    pose proof (Nat.mul_succ_div_gt (L - 50) T ltac:(lia)) as Hq2.
    set (q := (L - 50) / T) in *.
    assert (q < n) as H1 by (apply Hlt; nia).
    assert (~ n < n) as H2 by lia. rewrite Hlt in H2.
    assert (n - 1 < n) as H3 by lia. apply Hlt in H3. nia.
Qed.

Lemma chunk_count_witness :
  (config.OVERLAP_PERCENTAGE < 1)%Q
  /\ (1 <= utils.step config.CHUNK_SIZE_WORDS config.OVERLAP_PERCENTAGE)%Z
  /\ exists chunks,
       utils.chunk_text_with_overlap demo.long_page 3
         config.CHUNK_SIZE_WORDS config.OVERLAP_PERCENTAGE
       = Py.Ok chunks
       /\ length chunks = 3.
Proof.
  assert (config.OVERLAP_PERCENTAGE < 1)%Q as H1 by (vm_compute; reflexivity).
  assert (1 <= utils.step config.CHUNK_SIZE_WORDS
                 config.OVERLAP_PERCENTAGE)%Z as H2
    by (vm_compute; discriminate).
  split; [exact H1|]. split; [exact H2|].
  destruct (configured_chunker_returns demo.long_page 3) as [chunks Hrun].
  exists chunks. split; [exact Hrun|].
  rewrite (chunk_count _ _ _ _ _ H1 H2 Hrun). vm_compute; reflexivity.
Defined.

(** When the overlap is at least the minimum chunk size, as with the
    configured sizes, no word of a page that can be chunked is lost:
    every word of the page is in a chunk, at its place. *)
Theorem chunks_cover_page page_text page_num size pct :
  (1 <= utils.step size pct)%Z ->
  (Z.of_nat config.MIN_CHUNK_SIZE <= utils.overlap_words size pct)%Z ->
  config.MIN_CHUNK_SIZE <= length (Py.split page_text) ->
  exists chunks,
    utils.chunk_text_with_overlap page_text page_num size pct
    = Py.Ok chunks
    /\ forall i w,
         Py.split page_text !! i = Some w ->
         exists j c,
           chunks !! j = Some c
           /\ j * Z.to_nat (utils.step size pct) <= i
           /\ words_of c !! (i - j * Z.to_nat (utils.step size pct))
              = Some w.
Proof.
  intros Hstep Hov Hlong.
  assert (size = utils.step size pct + utils.overlap_words size pct)%Z
    as Esize by (unfold utils.step; lia).
  assert (0 <= size)%Z as Hsize by lia.
  destruct (chunk_text_returns page_text page_num size pct)
    as [chunks Hrun]; [lia|].
  exists chunks. split; [exact Hrun|]. intros i w Hi.
  pose proof (lookup_lt_Some _ _ _ Hi) as HiL.
  set (words := Py.split page_text) in *. set (L := length words) in *.
  set (T := Z.to_nat (utils.step size pct)) in *.
  set (S0 := Z.to_nat size) in *.
  unfold config.MIN_CHUNK_SIZE in *.
  assert (1 <= T) as HT by lia. assert (T + 50 <= S0) as HS by lia.
  pose proof (Nat.Div0.mul_div_le (L - 50) T) as Hq1.
  pose proof (Nat.mul_succ_div_gt (L - 50) T ltac:(lia)) as Hq2.
  pose proof (Nat.Div0.mul_div_le i T) as Hi1.
  pose proof (Nat.mul_succ_div_gt i T ltac:(lia)) as Hi2.
  set (j := Nat.min (i / T) ((L - 50) / T)).
  assert (j * T <= i) as Hji by (unfold j; nia).
  assert (i - j * T < S0) as HjS by (unfold j; nia).
  assert (j * T + 50 <= L) as HjL by (unfold j; nia).
  destruct (proj2 (chunk_lookup_iff page_text page_num size pct chunks j
                     Hsize Hstep Hrun)) as [c Hc].
  { rewrite length_window. fold words L T S0.
    unfold config.MIN_CHUNK_SIZE. lia. }
  exists j, c. split; [exact Hc|]. split; [exact Hji|].
  destruct (chunk_is_window _ _ _ _ _ _ _ Hsize Hstep Hrun Hc) as [-> _].
  rewrite words_of_chunk_of. unfold window. fold words T S0.
  rewrite lookup_take_lt by lia. rewrite lookup_drop.
  by replace (j * T + (i - j * T)) with i by lia.
Qed.

Lemma chunks_cover_page_witness :
  (1 <= utils.step config.CHUNK_SIZE_WORDS config.OVERLAP_PERCENTAGE)%Z
  /\ (Z.of_nat config.MIN_CHUNK_SIZE
      <= utils.overlap_words config.CHUNK_SIZE_WORDS
           config.OVERLAP_PERCENTAGE)%Z
  /\ config.MIN_CHUNK_SIZE <= length (Py.split demo.long_page)
  /\ exists chunks,
       utils.chunk_text_with_overlap demo.long_page 3
         config.CHUNK_SIZE_WORDS config.OVERLAP_PERCENTAGE
       = Py.Ok chunks.
Proof.
  assert (1 <= utils.step config.CHUNK_SIZE_WORDS
                 config.OVERLAP_PERCENTAGE)%Z as H1
    by (vm_compute; discriminate).
  assert (Z.of_nat config.MIN_CHUNK_SIZE
          <= utils.overlap_words config.CHUNK_SIZE_WORDS
               config.OVERLAP_PERCENTAGE)%Z as H2
    by (vm_compute; discriminate).
  assert (config.MIN_CHUNK_SIZE <= length (Py.split demo.long_page)) as H3
    by (apply Nat.leb_le; vm_compute; reflexivity).
  destruct (chunks_cover_page demo.long_page 3 _ _ H1 H2 H3)
    as (chunks & Hrun & _).
  split; [exact H1|]. split; [exact H2|]. split; [exact H3|].
  exists chunks. exact Hrun.
Defined.

(** What the chunks of a page cover: the positions below
    [(n - 1) * stride + size], where [n] is the number of chunks. Words
    of the page beyond that bound are in no chunk. *)
Theorem chunks_covered_positions page_text page_num size pct chunks :
  (0 <= pct)%Q -> (pct < 1)%Q -> (1 <= utils.step size pct)%Z ->
  utils.chunk_text_with_overlap page_text page_num size pct
  = Py.Ok chunks ->
  chunks <> [] ->
  forall i,
    i < length (Py.split page_text) ->
    (exists j c,
       chunks !! j = Some c
       /\ j * Z.to_nat (utils.step size pct) <= i
          < j * Z.to_nat (utils.step size pct) + word_count c)
    <-> i < (length chunks - 1) * Z.to_nat (utils.step size pct)
            + Z.to_nat size.
Proof.
  intros H0 H1 Hstep Hrun Hne i HiL.
  pose proof (positive_stride_size size pct H1 Hstep) as Hsize1.
  destruct (overlap_words_bounds size pct Hsize1 H0 H1) as [_ Hov].
  assert (utils.step size pct <= size)%Z as HTS by (unfold utils.step; lia).
  assert (0 <= size)%Z as Hsize by lia.
  assert (forall j, j < length chunks
                    <-> config.MIN_CHUNK_SIZE
                        <= Nat.min (Z.to_nat size)
                             (length (Py.split page_text)
                              - j * Z.to_nat (utils.step size pct))) as Hlt.
  { intros j. rewrite <- length_window, <- lookup_lt_is_Some.
    by apply (chunk_lookup_iff page_text page_num size pct). }
  assert (forall j c, chunks !! j = Some c ->
            word_count c
            = Nat.min (Z.to_nat size)
                (length (Py.split page_text)
                 - j * Z.to_nat (utils.step size pct))) as Hwc.
  { intros j c Hc.
    destruct (chunk_is_window _ _ _ _ _ _ _ Hsize Hstep Hrun Hc) as [-> _].
    cbn [word_count chunk_of]. apply length_window. }
  set (L := length (Py.split page_text)) in *.
  set (T := Z.to_nat (utils.step size pct)) in *.
  set (S0 := Z.to_nat size) in *. set (n := length chunks) in *.
  assert (1 <= T <= S0) as HT by lia.
  assert (1 <= n) as Hn by (destruct chunks; [done|cbn in n; lia]).
  unfold config.MIN_CHUNK_SIZE in *. split.
  - intros (j & c & Hc & Hlo & Hhi). rewrite (Hwc j c Hc) in Hhi.
    apply lookup_lt_Some in Hc. fold n in Hc. nia.
  - intros Hi.
    pose proof (Nat.Div0.mul_div_le i T) as Hi1.
    pose proof (Nat.mul_succ_div_gt i T ltac:(lia)) as Hi2.
    set (j := Nat.min (i / T) (n - 1)).
    assert (j < n) as Hjn by (unfold j; lia).
    destruct (lookup_lt_is_Some_2 chunks j Hjn) as [c Hc].
    exists j, c. split; [exact Hc|]. rewrite (Hwc j c Hc).
    unfold j. nia.
Qed.

Lemma chunks_covered_positions_witness :
  (0 <= 0)%Q /\ (0 < 1)%Q /\ (1 <= utils.step 280 0)%Z
  /\ exists chunks,
       utils.chunk_text_with_overlap demo.long_page 3 280 0 = Py.Ok chunks
       /\ length chunks = 2
       /\ ~ exists j c,
            chunks !! j = Some c
            /\ j * Z.to_nat (utils.step 280 0) <= 580
               < j * Z.to_nat (utils.step 280 0) + word_count c.
Proof.
  assert (0 <= 0)%Q as H0 by (vm_compute; discriminate).
  assert (0 < 1)%Q as H1 by (vm_compute; reflexivity).
  assert (1 <= utils.step 280 0)%Z as H2 by (vm_compute; discriminate).
  split; [exact H0|]. split; [exact H1|]. split; [exact H2|].
  destruct (chunk_text_returns demo.long_page 3 280 0) as [chunks Hrun];
    [vm_compute; discriminate|].
  assert (length chunks = 2) as Hlen.
  { pose proof Hrun as Hc. vm_compute in Hc. injection Hc as <-.
    reflexivity. }
  exists chunks. split; [exact Hrun|]. split; [exact Hlen|].
  assert (chunks <> []) as Hne by (intros ->; discriminate Hlen).
  assert (580 < length (Py.split demo.long_page)) as Hi
    by (apply Nat.ltb_lt; vm_compute; reflexivity).
  rewrite (chunks_covered_positions _ _ _ _ _ H0 H1 H2 Hrun Hne 580 Hi).
  rewrite Hlen. vm_compute. lia.
Defined.

(** A stride of zero makes the chunker raise [ValueError] on a page that
    has enough words; a negative stride makes it return no chunk,
    without an error. *)
Theorem chunker_nonpositive_stride page_text page_num size pct :
  (utils.step size pct <= 0)%Z ->
  config.MIN_CHUNK_SIZE <= length (Py.split page_text) ->
  utils.chunk_text_with_overlap page_text page_num size pct
  = if (utils.step size pct =? 0)%Z then Py.Raise Py.ValueError
    else Py.Ok [].
Proof.
  intros Hstep Hlong. unfold utils.chunk_text_with_overlap.
  destruct (Nat.ltb_spec (length (Py.split page_text))
              config.MIN_CHUNK_SIZE) as [?|_]; [lia|].
  unfold Py.range.
  destruct (Z.eqb_spec (utils.step size pct) 0) as [_|Hne]; [done|].
  destruct (Z.ltb_spec 0 (utils.step size pct)) as [?|_]; [lia|].
  run_bind. set (T := utils.step size pct) in *.
  assert ((0 - Py.len (Py.split page_text) - T - 1) / - T < 1)%Z as Hn.
  { apply Z.div_lt_upper_bound; unfold Py.len; lia. }
  replace (Z.to_nat ((0 - Py.len (Py.split page_text) - T - 1) / - T))
    with 0 by lia.
  reflexivity.
Qed.

Lemma chunker_nonpositive_stride_witness :
  (utils.step 100 1 <= 0)%Z /\ (utils.step 100 (3 # 2) <= 0)%Z
  /\ config.MIN_CHUNK_SIZE <= length (Py.split demo.hundred_words)
  /\ utils.chunk_text_with_overlap demo.hundred_words 1 100 1
     = Py.Raise Py.ValueError
  /\ utils.chunk_text_with_overlap demo.hundred_words 1 100 (3 # 2)
     = Py.Ok [].
Proof.
  assert (utils.step 100 1 <= 0)%Z as H1 by (vm_compute; discriminate).
  assert (utils.step 100 (3 # 2) <= 0)%Z as H2 by (vm_compute; discriminate).
  assert (config.MIN_CHUNK_SIZE <= length (Py.split demo.hundred_words))
    as H3 by (apply Nat.leb_le; vm_compute; reflexivity).
  split; [exact H1|]. split; [exact H2|]. split; [exact H3|]. split.
  - exact (chunker_nonpositive_stride demo.hundred_words 1 100 1 H1 H3).
  - exact (chunker_nonpositive_stride demo.hundred_words 1 100 (3 # 2)
             H2 H3).
Defined.

(** ** More on strings and the section hint *)

Section string_more.

Lemma length_append (s t : string) :
  String.length (s +:+ t) = String.length s + String.length t.
Proof.
  induction s as [|c s IH]; [done|]. rewrite append_cons. simpl. by rewrite IH.
Qed.

Lemma append_assoc (s t u : string) : (s +:+ t) +:+ u = s +:+ t +:+ u.
Proof.
  induction s as [|c s IH]; [done|]. by rewrite !append_cons, IH.
Qed.

Lemma rev_str_rev_str (s a b : string) :
  Py.rev_str b (Py.rev_str a s) = Py.rev_str (s +:+ b) a.
Proof.
  revert a b. induction s as [|c s IH]; intros a b; [done|].
  cbn [Py.rev_str]. rewrite IH. by rewrite append_cons.
Qed.

Lemma rev_str_involutive (s : string) :
  Py.rev_str "" (Py.rev_str "" s) = s.
Proof. rewrite rev_str_rev_str. simpl. apply append_empty_r. Qed.

Lemma length_rev_str (acc s : string) :
  String.length (Py.rev_str acc s) = String.length s + String.length acc.
Proof.
  revert acc. induction s as [|c s IH]; intros acc; [done|].
  cbn [Py.rev_str]. rewrite IH. simpl. lia.
Qed.

Lemma length_drop_while p (s : string) :
  String.length (Py.drop_while p s) <= String.length s.
Proof.
  induction s as [|c s IH]; [done|]. simpl. destruct (p c); simpl; lia.
Qed.

Lemma length_strip (s : string) :
  String.length (Py.strip s) <= String.length s.
Proof.
  unfold Py.strip. rewrite length_rev_str. simpl.
  etrans; [rewrite Nat.add_0_r; apply length_drop_while|].
  rewrite length_rev_str. simpl. rewrite Nat.add_0_r.
  apply length_drop_while.
Qed.

Lemma length_map_str f (s : string) :
  String.length (Py.map_str f s) = String.length s.
Proof. induction s as [|c s IH]; [done|]. simpl. by rewrite IH. Qed.

Lemma length_prefix n (s : string) : String.length (Py.prefix n s) <= n.
Proof.
  unfold Py.prefix. revert s. induction n as [|n IH]; intros s.
  - by destruct s.
  - destruct s as [|c s]; simpl; [lia|]. specialize (IH s). lia.
Qed.

Lemma first_heading_like lines line :
  utils.first_heading lines = Some line -> utils.heading_like line = true.
Proof.
  induction lines as [|l lines IH]; [done|]. simpl.
  destruct (utils.heading_like (Py.strip l)) eqn:E; [|done].
  by intros [= <-].
Qed.

End string_more.

(** A section hint has at least 3 and at most 99 characters, whatever
    the text. *)
Theorem section_hint_length (text : string) :
  3 <= String.length (utils.extract_section_hint text) <= 99.
Proof.
  unfold utils.extract_section_hint.
  destruct (utils.first_heading _) as [line|] eqn:E.
  - apply first_heading_like in E. unfold utils.heading_like in E.
    apply andb_true_iff in E as [E _]. apply andb_true_iff in E as [E1 E2].
    apply Nat.ltb_lt in E1, E2. lia.
  - rewrite length_append. cbn [String.length]. unfold Py.replace.
    pose proof (length_strip
                  (Py.map_str (fun c => if Ascii.eqb c Py.LF then Py.SP else c)
                     (Py.prefix 50 text))) as H.
    rewrite length_map_str in H.
    pose proof (length_prefix 50 text). lia.
Qed.

Section single_line.

Lemma forallb_str_impl (p q : ascii -> bool) (s : string) :
  (forall c, p c = true -> q c = true) ->
  Py.forallb_str p s = true -> Py.forallb_str q s = true.
Proof.
  intros Hpq. induction s as [|c s IH]; [done|]. simpl.
  rewrite !andb_true_iff. intros [Hc Hs]. auto.
Qed.

Lemma not_space_not_lf c :
  negb (Py.is_space c) = true -> negb (Ascii.eqb c Py.LF) = true.
Proof.
  destruct (Ascii.eqb_spec c Py.LF) as [->|_]; [|done]. by vm_compute.
Qed.

Lemma join_words_no_lf (ws : list string) :
  Forall is_word ws ->
  Py.forallb_str (fun c => negb (Ascii.eqb c Py.LF)) (Py.join " " ws)
  = true.
Proof.
  unfold Py.join. induction 1 as [|w ws [_ Hw] Hws IH]; [done|].
  apply (forallb_str_impl _ _ _ not_space_not_lf) in Hw.
  destruct ws as [|w2 ws]; [done|].
  change (String.concat " " (w :: w2 :: ws))
    with (w +:+ String Py.SP (String.concat " " (w2 :: ws))).
  rewrite forallb_str_append, Hw. simpl. exact IH.
Qed.

Lemma split_on_go_no_sep sep (cur s : string) :
  Py.forallb_str (fun c => negb (Ascii.eqb c sep)) s = true ->
  Py.split_on_go sep cur s = [cur +:+ s].
Proof.
  revert cur. induction s as [|c s IH]; intros cur H.
  - by rewrite append_empty_r.
  - simpl in H. apply andb_true_iff in H as [Hc Hs].
    apply negb_true_iff in Hc. simpl. rewrite Hc, IH by done.
    by rewrite append_snoc.
Qed.

Lemma replace_absent a b (s : string) :
  Py.forallb_str (fun c => negb (Ascii.eqb c a)) s = true ->
  Py.replace a b s = s.
Proof.
  unfold Py.replace. induction s as [|c s IH]; [done|]. simpl.
  rewrite andb_true_iff. intros [Hc Hs]. apply negb_true_iff in Hc.
  by rewrite Hc, IH.
Qed.

Lemma forallb_str_prefix p n (s : string) :
  Py.forallb_str p s = true -> Py.forallb_str p (Py.prefix n s) = true.
Proof.
  unfold Py.prefix. revert s. induction n as [|n IH]; intros s H.
  - by destruct s.
  - destruct s as [|c s]; [done|]. simpl in *.
    apply andb_true_iff in H as [Hc Hs]. rewrite Hc. by apply IH.
Qed.

Lemma rev_str_head (acc s : string) c :
  last_char s = Some c -> exists r, Py.rev_str acc s = String c r.
Proof.
  revert acc. induction s as [|d s IH]; intros acc H; [done|].
  destruct s as [|e s].
  - injection H as ->. by eexists.
  - cbn [Py.rev_str]. apply (IH (String d acc)). exact H.
Qed.

(** A string that starts and ends with a character that is not white
    space is its own [strip]. *)
Lemma strip_trimmed (s : string) c r d :
  s = String c r -> Py.is_space c = false ->
  last_char s = Some d -> Py.is_space d = false ->
  Py.strip s = s.
Proof.
  intros -> Hc Hd Hdsp. unfold Py.strip. simpl. rewrite Hc.
  destruct (rev_str_head "" (String c r) d Hd) as [r' Hr].
  rewrite Hr at 1. simpl. rewrite Hdsp, <- Hr.
  apply rev_str_involutive.
Qed.

Lemma last_char_append (s t : string) :
  t <> "" -> last_char (s +:+ t) = last_char t.
Proof.
  intros Ht. induction s as [|c s IH]; [done|].
  rewrite append_cons. cbn [last_char]. rewrite IH.
  destruct (s +:+ t) eqn:E; [|done].
  destruct s; [|discriminate E]. simpl in E. done.
Qed.

Lemma word_ends (w : string) :
  is_word w ->
  (exists c r, w = String c r /\ Py.is_space c = false)
  /\ exists d, last_char w = Some d /\ Py.is_space d = false.
Proof.
  intros [Hne Hw]. split.
  - destruct w as [|c r]; [done|]. simpl in Hw.
    apply andb_true_iff in Hw as [Hc _]. apply negb_true_iff in Hc. eauto.
  - induction w as [|c w IH]; [done|]. simpl in Hw.
    apply andb_true_iff in Hw as [Hc Hw]. apply negb_true_iff in Hc.
    destruct w as [|e w]; [by exists c|].
    destruct IH as (d & Hd & Hdsp); [done|done|]. by exists d.
Qed.

Lemma join_words_ends (w : string) (ws : list string) :
  Forall is_word (w :: ws) ->
  (exists c r, Py.join " " (w :: ws) = String c r /\ Py.is_space c = false)
  /\ exists d, last_char (Py.join " " (w :: ws)) = Some d
               /\ Py.is_space d = false.
Proof.
  unfold Py.join. revert w. induction ws as [|w2 ws IH]; intros w H.
  - apply Forall_cons in H as [Hw _]. by apply word_ends.
  - apply Forall_cons in H as [Hw Hws].
    change (String.concat " " (w :: w2 :: ws))
      with (w +:+ String Py.SP (String.concat " " (w2 :: ws))).
    destruct (IH w2 Hws) as [_ (d & Hd & Hdsp)]. split.
    + destruct (proj1 (word_ends w Hw)) as (c & r & -> & Hc).
      rewrite append_cons. eauto.
    + exists d. split; [|done]. rewrite last_char_append by done.
      cbn [last_char]. destruct (String.concat " " (w2 :: ws)); [done|].
      exact Hd.
Qed.

Lemma length_join_words (ws : list string) :
  Forall is_word ws ->
  2 * length ws <= String.length (Py.join " " ws) + 1.
Proof.
  unfold Py.join. induction 1 as [|w ws [Hne _] Hws IH]; [simpl; lia|].
  assert (1 <= String.length w) by (destruct w; [done|simpl; lia]).
  destruct ws as [|w2 ws]; [simpl; lia|].
  change (String.concat " " (w :: w2 :: ws))
    with (w +:+ String Py.SP (String.concat " " (w2 :: ws))).
  rewrite length_append. cbn [String.length length] in *. lia.
Qed.

End single_line.

(** A chunk text is one line: the section hint of a chunk is its whole
    text when that is heading-like, and the stripped first 50 characters
    followed by ["..."] otherwise. A chunk has at least 99 characters,
    and beyond 99 the hint is always the fallback. *)
Theorem chunk_section_single_line page_text page_num size pct chunks c :
  (pct < 1)%Q -> (1 <= utils.step size pct)%Z ->
  utils.chunk_text_with_overlap page_text page_num size pct
  = Py.Ok chunks ->
  c ∈ chunks ->
  section c
  = (if utils.heading_like (text c) then text c
     else Py.strip (Py.prefix 50 (text c)) +:+ "...")
  /\ 99 <= String.length (text c)
  /\ (100 <= String.length (text c) ->
      section c = Py.strip (Py.prefix 50 (text c)) +:+ "...").
Proof.
  intros Hpct Hstep Hrun Hc.
  assert (0 <= size)%Z as Hsize
    by (pose proof (positive_stride_size size pct Hpct Hstep); lia).
  apply list_elem_of_lookup in Hc as [j Hj].
  destruct (chunk_is_window _ _ _ _ _ _ _ Hsize Hstep Hrun Hj)
    as [-> Hmin].
  pose proof (window_words page_text size (utils.step size pct) j) as Hws.
  set (ws := window _ _ _ j) in *. cbn [section text chunk_of].
  set (t := Py.join " " ws).
  pose proof (join_words_no_lf ws Hws) as Hlf. fold t in Hlf.
  pose proof (length_join_words ws Hws) as Hlen. fold t in Hlen.
  unfold config.MIN_CHUNK_SIZE in Hmin.
  destruct ws as [|w ws'] eqn:Ews; [simpl in Hmin; lia|].
  destruct (join_words_ends w ws' Hws)
    as [(c0 & r & Ht & Hc0) (d & Hd & Hdsp)].
  fold t in Ht, Hd.
  assert (Py.strip t = t) as Hstrip by (eapply strip_trimmed; eauto).
  assert (utils.extract_section_hint t
          = if utils.heading_like t then t
            else Py.strip (Py.prefix 50 t) +:+ "...") as Hhint.
  { unfold utils.extract_section_hint, Py.split_on.
    rewrite split_on_go_no_sep by done. change ("" +:+ t) with t.
    cbn [take utils.first_heading]. rewrite Hstrip.
    destruct (utils.heading_like t); [done|].
    by rewrite replace_absent by (by apply forallb_str_prefix). }
  split; [exact Hhint|]. split; [cbn [length] in Hlen, Hmin; lia|].
  intros Hlong. rewrite Hhint. unfold utils.heading_like.
  destruct (Nat.ltb_spec (String.length t) 100) as [?|_]; [lia|].
  by rewrite andb_false_r.
Qed.

Lemma chunk_section_single_line_witness :
  (9 # 10 < 1)%Q /\ (1 <= utils.step 100 (9 # 10))%Z
  /\ exists c,
       demo.hundred_chunks !! 0 = Some c
       /\ section c = Py.strip (Py.prefix 50 (text c)) +:+ "..."
       /\ section c = "0 1 2 3 4 5 6 7 8 9 10 11 12 13 14 15 16 17 18 19...".
Proof.
  assert (9 # 10 < 1)%Q as H1 by (vm_compute; reflexivity).
  assert (1 <= utils.step 100 (9 # 10))%Z as H2 by (vm_compute; discriminate).
  assert (utils.chunk_text_with_overlap demo.hundred_words 1 100 (9 # 10)
          = Py.Ok demo.hundred_chunks) as Hrun by (vm_compute; reflexivity).
  split; [exact H1|]. split; [exact H2|].
  destruct (demo.hundred_chunks !! 0) as [c|] eqn:E; [|discriminate E].
  exists c. split; [reflexivity|].
  assert (c ∈ demo.hundred_chunks) as Hc
    by (apply list_elem_of_lookup; by exists 0).
  destruct (chunk_section_single_line _ _ _ _ _ c H1 H2 Hrun Hc)
    as (_ & _ & Hlong).
  injection E as <-. split; [|vm_compute; reflexivity].
  apply Hlong. apply Nat.leb_le. vm_compute; reflexivity.
Defined.

(** ** More on the answer formatter *)

Section format_more.

Lemma sorted_pages_elem (chunks : list Chunk) (p : Z) :
  p ∈ (utils.sorted_items (utils.group_by_page chunks)).*1
  <-> exists c, c ∈ chunks /\ page c = p.
Proof.
  rewrite list_elem_of_fmap. split.
  - intros ([p' g] & -> & Hin). apply sorted_items_elem in Hin.
    rewrite group_by_page_lookup in Hin. cbn [fst].
    destruct (chunks_on p' chunks) as [|c' g'] eqn:E; [done|].
    assert (c' ∈ chunks_on p' chunks) as Hc by (rewrite E; left).
    apply list_elem_of_filter in Hc as [Hp Hc]. eauto.
  - intros (c & Hc & Hp).
    assert (c ∈ chunks_on p chunks) as Hin
      by (by apply list_elem_of_filter).
    destruct (chunks_on p chunks) as [|c0 g] eqn:E;
      [by apply elem_of_nil in Hin|].
    exists (p, c0 :: g). split; [done|].
    apply sorted_items_elem. by rewrite group_by_page_lookup, E.
Qed.

Lemma format_nonempty (c : Chunk) (chunks : list Chunk) :
  utils.format_retrieved_chunks (c :: chunks)
  = Py.join (String Py.LF (String Py.LF ""))
      (map (page_block (c :: chunks))
         (utils.sorted_items (utils.group_by_page (c :: chunks))).*1).
Proof.
  unfold utils.format_retrieved_chunks. by rewrite sorted_items_blocks.
Qed.

Lemma substring_of_refl (s : string) : substring_of s s.
Proof. exists "", "". by rewrite append_empty_r. Qed.

Lemma substring_of_trans (s t u : string) :
  substring_of s t -> substring_of t u -> substring_of s u.
Proof.
  intros (a & b & ->) (a' & b' & ->). exists (a' +:+ a), (b +:+ b').
  by rewrite !append_assoc.
Qed.

Lemma substring_of_join sep (x : string) (l : list string) :
  x ∈ l -> substring_of x (Py.join sep l).
Proof.
  unfold Py.join. induction l as [|y l IH]; intros H.
  - by apply elem_of_nil in H.
  - destruct l as [|z l].
    + apply list_elem_of_singleton in H as ->. apply substring_of_refl.
    + change (String.concat sep (y :: z :: l))
        with (y +:+ sep +:+ String.concat sep (z :: l)).
      apply elem_of_cons in H as [->|H].
      * by exists "", (sep +:+ String.concat sep (z :: l)).
      * destruct (IH H) as (a & b & ->).
        exists (y +:+ sep +:+ a), b. by rewrite !append_assoc.
Qed.

Lemma last_char_join sep (l : list string) c :
  l <> [] -> Forall (fun b => last_char b = Some c) l ->
  last_char (Py.join sep l) = Some c.
Proof.
  unfold Py.join. intros Hne H.
  induction H as [|y l Hy Hl IH]; [done|].
  destruct l as [|z l]; [done|].
  change (String.concat sep (y :: z :: l))
    with (y +:+ sep +:+ String.concat sep (z :: l)).
  specialize (IH ltac:(done)).
  assert (String.concat sep (z :: l) <> "") as Hz
    by (intros E; by rewrite E in IH).
  rewrite last_char_append; [rewrite last_char_append; done|].
  destruct sep; [done|]. by rewrite append_cons.
Qed.

Lemma format_ends_with_paren (c : Chunk) (chunks : list Chunk) :
  last_char (utils.format_retrieved_chunks (c :: chunks)) = Some ")"%char.
Proof.
  rewrite format_nonempty. apply last_char_join.
  - assert (page c ∈ (utils.sorted_items
                        (utils.group_by_page (c :: chunks))).*1) as H.
    { apply sorted_pages_elem. exists c. split; [left|done]. }
    destruct (utils.sorted_items _).*1; [by apply elem_of_nil in H|done].
  - apply Forall_forall. intros b Hb.
    apply list_elem_of_fmap in Hb as (p & -> & _). unfold page_block.
    rewrite <- !append_assoc. by rewrite last_char_append.
Qed.

End format_more.

(** The formatter loses no text: the text of every chunk it is given is
    a contiguous part of its output. *)
Theorem format_keeps_every_text (chunks : list Chunk) (c : Chunk) :
  c ∈ chunks ->
  substring_of (text c) (utils.format_retrieved_chunks chunks).
Proof.
  intros Hc. destruct chunks as [|c0 chunks];
    [by apply elem_of_nil in Hc|].
  rewrite format_nonempty.
  apply (substring_of_trans _ (page_block (c0 :: chunks) (page c))).
  - unfold page_block.
    assert (substring_of (text c)
              (Py.join (String Py.LF "")
                 (map text (chunks_on (page c) (c0 :: chunks))))) as Hsub.
    { apply substring_of_join. apply (list_elem_of_fmap_2 text).
      by apply list_elem_of_filter. }
    destruct Hsub as (a & b & ->).
    exists a, (b +:+ " (p. " +:+ Py.str (page c) +:+ ")").
    by rewrite !append_assoc.
  - apply substring_of_join. apply (list_elem_of_fmap_2 (page_block _)).
    apply sorted_pages_elem. eauto.
Qed.

Lemma format_keeps_every_text_witness :
  exists c,
    demo.at_threshold !! 3 = Some c
    /\ substring_of (text c) (utils.format_retrieved_chunks demo.at_threshold).
Proof.
  destruct (demo.at_threshold !! 3) as [c|] eqn:E; [|discriminate E].
  exists c. split; [reflexivity|].
  apply format_keeps_every_text. apply list_elem_of_lookup. by exists 3.
Defined.

(** The formatter returns the decline string for the empty sequence
    only: every other output ends with a page citation. *)
Theorem format_declines_only_empty (chunks : list Chunk) :
  utils.format_retrieved_chunks chunks = utils.DECLINE <-> chunks = [].
Proof.
  split; [|by intros ->]. destruct chunks as [|c chunks]; [done|].
  intros E. pose proof (format_ends_with_paren c chunks) as H.
  rewrite E in H. discriminate H.
Qed.

(** ** More on [ask] *)

Section ask_more.

Variable normalize_L2 : list Q -> list Q.

Lemma getitem_nil {A} (i : Z) :
  Py.getitem (@nil A) i = Py.Raise Py.IndexError.
Proof.
  unfold Py.getitem. destruct (i <? 0)%Z.
  - by destruct (i + Py.len [] <? 0)%Z.
  - by destruct (i <? 0)%Z.
Qed.

Lemma search_first rows x k :
  exists h hs, faiss.search rows x (S k) = h :: hs.
Proof.
  pose proof (length_search rows x (S k)) as H.
  destruct (faiss.search rows x (S k)) as [|h hs]; [done|]. eauto.
Qed.

Lemma traverse_get_score (chunks : list Chunk) :
  (Forall (fun c => is_Some (score c)) chunks
   /\ Py.traverse get_score chunks = Py.Ok (scores_of chunks))
  \/ (Exists (fun c => score c = None) chunks
      /\ Py.traverse get_score chunks = Py.Raise Py.KeyError).
Proof.
  induction chunks as [|c chunks IH]; [left; by split|].
  cbn [Py.traverse]. run_bind.
  destruct (score c) as [s|] eqn:E.
  - assert (get_score c = Py.Ok s) as ->
      by (unfold get_score; by rewrite E).
    cbn [Py.bind]. destruct IH as [[Hall Hok]|[Hex Hraise]].
    + left. split; [constructor; [by rewrite E|done]|].
      rewrite Hok. unfold scores_of. cbn [omap list_omap]. by rewrite E.
    + right. split; [by apply Exists_cons_tl|]. by rewrite Hraise.
  - assert (get_score c = Py.Raise Py.KeyError) as ->
      by (unfold get_score; by rewrite E).
    right. split; [by apply Exists_cons_hd|reflexivity].
Qed.

End ask_more.

(** Only answered questions are logged: a declined question leaves the
    prompt log as it was, an answered one appends one entry holding the
    question, the retrieved chunks and the answer; earlier entries are
    kept. *)
Theorem ask_logs_answers_only normalize_L2 self question log r log' :
  ask.ask normalize_L2 self question log = Py.Ok (r, log') ->
  exists retrieved,
    ask.retrieve normalize_L2 self question None = Py.Ok retrieved
    /\ (is_declined r = true -> log' = log)
    /\ (is_declined r = false ->
        log' = log ++ [utils.mkLogEntry question retrieved (ask.answer r)]).
Proof.
  intros Hask. pose proof Hask as Hask0. unfold ask.ask in Hask0.
  apply bind_Ok in Hask0 as (retrieved & Hret & _).
  exists retrieved. split; [exact Hret|].
  destruct (ask_cases normalize_L2 self question log retrieved Hret)
    as [[_ Hask']|[_ (first & rest & top & -> & _ & Hask')]];
    rewrite Hask' in Hask; injection Hask as <- <-.
  - split; [done|]. intros Hd. discriminate Hd.
  - split; [|done]. unfold is_declined. cbn [ask.confidence].
    by destruct (Py.Qltb _ _).
Qed.

Lemma ask_logs_answers_only_witness :
  let answered := demo.outcome_for "Which sides?" in
  let declined := demo.outcome_for "What is the weather today?" in
  ask.ask id demo.assistant "Which sides?" [] = Py.Ok answered
  /\ length answered.2 = 1
  /\ ask.ask id demo.assistant "What is the weather today?" answered.2
     = Py.Ok (declined.1, answered.2).
Proof.
  intros answered declined.
  assert (ask.ask id demo.assistant "Which sides?" []
          = Py.Ok (answered.1, answered.2)) as H1
    by (vm_compute; reflexivity).
  destruct (ask_logs_answers_only id _ _ _ _ _ H1)
    as (retrieved & _ & _ & Hlog).
  split; [exact H1|]. split.
  - rewrite Hlog by (vm_compute; reflexivity). reflexivity.
  - vm_compute; reflexivity.
Defined.





(** The answer text tells the outcome: it is the decline string exactly
    when the question was declined. An answered result has at least one
    source, and its pages are the pages of its sources, each once, in
    ascending order. *)
Theorem answer_text_tells_outcome normalize_L2 self question log r log' :
  ask.ask normalize_L2 self question log = Py.Ok (r, log') ->
  (ask.answer r = utils.DECLINE <-> is_declined r = true)
  /\ (is_declined r = false ->
      ask.sources r <> []
      /\ ask.pages r <> []
      /\ StronglySorted Z.lt (ask.pages r)
      /\ forall p, p ∈ ask.pages r
                   <-> exists c, c ∈ ask.sources r /\ page c = p).
Proof.
  intros Hask. pose proof Hask as Hask0. unfold ask.ask in Hask0.
  apply bind_Ok in Hask0 as (retrieved & Hret & _).
  destruct (ask_cases normalize_L2 self question log retrieved Hret)
    as [[_ Hask']|[_ (first & rest & top & -> & _ & Hask')]].
  { rewrite Hask' in Hask. injection Hask as <- <-.
    split; [done|]. intros Hd. discriminate Hd. }
  assert (r = ask.mkAnswer
                (utils.format_retrieved_chunks (first :: rest))
                (first :: rest)
                (utils.get_unique_pages (first :: rest))
                (if Py.Qltb (1 # 2) top then "high" else "medium") top)
    as -> by congruence.
  assert (is_declined
            (ask.mkAnswer
               (utils.format_retrieved_chunks (first :: rest))
               (first :: rest)
               (utils.get_unique_pages (first :: rest))
               (if Py.Qltb (1 # 2) top then "high" else "medium") top)
          = false) as Hd.
  { unfold is_declined. cbn [ask.confidence]. by destruct (Py.Qltb _ _). }
  rewrite Hd. cbn [ask.answer ask.sources ask.pages].
  assert (forall p, p ∈ utils.get_unique_pages (first :: rest)
                    <-> exists c, c ∈ first :: rest /\ page c = p)
    as Hpages.
  { intros p. unfold utils.get_unique_pages.
    rewrite (merge_sort_Permutation Z.le).
    rewrite elem_of_elements, elem_of_list_to_set, list_elem_of_fmap.
    split; intros (c & Hc & Hp); eauto. }
  split.
  - split; [|done]. intros E.
    pose proof (format_ends_with_paren first rest) as H.
    rewrite E in H. discriminate H.
  - intros _. split; [done|]. split; [|split; [|exact Hpages]].
    + intros E.
      assert (page first ∈ utils.get_unique_pages (first :: rest)) as H
        by (apply Hpages; exists first; split; [left|done]).
      rewrite E in H. by apply elem_of_nil in H.
    + unfold utils.get_unique_pages. apply ascending_distinct.
      * apply (StronglySorted_merge_sort Z.le).
      * rewrite (merge_sort_Permutation Z.le). apply NoDup_elements.
Qed.

Lemma answer_text_tells_outcome_witness :
  let out := demo.outcome_for "Which sides?" in
  ask.ask id demo.assistant "Which sides?" [] = Py.Ok out
  /\ ask.answer out.1 <> utils.DECLINE
  /\ ask.pages out.1 = [1; 2; 3; 4; 5]%Z.
Proof.
  intros out.
  assert (ask.ask id demo.assistant "Which sides?" []
          = Py.Ok (out.1, out.2)) as H by (vm_compute; reflexivity).
  destruct (answer_text_tells_outcome id _ _ _ _ _ H) as [Htext _].
  split; [exact H|]. split; [|vm_compute; reflexivity].
  intros E. apply Htext in E. vm_compute in E. discriminate E.
Defined.

(** [check_relevance] needs a score on every chunk: given a chunk
    without one it raises [KeyError]; given scored chunks it compares
    their highest score with the threshold; given none it answers
    [False]. *)
Theorem check_relevance_needs_scores (chunks : list Chunk) :
  (Exists (fun c => score c = None) chunks ->
   ask.check_relevance chunks = Py.Raise Py.KeyError)
  /\ (Forall (fun c => is_Some (score c)) chunks ->
      ask.check_relevance chunks
      = Py.Ok (Qle_bool config.SIMILARITY_THRESHOLD (highest_score chunks))
      /\ (chunks = [] -> ask.check_relevance chunks = Py.Ok false)).
Proof.
  destruct (traverse_get_score chunks) as [[Hall Hok]|[Hex Hraise]]; split.
  - intros Hex. exfalso. apply Exists_exists in Hex as (c & Hc & Hnone).
    rewrite Forall_forall in Hall. destruct (Hall c Hc) as [s Hs].
    congruence.
  - intros _. split; [by apply check_relevance_spec|by intros ->].
  - intros _. destruct chunks as [|c chunks]; [by apply Exists_nil in Hex|].
    unfold ask.check_relevance. by rewrite Hraise.
  - intros Hall. exfalso. apply Exists_exists in Hex as (c & Hc & Hnone).
    rewrite Forall_forall in Hall. destruct (Hall c Hc) as [s Hs].
    congruence.
Qed.

Lemma check_relevance_needs_scores_witness :
  ask.check_relevance demo.handbook = Py.Raise Py.KeyError
  /\ ask.check_relevance demo.at_threshold = Py.Ok true.
Proof.
  destruct (check_relevance_needs_scores demo.handbook) as [H1 _].
  destruct (check_relevance_needs_scores demo.at_threshold) as [_ H2].
  split.
  - apply H1. apply Exists_cons_hd. reflexivity.
  - destruct H2 as [H2 _].
    + repeat constructor; by eexists.
    + rewrite H2. vm_compute; reflexivity.
Defined.

Section retrieve_more.

Variable normalize_L2 : list Q -> list Q.

Lemma hits_labels rows x :
  (faiss.hits rows x).*2 = Z.of_nat <$> seq 0 (length rows).
Proof.
  unfold faiss.hits. rewrite fmap_imap.
  apply (imap_seq_0 rows Z.of_nat).
Qed.

Lemma sorted_hits_split rows x k :
  merge_sort faiss.better (faiss.hits rows x)
  = faiss.found rows x k
    ++ drop k (merge_sort faiss.better (faiss.hits rows x)).
Proof. unfold faiss.found. by rewrite take_drop. Qed.

Lemma Forall2_impl_elem {A B} (P R : A -> B -> Prop) l k :
  Forall2 P l k -> (forall a b, a ∈ l -> P a b -> R a b) -> Forall2 R l k.
Proof.
  induction 1 as [|a b l k Hab _ IH]; intros H; constructor.
  - apply H; [left|done].
  - apply IH. intros a' b' Ha'. apply H. by right.
Qed.

Lemma NoDup_to_nat (zs : list Z) :
  Forall (fun z => (0 <= z)%Z) zs -> NoDup zs -> NoDup (Z.to_nat <$> zs).
Proof.
  intros Hpos. apply NoDup_fmap_2_strong. intros a b Ha Hb E.
  rewrite Forall_forall in Hpos.
  pose proof (Hpos a Ha). pose proof (Hpos b Hb). lia.
Qed.

Lemma sorted_hits_sorted rows x :
  StronglySorted faiss.better
    (merge_sort faiss.better (faiss.hits rows x)).
Proof.
  apply (@StronglySorted_merge_sort _ faiss.better _
           better_trans better_total).
Qed.

Lemma sorted_labels_NoDup rows x :
  NoDup (merge_sort faiss.better (faiss.hits rows x)).*2.
Proof.
  rewrite (merge_sort_Permutation faiss.better), hits_labels.
  apply (NoDup_fmap_2 Z.of_nat), NoDup_seq.
Qed.

End retrieve_more.



Section padding_facts.

Lemma unique_pages_elem (chunks : list Chunk) (p : Z) :
  p ∈ utils.get_unique_pages chunks <-> exists c, c ∈ chunks /\ page c = p.
Proof.
  unfold utils.get_unique_pages. rewrite (merge_sort_Permutation Z.le).
  rewrite elem_of_elements, elem_of_list_to_set, list_elem_of_fmap.
  split; intros (c & ? & ?); by exists c.
Qed.

End padding_facts.



(** ** Cleaning the text of a page *)

Section regex_facts.

Lemma re_star_sound cls (k : string -> option string) s r :
  Py.re_star cls k s = Some r ->
  exists a s1, s = a +:+ s1 /\ Py.forallb_str cls a = true /\ k s1 = Some r.
Proof.
  induction s as [|c s IH]; cbn [Py.re_star]; intros H.
  - by exists "", "".
  - destruct (cls c) eqn:Ec; [|by exists "", (String c s)].
    destruct (Py.re_star cls k s) as [r'|] eqn:E.
    + injection H as ->. destruct (IH eq_refl) as (a & s1 & -> & Ha & Hk).
      exists (String c a), s1. rewrite append_cons. simpl. by rewrite Ec.
    + by exists "", (String c s).
Qed.

(** What the matcher finds is a match of the first item followed by
    what it finds for the rest of the pattern. *)
Lemma re_match_item cls q p s r :
  Py.re_match ((cls, q) :: p) s = Some r ->
  exists a s1,
    s = a +:+ s1 /\ item_matches cls q a /\ Py.re_match p s1 = Some r.
Proof.
  cbn [Py.re_match]. destruct q.
  - destruct s as [|c s]; [done|]. destruct (cls c) eqn:Ec; [|done].
    intros H. exists (String c ""), s. split; [done|]. split; [|done].
    split; [simpl; by rewrite Ec|done].
  - intros H.
    assert (Py.re_match p s = Some r -> 
            exists a s1, s = a +:+ s1 /\ item_matches cls Py.Opt a
                         /\ Py.re_match p s1 = Some r) as Hskip.
    { intros Hk. exists "", s. split; [done|]. split; [|done].
      split; [done|simpl; lia]. }
    destruct s as [|c s]; [auto|]. destruct (cls c) eqn:Ec; [|auto].
    destruct (Py.re_match p s) as [r'|] eqn:E; [|auto].
    injection H as ->. exists (String c ""), s. split; [done|].
    split; [|done]. split; [simpl; by rewrite Ec|simpl; lia].
  - intros H. apply re_star_sound in H as (a & s1 & -> & Ha & Hk).
    by exists a, s1.
  - destruct s as [|c s]; [done|]. destruct (cls c) eqn:Ec; [|done].
    intros H. apply re_star_sound in H as (a & s1 & -> & Ha & Hk).
    exists (String c a), s1. rewrite append_cons. split; [done|].
    split; [|done]. split; [simpl; by rewrite Ec|simpl; lia].
Qed.

(** Soundness: what the matcher consumes matches the pattern. *)
Lemma re_match_sound p s r :
  Py.re_match p s = Some r -> exists m, s = m +:+ r /\ matches p m.
Proof.
  revert s. induction p as [|[cls q] p IH]; intros s H.
  - injection H as ->. exists "". split; [done|constructor].
  - apply re_match_item in H as (a & s1 & -> & Ha & H).
    apply IH in H as (m & -> & Hm). exists (a +:+ m).
    rewrite append_assoc. split; [done|]. by constructor.
Qed.

Lemma re_star_complete cls (k : string -> option string) a s1 :
  Py.forallb_str cls a = true -> is_Some (k s1) ->
  is_Some (Py.re_star cls k (a +:+ s1)).
Proof.
  intros Ha Hk. induction a as [|c a IH].
  - change ("" +:+ s1) with s1. destruct s1 as [|d s1]; [done|].
    cbn [Py.re_star]. destruct (cls d); [|done].
    by destruct (Py.re_star cls k s1).
  - simpl in Ha. apply andb_true_iff in Ha as [Hc Ha].
    rewrite append_cons. cbn [Py.re_star]. rewrite Hc.
    destruct (IH Ha) as [r ->]. by eexists.
Qed.

(** Completeness: where a match starts, the matcher finds one. *)
Lemma re_match_complete p m r :
  matches p m -> is_Some (Py.re_match p (m +:+ r)).
Proof.
  intros Hm. revert r. induction Hm as [|cls q p a b [Ha Hq] Hb IH]; intros r.
  - by eexists.
  - rewrite append_assoc. cbn [Py.re_match]. specialize (IH r).
    destruct q.
    + destruct a as [|c [|d a]]; [done| |done]. rewrite append_cons.
      simpl in Ha. rewrite andb_true_r in Ha. by rewrite Ha.
    + destruct a as [|c [|d a]]; [| |simpl in Hq; lia].
      * change ("" +:+ b +:+ r) with (b +:+ r).
        destruct (b +:+ r) as [|d s] eqn:E; [done|].
        destruct (cls d); [|done]. by destruct (Py.re_match p s).
      * rewrite append_cons. simpl in Ha. rewrite andb_true_r in Ha.
        rewrite Ha. change ("" +:+ b +:+ r) with (b +:+ r).
        destruct IH as [r' ->]. by eexists.
    + by apply re_star_complete.
    + destruct a as [|c a]; [simpl in Hq; lia|]. rewrite append_cons.
      simpl in Ha. apply andb_true_iff in Ha as [Hc Ha]. rewrite Hc.
      by apply re_star_complete.
Qed.

(** With enough fuel the substitution does not depend on the fuel. *)
Lemma re_sub_steps_enough p repl fuel s :
  consuming p -> String.length s <= fuel ->
  Py.re_sub_steps fuel p repl s = Py.re_sub p repl s.
Proof.
  intros Hp. unfold Py.re_sub.
  assert (forall n fuel1 fuel2 s,
            String.length s <= n ->
            String.length s <= fuel1 -> String.length s <= fuel2 ->
            Py.re_sub_steps fuel1 p repl s = Py.re_sub_steps fuel2 p repl s)
    as H.
  { clear fuel s. induction n as [|n IH]; intros fuel1 fuel2 s Hn H1 H2.
    - destruct s; [|simpl in Hn; lia]. by destruct fuel1, fuel2.
    - destruct s as [|c s]; [by destruct fuel1, fuel2|].
      destruct fuel1 as [|fuel1]; [simpl in H1; lia|].
      destruct fuel2 as [|fuel2]; [simpl in H2; lia|].
      cbn [Py.re_sub_steps].
      destruct (Py.re_match p (String c s)) as [r|] eqn:E.
      + apply Hp in E. simpl in *. f_equal. apply IH; lia.
      + simpl in *. f_equal. apply IH; lia. }
  intros Hfuel. by apply (H (String.length s)).
Qed.

Lemma re_sub_empty p repl : Py.re_sub p repl "" = "".
Proof. done. Qed.

Lemma re_sub_cons p repl c s :
  consuming p ->
  Py.re_sub p repl (String c s)
  = match Py.re_match p (String c s) with
    | Some r => repl +:+ Py.re_sub p repl r
    | None => String c (Py.re_sub p repl s)
    end.
Proof.
  intros Hp. unfold Py.re_sub at 1. cbn [String.length Py.re_sub_steps].
  destruct (Py.re_match p (String c s)) as [r|] eqn:E.
  - apply Hp in E. simpl in E. rewrite re_sub_steps_enough by (done || lia).
    done.
  - done.
Qed.

(** Induction along the scan of [re.sub]. *)
Lemma re_sub_ind p (P : string -> Prop) :
  consuming p ->
  P "" ->
  (forall c s r, Py.re_match p (String c s) = Some r -> P r ->
                 P (String c s)) ->
  (forall c s, Py.re_match p (String c s) = None -> P s -> P (String c s)) ->
  forall s, P s.
Proof.
  intros Hp H0 Hm Hn s.
  assert (forall n s, String.length s <= n -> P s) as H.
  { clear s. induction n as [|n IH]; intros s Hlen.
    - destruct s; [done|simpl in Hlen; lia].
    - destruct s as [|c s]; [done|].
      destruct (Py.re_match p (String c s)) as [r|] eqn:E.
      + apply (Hm c s r E). apply IH. apply Hp in E. simpl in *. lia.
      + apply Hn; [done|]. apply IH. simpl in Hlen. lia. }
  by apply (H (String.length s)).
Qed.

End regex_facts.

Section clean_facts.

Lemma forallb_str_app q (s t : string) :
  Py.forallb_str q (s +:+ t) = Py.forallb_str q s && Py.forallb_str q t.
Proof.
  induction s as [|c s IH]; [done|]. rewrite append_cons. simpl.
  by rewrite IH, andb_assoc.
Qed.

Lemma matches_whitespace p m :
  whitespace_only p -> matches p m -> Py.forallb_str Py.is_space m = true.
Proof.
  intros Hp Hm. induction Hm as [|cls q p a b [Ha _] _ IH]; [done|].
  apply Forall_cons in Hp as [Hcls Hp]. rewrite forallb_str_app.
  rewrite (IH Hp), andb_true_r.
  apply (forallb_str_impl cls); [exact Hcls|exact Ha].
Qed.

Lemma spaces_whitespace : whitespace_only utils.SPACES.
Proof.
  repeat constructor. intros c Hc. cbn [fst] in Hc.
  by apply Ascii.eqb_eq in Hc as <-.
Qed.

Lemma blank_lines_whitespace : whitespace_only utils.BLANK_LINES.
Proof.
  repeat constructor; intros c Hc; cbn [fst] in Hc;
    try (by apply Ascii.eqb_eq in Hc as <-); done.
Qed.

Lemma matches_spaces_nonempty m :
  matches utils.SPACES m -> 1 <= String.length m.
Proof.
  intros Hm. inversion Hm as [|cls q p a b [_ Ha] Hb]; subst.
  rewrite length_append. lia.
Qed.

Lemma matches_blank_lines_nonempty m :
  matches utils.BLANK_LINES m -> 1 <= String.length m.
Proof.
  intros Hm. inversion Hm as [|cls q p a b [_ Ha] Hb]; subst.
  rewrite length_append. lia.
Qed.

Lemma consuming_matches p :
  (forall m, matches p m -> 1 <= String.length m) -> consuming p.
Proof.
  intros Hp s r H. apply re_match_sound in H as (m & -> & Hm).
  apply Hp in Hm. rewrite length_append. lia.
Qed.

Lemma spaces_consuming : consuming utils.SPACES.
Proof. apply consuming_matches, matches_spaces_nonempty. Qed.

Lemma blank_lines_consuming : consuming utils.BLANK_LINES.
Proof. apply consuming_matches, matches_blank_lines_nonempty. Qed.

(** *** Words *)

Lemma emit_empty : Py.emit "" = [].
Proof. done. Qed.

Lemma split_go_space_run (m cur s : string) :
  Py.forallb_str Py.is_space m = true -> 1 <= String.length m ->
  Py.split_go cur (m +:+ s) = Py.emit cur ++ Py.split_go "" s.
Proof.
  revert cur. induction m as [|c m IH]; intros cur Hm Hlen;
    [simpl in Hlen; lia|].
  simpl in Hm. apply andb_true_iff in Hm as [Hc Hm].
  rewrite append_cons. cbn [Py.split_go]. rewrite Hc. f_equal.
  destruct m as [|d m]; [done|].
  rewrite IH by (done || simpl; lia). done.
Qed.

Lemma split_go_spaces (m cur : string) :
  Py.forallb_str Py.is_space m = true -> Py.split_go cur m = Py.emit cur.
Proof.
  intros Hm. destruct m as [|c m]; [done|].
  rewrite <- (append_empty_r (String c m)).
  rewrite split_go_space_run by (done || simpl; lia).
  simpl. by rewrite app_nil_r.
Qed.

Lemma split_go_leading (m s : string) :
  Py.forallb_str Py.is_space m = true ->
  Py.split_go "" (m +:+ s) = Py.split_go "" s.
Proof.
  intros Hm. destruct m as [|c m]; [done|].
  by rewrite split_go_space_run by (done || simpl; lia).
Qed.

Lemma split_go_trailing (s m cur : string) :
  Py.forallb_str Py.is_space m = true ->
  Py.split_go cur (s +:+ m) = Py.split_go cur s.
Proof.
  intros Hm. revert cur. induction s as [|c s IH]; intros cur.
  - change ("" +:+ m) with m. by rewrite split_go_spaces.
  - rewrite append_cons. cbn [Py.split_go]. by rewrite !IH.
Qed.

(** Replacing runs of white space by white space leaves the words. *)
Lemma split_go_re_sub p repl :
  (forall m, matches p m -> 1 <= String.length m) ->
  whitespace_only p ->
  Py.forallb_str Py.is_space repl = true -> 1 <= String.length repl ->
  forall s cur,
    Py.split_go cur (Py.re_sub p repl s) = Py.split_go cur s.
Proof.
  intros Hne Hp Hrepl Hlen.
  pose proof (consuming_matches p Hne) as Hcons.
  apply (re_sub_ind p (fun s => forall cur,
           Py.split_go cur (Py.re_sub p repl s) = Py.split_go cur s));
    [done|done| |].
  - intros c s r Hr IH cur. rewrite re_sub_cons, Hr by done.
    apply re_match_sound in Hr as (m & -> & Hm).
    rewrite !split_go_space_run;
      [by rewrite IH| |by apply Hne|done|done].
    by apply (matches_whitespace p).
  - intros c s Hr IH cur. rewrite re_sub_cons, Hr by done.
    cbn [Py.split_go]. by rewrite !IH.
Qed.

Lemma rev_str_append (s t acc : string) :
  Py.rev_str acc (s +:+ t) = Py.rev_str (Py.rev_str acc s) t.
Proof.
  revert acc. induction s as [|c s IH]; intros acc; [done|].
  rewrite append_cons. cbn [Py.rev_str]. apply IH.
Qed.

Lemma rev_str_acc (s acc : string) :
  Py.rev_str acc s = Py.rev_str "" s +:+ acc.
Proof.
  revert acc. induction s as [|c s IH]; intros acc; [done|].
  cbn [Py.rev_str]. rewrite IH, (IH (String c "")).
  by rewrite append_assoc.
Qed.

Lemma forallb_str_rev q (s acc : string) :
  Py.forallb_str q (Py.rev_str acc s)
  = Py.forallb_str q s && Py.forallb_str q acc.
Proof.
  revert acc. induction s as [|c s IH]; intros acc; [done|].
  cbn [Py.rev_str]. rewrite IH. simpl.
  destruct (q c), (Py.forallb_str q s); simpl; done.
Qed.

(** [strip] removes a run of white space at either end. *)
Lemma strip_decompose (s : string) :
  exists a b,
    s = a +:+ Py.strip s +:+ b
    /\ Py.forallb_str Py.is_space a = true
    /\ Py.forallb_str Py.is_space b = true.
Proof.
  unfold Py.strip. cbv zeta.
  set (s1 := Py.drop_while Py.is_space s).
  set (t := Py.rev_str "" s1).
  exists (take_while Py.is_space s),
         (Py.rev_str "" (take_while Py.is_space t)).
  split; [|split].
  - rewrite <- rev_str_acc, <- rev_str_append, <- span.
    unfold t. rewrite rev_str_involutive. apply span.
  - apply take_while_all.
  - rewrite forallb_str_rev, take_while_all. done.
Qed.

Lemma split_strip (s : string) : Py.split (Py.strip s) = Py.split s.
Proof.
  destruct (strip_decompose s) as (a & b & Hs & Ha & Hb).
  unfold Py.split. rewrite Hs at 2.
  by rewrite split_go_leading, split_go_trailing.
Qed.

Lemma split_clean_text (text : string) :
  Py.split (utils.clean_text text) = Py.split text.
Proof.
  unfold utils.clean_text. cbv zeta. rewrite split_strip. unfold Py.split.
  rewrite (split_go_re_sub utils.BLANK_LINES);
    [|apply matches_blank_lines_nonempty|apply blank_lines_whitespace
     |done|simpl; lia].
  apply (split_go_re_sub utils.SPACES);
    [apply matches_spaces_nonempty|apply spaces_whitespace
    |done|simpl; lia].
Qed.

End clean_facts.

(** Cleaning a page's text changes no word of it, so the chunks of the
    cleaned text are those of the text as extracted. *)
Theorem clean_text_keeps_words (text : string) :
  Py.split (utils.clean_text text) = Py.split text
  /\ forall page_num size pct,
       utils.chunk_text_with_overlap (utils.clean_text text) page_num
         size pct
       = utils.chunk_text_with_overlap text page_num size pct.
Proof.
  pose proof (split_clean_text text) as H.
  split; [exact H|]. intros page_num size pct.
  unfold utils.chunk_text_with_overlap. by rewrite H.
Qed.

Section shape_facts.

Lemma re_star_greedy cls (s : string) :
  Py.re_star cls Some s = Some (Py.drop_while cls s).
Proof.
  induction s as [|c s IH]; [done|]. cbn [Py.re_star Py.drop_while].
  destruct (cls c); [|done]. by rewrite IH.
Qed.

Lemma drop_while_first cls (s : string) c :
  first_char (Py.drop_while cls s) = Some c -> cls c = false.
Proof.
  induction s as [|d s IH]; [done|]. cbn [Py.drop_while].
  destruct (cls d) eqn:E; [done|]. by intros [= <-].
Qed.

Lemma plus_greedy cls (s r : string) c :
  Py.re_match [(cls, Py.Plus)] s = Some r ->
  first_char r = Some c -> cls c = false.
Proof.
  cbn [Py.re_match]. destruct s as [|d s]; [done|].
  destruct (cls d); [|done]. change (Py.re_match []) with (@Some string).
  rewrite re_star_greedy. intros [= <-]. apply drop_while_first.
Qed.

Lemma first_char_re_sub p repl (s : string) :
  consuming p -> Py.re_match p s = None ->
  first_char (Py.re_sub p repl s) = first_char s.
Proof.
  intros Hp H. destruct s as [|c s]; [done|]. by rewrite re_sub_cons, H.
Qed.

Lemma run_first c (s : string) : first_char s <> Some c -> run c s = 0.
Proof.
  destruct s as [|d s]; [done|]. simpl. intros H.
  destruct (Ascii.eqb_spec c d) as [->|]; [done|done].
Qed.

Lemma longest_run_suffix c (m r : string) :
  longest_run c r <= longest_run c (m +:+ r).
Proof.
  induction m as [|d m IH]; [done|]. rewrite append_cons.
  cbn [longest_run]. lia.
Qed.

Lemma run_prefix c (x b : string) : run c x <= run c (x +:+ b).
Proof.
  induction x as [|d x IH]; [simpl; lia|]. rewrite append_cons. simpl.
  destruct (Ascii.eqb c d); lia.
Qed.

Lemma longest_run_prefix c (x b : string) :
  longest_run c x <= longest_run c (x +:+ b).
Proof.
  induction x as [|d x IH]; [simpl; lia|].
  pose proof (run_prefix c (String d x) b) as H.
  rewrite append_cons in *. cbn [longest_run]. lia.
Qed.

Lemma longest_run_strip c (s : string) :
  longest_run c (Py.strip s) <= longest_run c s.
Proof.
  destruct (strip_decompose s) as (a & b & Hs & _). rewrite Hs at 2.
  etrans; [|apply longest_run_suffix]. apply longest_run_prefix.
Qed.

(** **** Runs of spaces *)

Lemma re_match_spaces c (s : string) :
  Py.re_match utils.SPACES (String c s)
  = if Ascii.eqb Py.SP c
    then Some (Py.drop_while (Ascii.eqb Py.SP) s) else None.
Proof.
  unfold utils.SPACES. cbn [Py.re_match].
  change (Py.re_match []) with (@Some string).
  by rewrite re_star_greedy.
Qed.

Lemma spaces_collapsed (s : string) :
  longest_run Py.SP (Py.re_sub utils.SPACES " " s) <= 1.
Proof.
  pose proof spaces_consuming as Hp. revert s.
  apply (re_sub_ind utils.SPACES); [done|simpl; lia| |].
  - intros c s r Hr IH. rewrite re_sub_cons, Hr by done.
    change (" " +:+ ?x) with (String Py.SP x).
    cbn [longest_run run]. rewrite Ascii.eqb_refl.
    rewrite run_first; [lia|].
    rewrite re_match_spaces in Hr.
    destruct (Ascii.eqb Py.SP c); [|done]. injection Hr as <-.
    set (r := Py.drop_while (Ascii.eqb Py.SP) s).
    assert (first_char r <> Some Py.SP) as Hr.
    { intros H. by apply drop_while_first in H. }
    rewrite first_char_re_sub; [done|done|].
    destruct r as [|d r]; [done|]. rewrite re_match_spaces.
    destruct (Ascii.eqb_spec Py.SP d) as [<-|]; [done|done].
  - intros c s Hr IH. rewrite re_sub_cons, Hr by done.
    rewrite re_match_spaces in Hr.
    cbn [longest_run run]. destruct (Ascii.eqb Py.SP c); [done|]. lia.
Qed.

(** **** Blank lines *)

Lemma blank_lines_start (s r : string) :
  Py.re_match utils.BLANK_LINES s = Some r -> first_char s = Some Py.LF.
Proof.
  intros H. apply re_match_item in H as (a & s1 & -> & [Ha Hlen] & _).
  destruct a as [|c [|d a]]; [done| |done]. cbn [Py.forallb_str] in Ha.
  rewrite andb_true_r in Ha. by apply Ascii.eqb_eq in Ha as <-.
Qed.

Lemma blank_lines_greedy (s r : string) :
  Py.re_match utils.BLANK_LINES s = Some r -> first_char r <> Some Py.LF.
Proof.
  intros H Hr.
  do 4 apply re_match_item in H as (? & ? & _ & _ & H).
  by apply (plus_greedy _ _ _ _ H) in Hr.
Qed.

Lemma blank_lines_extend (s : string) :
  is_Some (Py.re_match utils.BLANK_LINES s) ->
  is_Some (Py.re_match utils.BLANK_LINES (String Py.LF s)).
Proof.
  intros [r H]. apply re_match_sound in H as (m & -> & Hm).
  inversion Hm as [|? ? ? a1 m1 [Ha1 _] Hm1]; subst.
  inversion Hm1 as [|? ? ? a2 m2 [Ha2 _] Hm2]; subst.
  replace (String Py.LF ((a1 +:+ a2 +:+ m2) +:+ r))
    with ((String Py.LF "" +:+ (a1 +:+ a2) +:+ m2) +:+ r)
    by (by rewrite !append_assoc).
  apply re_match_complete.
  constructor; [done|]. constructor; [|done]. split; [|done].
  rewrite forallb_str_app, Ha2, andb_true_r.
  apply (forallb_str_impl (Ascii.eqb Py.LF)); [|done].
  intros c Hc. by apply Ascii.eqb_eq in Hc as <-.
Qed.

Lemma three_newlines_match (s : string) :
  is_Some (Py.re_match utils.BLANK_LINES
             (String Py.LF (String Py.LF (String Py.LF s)))).
Proof.
  set (nl := String Py.LF "").
  change (String Py.LF (String Py.LF (String Py.LF s)))
    with ((nl +:+ "" +:+ nl +:+ "" +:+ nl +:+ "") +:+ s).
  apply re_match_complete. by repeat constructor.
Qed.

Lemma blank_first (s : string) :
  first_char (Py.re_sub utils.BLANK_LINES NL2 s) = Some Py.LF ->
  first_char s = Some Py.LF.
Proof.
  destruct s as [|c s]; [done|].
  rewrite re_sub_cons by apply blank_lines_consuming.
  destruct (Py.re_match _ _) as [r|] eqn:E; [|done].
  intros _. by apply blank_lines_start in E.
Qed.

Lemma blank_run_after_newline (s : string) :
  Py.re_match utils.BLANK_LINES (String Py.LF s) = None ->
  run Py.LF (Py.re_sub utils.BLANK_LINES NL2 s) <= 1.
Proof.
  intros Hno. destruct s as [|c s]; [simpl; lia|].
  rewrite re_sub_cons by apply blank_lines_consuming.
  destruct (Py.re_match _ (String c s)) as [r|] eqn:E.
  { destruct (blank_lines_extend (String c s)) as [r' Hr']; [by eexists|].
    congruence. }
  cbn [run]. destruct (Ascii.eqb_spec Py.LF c) as [<-|]; [|lia].
  rewrite run_first; [lia|]. intros H. apply blank_first in H.
  destruct s as [|d s]; [done|]. injection H as ->.
  destruct (three_newlines_match s) as [r' Hr']. congruence.
Qed.

Lemma blank_run (s : string) :
  run Py.LF (Py.re_sub utils.BLANK_LINES NL2 s) <= 2.
Proof.
  destruct s as [|c s]; [simpl; lia|].
  rewrite re_sub_cons by apply blank_lines_consuming.
  destruct (Py.re_match _ (String c s)) as [r|] eqn:E.
  - change (NL2 +:+ ?x) with (String Py.LF (String Py.LF x)).
    cbn [run]. rewrite Ascii.eqb_refl. rewrite run_first; [lia|].
    intros H. apply blank_first in H. by apply blank_lines_greedy in E.
  - cbn [run]. destruct (Ascii.eqb_spec Py.LF c) as [<-|]; [|lia].
    apply blank_run_after_newline in E. lia.
Qed.

Lemma blank_lines_collapsed (s : string) :
  longest_run Py.LF (Py.re_sub utils.BLANK_LINES NL2 s) <= 2.
Proof.
  pose proof blank_lines_consuming as Hp. revert s.
  apply (re_sub_ind utils.BLANK_LINES); [done|simpl; lia| |].
  - intros c s r Hr IH. pose proof (blank_run (String c s)) as Hrun.
    rewrite re_sub_cons, Hr in * by done.
    change (NL2 +:+ ?x) with (String Py.LF (String Py.LF x)) in *.
    cbn [longest_run]. cbn [run] in *. rewrite Ascii.eqb_refl in *. lia.
  - intros c s Hr IH. pose proof (blank_run (String c s)) as Hrun.
    rewrite re_sub_cons, Hr in * by done. cbn [longest_run]. lia.
Qed.

(** Collapsing blank lines makes no run of spaces longer. *)
Lemma blank_keeps_spaces (s : string) :
  run Py.SP (Py.re_sub utils.BLANK_LINES NL2 s) <= run Py.SP s
  /\ longest_run Py.SP (Py.re_sub utils.BLANK_LINES NL2 s)
     <= longest_run Py.SP s.
Proof.
  pose proof blank_lines_consuming as Hp. revert s.
  apply (re_sub_ind utils.BLANK_LINES); [done|simpl; lia| |].
  - intros c s r Hr [_ IH]. rewrite re_sub_cons, Hr by done.
    change (NL2 +:+ ?x) with (String Py.LF (String Py.LF x)).
    apply re_match_sound in Hr as (m & Hs & _).
    pose proof (longest_run_suffix Py.SP m r) as Hsuf. rewrite <- Hs in Hsuf.
    cbn [longest_run run] in *.
    replace (Ascii.eqb Py.SP Py.LF) with false by done. lia.
  - intros c s Hr [IH1 IH2]. rewrite re_sub_cons, Hr by done.
    cbn [longest_run run]. destruct (Ascii.eqb Py.SP c); lia.
Qed.

(** **** The ends of a stripped string *)

Lemma last_char_rev (s : string) :
  last_char (Py.rev_str "" s) = first_char s.
Proof.
  destruct s as [|c s]; [done|]. cbn [Py.rev_str first_char].
  rewrite rev_str_acc. by rewrite last_char_append.
Qed.

Lemma first_char_rev (s : string) :
  first_char (Py.rev_str "" s) = last_char s.
Proof.
  destruct (last_char s) as [c|] eqn:E.
  - by destruct (rev_str_head "" s c E) as [r ->].
  - destruct s as [|c s]; [done|]. exfalso. revert c E.
    induction s as [|d s IH]; intros c E; [done|].
    cbn [last_char] in E. by apply (IH d).
Qed.

Lemma last_char_drop_while q (s : string) c :
  last_char (Py.drop_while q s) = Some c -> last_char s = Some c.
Proof.
  induction s as [|d s IH]; [done|]. cbn [Py.drop_while].
  destruct (q d); [|done]. intros H. pose proof (IH H) as Hs.
  cbn [last_char]. by destruct s.
Qed.

Lemma strip_ends (s : string) c :
  first_char (Py.strip s) = Some c \/ last_char (Py.strip s) = Some c ->
  Py.is_space c = false.
Proof.
  unfold Py.strip. cbv zeta. rewrite first_char_rev, last_char_rev.
  intros [H|H].
  - apply last_char_drop_while in H. rewrite last_char_rev in H.
    by apply drop_while_first in H.
  - by apply drop_while_first in H.
Qed.

Lemma clean_text_single_spaces (text : string) :
  longest_run Py.SP (utils.clean_text text) <= 1.
Proof.
  unfold utils.clean_text. cbv zeta.
  etrans; [apply longest_run_strip|].
  etrans; [apply (blank_keeps_spaces (Py.re_sub utils.SPACES " " text))|].
  apply spaces_collapsed.
Qed.

End shape_facts.

(** What [clean_text] returns has no two spaces in a row and no three
    newlines in a row, and neither starts nor ends with white space. *)
Theorem clean_text_shape (text : string) :
  let out := utils.clean_text text in
  longest_run Py.SP out <= 1
  /\ longest_run Py.LF out <= 2
  /\ (forall c, first_char out = Some c -> Py.is_space c = false)
  /\ (forall c, last_char out = Some c -> Py.is_space c = false).
Proof.
  cbv zeta. unfold utils.clean_text. cbv zeta.
  split; [|split; [|split]].
  - apply clean_text_single_spaces.
  - etrans; [apply longest_run_strip|]. apply blank_lines_collapsed.
  - intros c H. eapply strip_ends. left. exact H.
  - intros c H. eapply strip_ends. right. exact H.
Qed.

Section idempotence_facts.

(** The star takes the longest run after which the rest of the pattern
    matches. *)
Lemma re_star_longest cls (k : string -> option string) s r :
  Py.re_star cls k s = Some r ->
  exists a s1,
    s = a +:+ s1 /\ Py.forallb_str cls a = true /\ k s1 = Some r
    /\ forall a' s1',
         s = a' +:+ s1' -> Py.forallb_str cls a' = true ->
         String.length a < String.length a' -> k s1' = None.
Proof.
  revert r. induction s as [|c s IH]; intros r; cbn [Py.re_star]; intros H.
  - exists "", "". repeat split; [done|].
    intros [|d a'] s1' Hs _ Hlen; [simpl in Hlen; lia|done].
  - assert (cls c = false \/ Py.re_star cls k s = None ->
            k (String c s) = Some r ->
            exists a s1,
              String c s = a +:+ s1 /\ Py.forallb_str cls a = true
              /\ k s1 = Some r
              /\ forall a' s1',
                   String c s = a' +:+ s1' ->
                   Py.forallb_str cls a' = true ->
                   String.length a < String.length a' -> k s1' = None)
      as Hstop.
    { intros Hno Hk. exists "", (String c s). repeat split; [done|].
      intros [|d a'] s1' Hs Ha' Hlen; [simpl in Hlen; lia|].
      rewrite append_cons in Hs. injection Hs as <- ->.
      simpl in Ha'. apply andb_true_iff in Ha' as [Hc Ha'].
      destruct Hno as [Hno|Hno]; [congruence|].
      destruct (k s1') as [r'|] eqn:E; [|done].
      destruct (re_star_complete cls k a' s1' Ha') as [r'' Hr''];
        [by rewrite E|]. congruence. }
    destruct (cls c) eqn:Ec; [|by auto].
    destruct (Py.re_star cls k s) as [r'|] eqn:E; [|by auto].
    injection H as ->.
    destruct (IH r eq_refl) as (a & s1 & -> & Ha & Hk & Hmax).
    exists (String c a), s1. rewrite append_cons. split; [done|].
    split; [simpl; by rewrite Ec|]. split; [done|].
    intros [|d a'] s1' Hs Ha' Hlen; [simpl in Hlen; lia|].
    rewrite append_cons in Hs. injection Hs as <- Hs.
    simpl in Ha'. apply andb_true_iff in Ha' as [_ Ha'].
    apply (Hmax a' s1' Hs Ha'). simpl in Hlen. lia.
Qed.

Lemma lead_split (r : string) :
  1 <= lead_newlines r ->
  exists z r',
    r = z +:+ String Py.LF r' /\ Py.forallb_str Py.is_space z = true
    /\ lead_newlines r = S (lead_newlines r').
Proof.
  induction r as [|c r IH]; cbn [lead_newlines]; [lia|].
  destruct (Py.is_space c) eqn:Ec; [|lia].
  destruct (Ascii.eqb_spec Py.LF c) as [<-|Hc]; intros H.
  - by exists "", r.
  - destruct (IH H) as (z & r' & -> & Hz & Hlead).
    exists (String c z), r'. rewrite append_cons. split; [done|].
    split; [simpl; by rewrite Ec|done].
Qed.

Lemma lead_skip (a rest : string) :
  Py.forallb_str Py.is_space a = true ->
  lead_newlines rest <= lead_newlines (a +:+ rest).
Proof.
  intros Ha. induction a as [|c a IH]; [done|].
  simpl in Ha. apply andb_true_iff in Ha as [Hc Ha].
  rewrite append_cons. cbn [lead_newlines]. rewrite Hc.
  specialize (IH Ha). lia.
Qed.

Lemma lead_prefix (x b : string) :
  lead_newlines x <= lead_newlines (x +:+ b).
Proof.
  induction x as [|c x IH]; [simpl; lia|]. rewrite append_cons.
  cbn [lead_newlines]. destruct (Py.is_space c); lia.
Qed.

Lemma lead_newline (s : string) :
  lead_newlines (String Py.LF s) = S (lead_newlines s).
Proof. done. Qed.

Lemma newlines_are_space (a : string) :
  Py.forallb_str (Ascii.eqb Py.LF) a = true ->
  Py.forallb_str Py.is_space a = true.
Proof.
  apply forallb_str_impl. intros c Hc. by apply Ascii.eqb_eq in Hc as <-.
Qed.

Lemma single_newline (a : string) :
  item_matches (Ascii.eqb Py.LF) Py.One a -> a = String Py.LF "".
Proof.
  intros [Ha Hlen]. destruct a as [|c [|d a]]; [done| |done].
  cbn [Py.forallb_str] in Ha. rewrite andb_true_r in Ha.
  by apply Ascii.eqb_eq in Ha as <-.
Qed.

Lemma some_newlines (a : string) :
  item_matches (Ascii.eqb Py.LF) Py.Plus a ->
  exists a', a = String Py.LF a' /\ Py.forallb_str Py.is_space a' = true.
Proof.
  intros [Ha Hlen]. destruct a as [|c a]; [simpl in Hlen; lia|].
  cbn [Py.forallb_str] in Ha. apply andb_true_iff in Ha as [Hc Ha].
  apply Ascii.eqb_eq in Hc as <-. exists a. split; [done|].
  by apply newlines_are_space.
Qed.

Lemma blank_lines_unfold c (s : string) :
  Py.re_match utils.BLANK_LINES (String c s)
  = if Ascii.eqb Py.LF c
    then Py.re_star Py.is_space
           (Py.re_match [(Ascii.eqb Py.LF, Py.One); (Py.is_space, Py.Star);
                         (Ascii.eqb Py.LF, Py.Plus)]) s
    else None.
Proof. done. Qed.

(** A match of the blank lines ends with the last newline of the white
    space it is in. *)
Lemma blank_lines_maximal (s r : string) :
  Py.re_match utils.BLANK_LINES s = Some r -> lead_newlines r = 0.
Proof.
  destruct s as [|c s2]; [done|]. rewrite blank_lines_unfold.
  destruct (Ascii.eqb Py.LF c); [|done].
  intros H. apply re_star_longest in H as (a2 & s3 & -> & Ha2 & Hk & Hmax).
  destruct (lead_newlines r) eqn:Hlead; [done|exfalso].
  destruct (lead_split r) as (z & r' & -> & Hz & _); [lia|].
  apply re_match_item in Hk as (a3 & s4 & -> & ->%single_newline & Hk).
  apply re_match_item in Hk as (a4 & s5 & -> & [Ha4 _] & Hk).
  apply re_match_item in Hk
    as (a5 & s6 & -> & (a5' & -> & Ha5)%some_newlines & [= ->]).
  set (p3 := [(Ascii.eqb Py.LF, Py.One); (Py.is_space, Py.Star);
              (Ascii.eqb Py.LF, Py.Plus)]) in *.
  assert (Py.re_match p3 (String Py.LF ((a5' +:+ z) +:+ String Py.LF r'))
          = None) as Hnone.
  { apply (Hmax (a2 +:+ String Py.LF "" +:+ a4)).
    - by rewrite !append_assoc.
    - by rewrite !forallb_str_app, Ha2, Ha4.
    - rewrite !length_append. simpl. lia. }
  destruct (re_match_complete p3
              (String Py.LF "" +:+ (a5' +:+ z) +:+ String Py.LF "" +:+ "")
              r') as [r'' Hr''].
  { constructor; [done|]. constructor.
    - split; [|done]. by rewrite forallb_str_app, Ha5, Hz.
    - constructor; [done|constructor]. }
  replace ((String Py.LF "" +:+ (a5' +:+ z) +:+ String Py.LF "" +:+ "")
           +:+ r')
    with (String Py.LF ((a5' +:+ z) +:+ String Py.LF r')) in Hr''
    by (by rewrite !append_assoc).
  congruence.
Qed.

Lemma blank_lines_match_iff (s : string) :
  is_Some (Py.re_match utils.BLANK_LINES s)
  <-> first_char s = Some Py.LF /\ 3 <= lead_newlines s.
Proof.
  split.
  - intros [r H]. split; [by apply blank_lines_start in H|].
    apply re_match_sound in H as (m & -> & Hm).
    inversion Hm as [|? ? ? a1 m1 Ha1 Hm1]; subst.
    inversion Hm1 as [|? ? ? a2 m2 [Ha2 _] Hm2]; subst.
    inversion Hm2 as [|? ? ? a3 m3 Ha3 Hm3]; subst.
    inversion Hm3 as [|? ? ? a4 m4 [Ha4 _] Hm4]; subst.
    inversion Hm4 as [|? ? ? a5 m5 Ha5 Hm5]; subst.
    apply single_newline in Ha1 as ->. apply single_newline in Ha3 as ->.
    apply some_newlines in Ha5 as (a5' & -> & _).
    rewrite !append_assoc.
    change (3 <= lead_newlines
                   (String Py.LF
                      (a2 +:+ String Py.LF
                                (a4 +:+ String Py.LF (a5' +:+ m5 +:+ r))))).
    rewrite lead_newline.
    pose proof (lead_skip a2 (String Py.LF
                                (a4 +:+ String Py.LF (a5' +:+ m5 +:+ r)))
                  Ha2) as H2.
    pose proof (lead_skip a4 (String Py.LF (a5' +:+ m5 +:+ r)) Ha4) as H4.
    rewrite lead_newline in H2, H4. lia.
  - intros [Hfirst Hlead]. destruct s as [|c s]; [done|].
    injection Hfirst as ->. rewrite lead_newline in Hlead.
    destruct (lead_split s) as (x & s1 & -> & Hx & Hs); [lia|].
    destruct (lead_split s1) as (y & s2 & -> & Hy & _); [lia|].
    replace (String Py.LF (x +:+ String Py.LF (y +:+ String Py.LF s2)))
      with ((String Py.LF "" +:+ x +:+ String Py.LF "" +:+ y
             +:+ String Py.LF "" +:+ "") +:+ s2)
      by (by rewrite !append_assoc).
    apply re_match_complete. by repeat constructor.
Qed.

Lemma blank_lead (s : string) :
  lead_newlines (Py.re_sub utils.BLANK_LINES NL2 s) <= lead_newlines s.
Proof.
  pose proof blank_lines_consuming as Hp. revert s.
  apply (re_sub_ind utils.BLANK_LINES); [done|done| |].
  - intros c s r Hr IH. rewrite re_sub_cons, Hr by done.
    change (NL2 +:+ ?x) with (String Py.LF (String Py.LF x)).
    rewrite !lead_newline. pose proof (blank_lines_maximal _ _ Hr).
    destruct (proj1 (blank_lines_match_iff (String c s))) as [_ H3];
      [by eexists|]. lia.
  - intros c s Hr IH. rewrite re_sub_cons, Hr by done.
    cbn [lead_newlines]. destruct (Py.is_space c); lia.
Qed.

Lemma blank_settled (s : string) :
  settled (Py.re_sub utils.BLANK_LINES NL2 s).
Proof.
  pose proof blank_lines_consuming as Hp. revert s.
  apply (re_sub_ind utils.BLANK_LINES); [done|done| |].
  - intros c s r Hr IH. rewrite re_sub_cons, Hr by done.
    change (NL2 +:+ ?x) with (String Py.LF (String Py.LF x)).
    pose proof (blank_lines_maximal _ _ Hr) as Hmax.
    pose proof (blank_lead r) as Hlead.
    cbn [settled]. rewrite !lead_newline.
    split; [lia|]. split; [lia|done].
  - intros c s Hr IH. rewrite re_sub_cons, Hr by done.
    cbn [settled]. split; [|done]. intros ->.
    rewrite lead_newline. pose proof (blank_lead s) as Hlead.
    destruct (Nat.le_gt_cases (lead_newlines (String Py.LF s)) 2)
      as [Hle|Hgt]; [rewrite lead_newline in Hle; lia|].
    destruct (proj2 (blank_lines_match_iff (String Py.LF s)))
      as [r' Hr']; [split; [done|lia]|]. congruence.
Qed.

Lemma blank_fixed (s : string) :
  settled s -> Py.re_sub utils.BLANK_LINES NL2 s = s.
Proof.
  pose proof blank_lines_consuming as Hp. revert s.
  apply (re_sub_ind utils.BLANK_LINES
           (fun s => settled s -> Py.re_sub utils.BLANK_LINES NL2 s = s));
    [done|done| |].
  - intros c s r Hr _ [Hc _]. exfalso.
    destruct (proj1 (blank_lines_match_iff (String c s))) as [[= ->] H3];
      [by eexists|]. specialize (Hc eq_refl). lia.
  - intros c s Hr IH [_ Hs]. rewrite re_sub_cons, Hr by done.
    by rewrite IH.
Qed.

Lemma settled_suffix (a x : string) : settled (a +:+ x) -> settled x.
Proof.
  induction a as [|c a IH]; [done|]. rewrite append_cons.
  intros [_ H]. by apply IH.
Qed.

Lemma settled_prefix (x b : string) : settled (x +:+ b) -> settled x.
Proof.
  induction x as [|c x IH]; [done|]. rewrite append_cons.
  cbn [settled]. intros [Hc H]. split; [|by apply IH].
  intros Heq. specialize (Hc Heq).
  pose proof (lead_prefix (String c x) b) as Hle.
  rewrite append_cons in Hle. lia.
Qed.

Lemma spaces_fixed (s : string) :
  longest_run Py.SP s <= 1 -> Py.re_sub utils.SPACES " " s = s.
Proof.
  pose proof spaces_consuming as Hp. revert s.
  apply (re_sub_ind utils.SPACES
           (fun s => longest_run Py.SP s <= 1 ->
                     Py.re_sub utils.SPACES " " s = s));
    [done|done| |].
  - intros c s r Hr IH Hrun. rewrite re_sub_cons, Hr by done.
    rewrite re_match_spaces in Hr.
    destruct (Ascii.eqb_spec Py.SP c) as [<-|]; [|done].
    injection Hr as <-. cbn [longest_run run] in Hrun.
    rewrite Ascii.eqb_refl in Hrun.
    assert (Py.drop_while (Ascii.eqb Py.SP) s = s) as Hs.
    { destruct s as [|d s]; [done|]. cbn [Py.drop_while].
      cbn [run] in Hrun. destruct (Ascii.eqb Py.SP d); [lia|done]. }
    rewrite Hs in *. rewrite IH by lia. done.
  - intros c s Hr IH Hrun. rewrite re_sub_cons, Hr by done.
    cbn [longest_run] in Hrun. rewrite IH by lia. done.
Qed.

Lemma strip_strip (s : string) : Py.strip (Py.strip s) = Py.strip s.
Proof.
  destruct (Py.strip s) as [|c r] eqn:E; [done|].
  destruct (last_char (String c r)) as [d|] eqn:Ed.
  - apply (strip_trimmed _ c r d); [done| |done|].
    + apply (strip_ends s). left. by rewrite E.
    + apply (strip_ends s). right. by rewrite E.
  - exfalso. clear E. revert c Ed.
    induction r as [|d r IH]; intros c Ed; [done|].
    cbn [last_char] in Ed. by apply (IH d).
Qed.

End idempotence_facts.

(** Cleaning a cleaned text changes nothing. *)
Theorem clean_text_idempotent (text : string) :
  utils.clean_text (utils.clean_text text) = utils.clean_text text.
Proof.
  pose proof (clean_text_single_spaces text) as Hsp.
  set (out := utils.clean_text text) in *.
  assert (settled out) as Hout.
  { unfold out, utils.clean_text. cbv zeta.
    set (t2 := Py.re_sub utils.BLANK_LINES _ _).
    destruct (strip_decompose t2) as (a & b & Ht2 & _).
    pose proof (blank_settled (Py.re_sub utils.SPACES " " text)) as H.
    change (settled t2) in H. rewrite Ht2 in H.
    by apply settled_suffix, settled_prefix in H. }
  unfold utils.clean_text at 1. cbv zeta.
  rewrite spaces_fixed by done.
  change (String Py.LF (String Py.LF "")) with NL2.
  rewrite (blank_fixed out Hout). apply strip_strip.
Qed.

(** ** The ingestion pipeline *)

Section pipeline_facts.

Lemma extract_pages_app l1 l2 i acc :
  ingest.extract_pages i (l1 ++ l2) acc
  = ingest.extract_pages (i + length l1) l2 (ingest.extract_pages i l1 acc).
Proof.
  revert i acc. induction l1 as [|e l1 IH]; intros i acc.
  - simpl. by rewrite Nat.add_0_r.
  - cbn [app ingest.extract_pages length]. rewrite IH. f_equal. lia.
Qed.

Lemma is_empty_iff (s : string) : Py.is_empty s = false <-> s <> "".
Proof. by destruct s. Qed.

(** The keys of the dictionary are the numbers, counted from 1, of the
    pages that have text; the values are the cleaned texts. *)
Lemma extract_lookup pages (n : Z) t :
  ingest.extract_text_from_pdf pages !! n = Some t
  <-> exists j raw,
        n = (Z.of_nat j + 1)%Z /\ pages !! j = Some (Some raw)
        /\ raw <> "" /\ t = utils.clean_text raw.
Proof.
  unfold ingest.extract_text_from_pdf.
  induction pages as [|e pages IH] using rev_ind.
  - simpl. rewrite lookup_empty. split; [done|].
    by intros (j & raw & _ & Hj & _).
  - rewrite extract_pages_app. cbn [ingest.extract_pages Nat.add].
    set (M := ingest.extract_pages 0 pages ∅) in *.
    assert (forall j raw,
              (pages ++ [e]) !! j = Some (Some raw)
              <-> pages !! j = Some (Some raw)
                  \/ (j = length pages /\ e = Some raw)) as Hsnoc.
    { intros j raw. rewrite lookup_app_Some, list_lookup_singleton_Some.
      split; [intros [?|(? & ? & ->)]|intros [?|[-> ->]]]; eauto.
      - right. split; [lia|done].
      - right. split; [lia|]. split; [lia|done]. }
    assert (M !! n = Some t ->
            (n <> Z.of_nat (length pages) + 1)%Z) as Hold.
    { intros HM. apply IH in HM as (j & raw & -> & Hj & _).
      apply lookup_lt_Some in Hj. lia. }
    assert ((exists j raw,
               n = (Z.of_nat j + 1)%Z /\ (pages ++ [e]) !! j = Some (Some raw)
               /\ raw <> "" /\ t = utils.clean_text raw)
            <-> M !! n = Some t
                \/ (exists raw, e = Some raw /\ raw <> ""
                     /\ n = (Z.of_nat (length pages) + 1)%Z
                     /\ t = utils.clean_text raw)) as ->.
    { split.
      - intros (j & raw & Hn & Hj & Hraw & Ht).
        apply Hsnoc in Hj as [Hj|[-> ->]].
        + left. apply IH. by exists j, raw.
        + right. by exists raw.
      - intros [HM|(raw & -> & Hraw & Hn & Ht)].
        + apply IH in HM as (j & raw & Hn & Hj & Hraw & Ht).
          exists j, raw. split; [done|]. split; [|done].
          apply Hsnoc. by left.
        + exists (length pages), raw. split; [done|]. split; [|done].
          apply Hsnoc. by right. }
    destruct e as [text|]; [destruct (Py.is_empty text) eqn:Htext|].
    + split; [by left|]. intros [HM|(raw & [= <-] & Hraw & _)]; [done|].
      by destruct text.
    + rewrite lookup_insert_Some. split.
      * intros [[<- <-]|[Hne HM]]; [right|by left].
        exists text. split; [done|]. split; [|done]. by apply is_empty_iff.
      * intros [HM|(raw & [= <-] & Hraw & -> & ->)]; [right|by left].
        split; [|done]. apply Hold in HM. lia.
    + split; [by left|]. by intros [HM|(raw & [=] & _)].
Qed.

Lemma configured_size : (0 <= config.CHUNK_SIZE_WORDS)%Z.
Proof. vm_compute. discriminate. Qed.

Lemma configured_step :
  (1 <= utils.step config.CHUNK_SIZE_WORDS config.OVERLAP_PERCENTAGE)%Z.
Proof. vm_compute. discriminate. Qed.

Lemma chunk_pages_returns page_texts pages st :
  (forall p, p ∈ pages -> is_Some (page_texts !! p)) ->
  exists st', ingest.chunk_pages page_texts pages st = Py.Ok st'.
Proof.
  revert st. induction pages as [|p pages IH]; intros st Hin; [by eexists|].
  cbn [ingest.chunk_pages].
  destruct (Hin p) as [t Ht]; [left|]. rewrite Ht. run_bind.
  destruct (configured_chunker_returns t p) as [cs Hcs].
  rewrite Hcs. run_bind. apply IH. intros q Hq. apply Hin. by right.
Qed.

(** [create_chunks] numbers the chunks of the pages, page after page,
    and raises when there is none. *)
Lemma create_chunks_structure page_texts :
  exists per_page,
    Forall2 (page_chunks_of page_texts) (ingest.sorted_keys page_texts)
      per_page
    /\ ingest.create_chunks page_texts
       = match concat per_page with
         | [] => Py.Raise Py.ZeroDivisionError
         | _ => Py.Ok (numbered_from 0 (concat per_page))
         end.
Proof.
  destruct (chunk_pages_returns page_texts (ingest.sorted_keys page_texts)
              ([], 0)) as [st Hst].
  { intros p. apply sorted_keys_spec. }
  pose proof Hst as Hrun.
  apply chunk_pages_spec in Hst as (per_page & Hall & ->).
  exists per_page. split; [done|]. unfold ingest.create_chunks.
  rewrite Hrun. run_bind. cbn [fst app]. by destruct (concat per_page).
Qed.

(** Every chunk of a page of the extracted text is a window of the words
    of the page as the PDF library gave it. *)
Lemma page_chunk_from_page pages p cs k c :
  page_chunks_of (ingest.extract_text_from_pdf pages) p cs ->
  cs !! k = Some c ->
  chunk_from_page pages c /\ chunk_id c = None /\ page c = p.
Proof.
  intros (page_text & Hp & Hrun) Hk.
  apply extract_lookup in Hp as (j & raw & -> & Hj & Hraw & ->).
  pose proof (split_clean_text raw) as Hwords.
  destruct (chunk_is_window _ _ _ _ _ _ _ configured_size configured_step
              Hrun Hk)
    as [-> Hmin].
  rewrite Hwords in Hmin |- *. split; [|done].
  exists j, raw, k. rewrite words_of_chunk_of. done.
Qed.

Lemma numbered_from_lookup n cs i c :
  numbered_from n cs !! i = Some c
  <-> exists c0, cs !! i = Some c0 /\ c = set_chunk_id c0 (n + i).
Proof.
  unfold numbered_from. rewrite list_lookup_imap.
  destruct (cs !! i) as [c0|]; simpl; [|split; [done|by intros (? & ? & _)]].
  split; [intros [= <-]; by eexists|by intros (? & [= <-] & ->)].
Qed.

Lemma chunk_from_page_id pages c i :
  chunk_from_page pages c -> chunk_from_page pages (set_chunk_id c i).
Proof. done. Qed.

Lemma elem_of_concat {A} (ls : list (list A)) (x : A) :
  x ∈ concat ls <-> exists l, l ∈ ls /\ x ∈ l.
Proof.
  induction ls as [|l ls IH]; simpl.
  - split; [by intros ?%elem_of_nil|by intros (? & ?%elem_of_nil & _)].
  - rewrite elem_of_app, IH. split.
    + intros [Hx|(l' & Hl' & Hx)]; [exists l|exists l'];
        (split; [|done]); [by left|by right].
    + intros (l' & [->|Hl']%elem_of_cons & Hx); [by left|right; eauto].
Qed.

Lemma Forall2_elem_r {A B} (R : A -> B -> Prop) l k y :
  Forall2 R l k -> y ∈ k -> exists x, x ∈ l /\ R x y.
Proof.
  intros H Hy. apply list_elem_of_lookup_1 in Hy as [i Hi].
  destruct (Forall2_lookup_r _ _ _ _ _ H Hi) as (x & Hx & HR).
  exists x. split; [|done]. by apply list_elem_of_lookup_2 in Hx.
Qed.

Lemma Forall2_elem_l {A B} (R : A -> B -> Prop) l k x :
  Forall2 R l k -> x ∈ l -> exists y, y ∈ k /\ R x y.
Proof.
  intros H Hx. apply list_elem_of_lookup_1 in Hx as [i Hi].
  destruct (Forall2_lookup_l _ _ _ _ _ H Hi) as (y & Hy & HR).
  exists y. split; [|done]. by apply list_elem_of_lookup_2 in Hy.
Qed.

(** A page with enough words gives at least one chunk. *)
Lemma first_chunk_exists page_text p cs :
  config.MIN_CHUNK_SIZE <= length (Py.split page_text) ->
  utils.chunk_text_with_overlap page_text p
    config.CHUNK_SIZE_WORDS config.OVERLAP_PERCENTAGE = Py.Ok cs ->
  cs <> [].
Proof.
  intros Hlen Hrun.
  destruct (proj2 (chunk_lookup_iff _ _ _ _ _ 0 configured_size configured_step
                     Hrun)) as [c Hc]; [|by intros ->].
  rewrite length_window. unfold config.MIN_CHUNK_SIZE in *.
  change (Z.to_nat config.CHUNK_SIZE_WORDS) with 350. lia.
Qed.

(** What [main] saves: the numbered chunks of the pages. *)
Lemma main_saved normalize_L2 encode pages index metadata :
  ingest.main normalize_L2 encode pages
  = Py.Ok (ingest.Saved index metadata) ->
  index = map normalize_L2 (map encode (map text metadata))
  /\ metadata <> []
  /\ exists per_page,
       Forall2 (page_chunks_of (ingest.extract_text_from_pdf pages))
         (ingest.sorted_keys (ingest.extract_text_from_pdf pages)) per_page
       /\ metadata = numbered_from 0 (concat per_page).
Proof.
  unfold ingest.main. cbv zeta. intros H.
  destruct (decide (ingest.extract_text_from_pdf pages = ∅)); [done|].
  apply bind_Ok in H as (chunks & Hchunks & H).
  destruct chunks as [|c cs]; [done|]. injection H as <- <-.
  split; [done|]. split; [done|].
  destruct (create_chunks_structure (ingest.extract_text_from_pdf pages))
    as (per_page & Hall & Hcc).
  exists per_page. split; [done|]. rewrite Hcc in Hchunks.
  destruct (concat per_page); [done|]. congruence.
Qed.

End pipeline_facts.

(** [extract_text_from_pdf] keeps the pages that have text, under their
    number counted from 1, each with its text cleaned. *)
Theorem extract_text_from_pdf_pages pages (n : Z) t :
  ingest.extract_text_from_pdf pages !! n = Some t
  <-> (1 <= n <= Z.of_nat (length pages))%Z
      /\ exists raw,
           pages !! Z.to_nat (n - 1) = Some (Some raw)
           /\ raw <> "" /\ t = utils.clean_text raw.
Proof.
  rewrite extract_lookup. split.
  - intros (j & raw & -> & Hj & Hraw & ->).
    pose proof (lookup_lt_Some _ _ _ Hj) as Hlt. split; [lia|].
    exists raw. by replace (Z.to_nat (Z.of_nat j + 1 - 1)) with j by lia.
  - intros (Hn & raw & Hj & Hraw & ->).
    exists (Z.to_nat (n - 1)), raw. split; [lia|done].
Qed.

(** The ways [main] can end. It returns early when no page has text; it
    raises, in the summary of [create_chunks], when some page has text
    but none has enough words for a chunk; otherwise it saves an index.
    Its own test for an empty chunk list never fires. *)
Theorem main_outcomes normalize_L2 encode pages :
  match ingest.main normalize_L2 encode pages with
  | Py.Ok ingest.NoText =>
      forall raw, Some raw ∈ pages -> raw = ""
  | Py.Ok ingest.NoChunks => False
  | Py.Ok (ingest.Saved _ _) =>
      exists raw,
        Some raw ∈ pages
        /\ config.MIN_CHUNK_SIZE <= length (Py.split raw)
  | Py.Raise e =>
      e = Py.ZeroDivisionError
      /\ (exists raw, Some raw ∈ pages /\ raw <> "")
      /\ forall raw,
           Some raw ∈ pages ->
           length (Py.split raw) < config.MIN_CHUNK_SIZE
  end.
Proof.
  destruct (ingest.main normalize_L2 encode pages) as [[| |index metadata]|e]
    eqn:Hmain.
  - unfold ingest.main in Hmain. cbv zeta in Hmain.
    destruct (decide (ingest.extract_text_from_pdf pages = ∅)) as [He|].
    + intros raw Hraw. apply list_elem_of_lookup_1 in Hraw as [j Hj].
      destruct (decide (raw = "")) as [|Hne]; [done|exfalso].
      assert (ingest.extract_text_from_pdf pages !! (Z.of_nat j + 1)%Z
              = Some (utils.clean_text raw)) as Hlook.
      { apply extract_lookup. by exists j, raw. }
      by rewrite He, lookup_empty in Hlook.
    + apply bind_Ok in Hmain as (chunks & _ & H). by destruct chunks.
  - unfold ingest.main in Hmain. cbv zeta in Hmain.
    destruct (decide (ingest.extract_text_from_pdf pages = ∅)); [done|].
    apply bind_Ok in Hmain as (chunks & Hchunks & H).
    destruct chunks as [|c cs]; [|done]. unfold ingest.create_chunks in Hchunks.
    apply bind_Ok in Hchunks as (st & _ & Hst). by destruct st.1.
  - apply main_saved in Hmain as (_ & Hne & per_page & Hall & ->).
    destruct (concat per_page) as [|c0 l] eqn:E; [done|].
    assert (c0 ∈ concat per_page) as Hc0 by (rewrite E; left).
    apply elem_of_concat in Hc0 as (cs & Hcs & Hc0).
    apply list_elem_of_lookup_1 in Hc0 as [k Hk].
    destruct (Forall2_elem_r _ _ _ _ Hall Hcs) as (p & _ & Hp).
    destruct (page_chunk_from_page _ _ _ _ _ Hp Hk)
      as [(j & raw & k' & _ & Hj & Hwin & _ & Hmin) _].
    exists raw. split; [by apply list_elem_of_lookup_2 in Hj|].
    rewrite Hwin, length_window in Hmin. lia.
  - unfold ingest.main in Hmain. cbv zeta in Hmain.
    destruct (decide (ingest.extract_text_from_pdf pages = ∅)) as [|Hne];
      [done|].
    destruct (create_chunks_structure (ingest.extract_text_from_pdf pages))
      as (per_page & Hall & Hcc).
    rewrite Hcc in Hmain.
    destruct (concat per_page) as [|c0 l] eqn:E; [|done].
    injection Hmain as <-. split; [done|]. split.
    + apply map_choose in Hne as (n & t & Hn).
      apply extract_lookup in Hn as (j & raw & _ & Hj & Hraw & _).
      exists raw. split; [|done]. by apply list_elem_of_lookup_2 in Hj.
    + intros raw Hraw. apply list_elem_of_lookup_1 in Hraw as [j Hj].
      destruct (decide (raw = "")) as [->|Hne']; [vm_compute; lia|].
      destruct (Nat.lt_ge_cases (length (Py.split raw))
                  config.MIN_CHUNK_SIZE) as [|Hlen]; [done|exfalso].
      assert (ingest.extract_text_from_pdf pages !! (Z.of_nat j + 1)%Z
              = Some (utils.clean_text raw)) as Hlook.
      { apply extract_lookup. by exists j, raw. }
      assert ((Z.of_nat j + 1)%Z
              ∈ ingest.sorted_keys (ingest.extract_text_from_pdf pages))
        as Hkey by (apply sorted_keys_spec; by eexists).
      destruct (Forall2_elem_l _ _ _ _ Hall Hkey)
        as (cs & Hcs & page_text & Hp & Hrun).
      rewrite Hlook in Hp. injection Hp as <-.
      apply first_chunk_exists in Hrun; [|by rewrite split_clean_text].
      assert (forall c, c ∈ cs -> False) as Hnone.
      { intros c Hc. assert (c ∈ concat per_page) as Hin
          by (apply elem_of_concat; eauto).
        rewrite E in Hin. by apply elem_of_nil in Hin. }
      destruct cs as [|c cs]; [done|]. apply (Hnone c). left.
Qed.

Lemma main_outcomes_witness :
  ingest.main id demo.encode [None; Some "Too short."]
  = Py.Raise Py.ZeroDivisionError
  /\ forall raw,
       Some raw ∈ [None; Some "Too short."] ->
       length (Py.split raw) < config.MIN_CHUNK_SIZE.
Proof.
  assert (ingest.main id demo.encode [None; Some "Too short."]
          = Py.Raise Py.ZeroDivisionError) as E by (vm_compute; reflexivity).
  split; [exact E|].
  pose proof (main_outcomes id demo.encode [None; Some "Too short."]) as H.
  rewrite E in H. exact (proj2 (proj2 H)).
Defined.

(** What [main] saves is aligned: row [i] of the index is the
    normalised encoding of the text of record [i] of the metadata, and
    record [i] carries the id [i]. Every record is a chunk of one page of
    the document, and the records are in page order. *)
Theorem ingested_index normalize_L2 encode pages index metadata :
  ingest.main normalize_L2 encode pages
  = Py.Ok (ingest.Saved index metadata) ->
  metadata <> []
  /\ length index = length metadata
  /\ (forall i c,
        metadata !! i = Some c ->
        chunk_id c = Some i
        /\ index !! i = Some (normalize_L2 (encode (text c)))
        /\ chunk_from_page pages c)
  /\ StronglySorted Z.le (map page metadata).
Proof.
  intros H. apply main_saved in H as (-> & Hne & per_page & Hall & ->).
  split; [done|]. split; [by rewrite !length_map|]. split.
  - intros i c Hi. pose proof Hi as Hc.
    apply numbered_from_lookup in Hc as (c0 & Hc0 & ->).
    split; [done|]. split.
    { rewrite !list_lookup_fmap, Hi. done. }
    apply chunk_from_page_id.
    apply list_elem_of_lookup_2, elem_of_concat in Hc0 as (cs & Hcs & Hc0).
    apply list_elem_of_lookup_1 in Hc0 as [k Hk].
    destruct (Forall2_elem_r _ _ _ _ Hall Hcs) as (p & _ & Hp).
    by destruct (page_chunk_from_page _ _ _ _ _ Hp Hk).
  - assert (map page (numbered_from 0 (concat per_page))
            = map page (concat per_page)) as ->.
    { unfold numbered_from. apply list_eq. intros i.
      rewrite !list_lookup_fmap, list_lookup_imap.
      by destruct (concat per_page !! i). }
    destruct (sorted_keys_spec (ingest.extract_text_from_pdf pages))
      as [Hsorted _].
    clear Hne. revert Hall Hsorted.
    generalize (ingest.sorted_keys (ingest.extract_text_from_pdf pages)).
    intros keys Hall. induction Hall as [|p cs keys per_page Hp Hall IH];
      intros Hsorted; [constructor|].
    apply StronglySorted_cons in Hsorted as [Hlt Hsorted].
    cbn [concat]. rewrite map_app. apply StronglySorted_app_2.
    + intros x1 x2 Hx1 Hx2.
      apply list_elem_of_fmap in Hx1 as (c1 & -> & Hc1).
      apply list_elem_of_fmap in Hx2 as (c2 & -> & Hc2).
      apply list_elem_of_lookup_1 in Hc1 as [k1 Hk1].
      destruct (page_chunk_from_page _ _ _ _ _ Hp Hk1) as (_ & _ & ->).
      apply elem_of_concat in Hc2 as (cs2 & Hcs2 & Hc2).
      apply list_elem_of_lookup_1 in Hc2 as [k2 Hk2].
      destruct (Forall2_elem_r _ _ _ _ Hall Hcs2) as (p2 & Hp2 & Hpc2).
      destruct (page_chunk_from_page _ _ _ _ _ Hpc2 Hk2) as (_ & _ & ->).
      rewrite Forall_forall in Hlt. specialize (Hlt p2 Hp2). lia.
    + assert (Forall (fun c => page c = p) cs) as Hcs.
      { apply Forall_forall. intros c Hc.
        apply list_elem_of_lookup_1 in Hc as [k Hk].
        by destruct (page_chunk_from_page _ _ _ _ _ Hp Hk) as (_ & _ & ->). }
      clear -Hcs. induction Hcs as [|c cs Hc Hcs IH]; [constructor|].
      cbn [map]. constructor; [done|].
      apply Forall_forall. intros x Hx.
      apply list_elem_of_fmap in Hx as (c' & -> & Hc').
      rewrite Forall_forall in Hcs. rewrite (Hcs c' Hc'), Hc. lia.
    + by apply IH.
Qed.

Lemma ingested_index_witness :
  ingest.main id demo.encode demo.scanned
  = Py.Ok (ingest.Saved demo.scanned_index demo.scanned_chunks)
  /\ map page demo.scanned_chunks = [1; 3]%Z
  /\ length demo.scanned_index = length demo.scanned_chunks
  /\ forall i c, demo.scanned_chunks !! i = Some c -> chunk_id c = Some i.
Proof.
  assert (ingest.main id demo.encode demo.scanned
          = Py.Ok (ingest.Saved demo.scanned_index demo.scanned_chunks))
    as H by (vm_compute; reflexivity).
  split; [exact H|]. split; [vm_compute; reflexivity|].
  destruct (ingested_index id _ _ _ _ H) as (_ & Hlen & Hrec & _).
  split; [exact Hlen|]. intros i c Hi. exact (proj1 (Hrec i c Hi)).
Defined.


(** The assistant that loads what [main] saved answers every question:
    [ask] returns, it does not raise. *)
Theorem ingested_assistant_answers normalize_L2 encode pages index metadata
    question log :
  ingest.main normalize_L2 encode pages
  = Py.Ok (ingest.Saved index metadata) ->
  exists r log',
    ask.ask normalize_L2 (ask.mkAssistant index metadata encode)
      question log
    = Py.Ok (r, log').
Proof.
  intros H. apply main_saved in H as (-> & Hne & _).
  set (self := ask.mkAssistant _ metadata encode).
  destruct (retrieve_returns normalize_L2 self question None)
    as [retrieved Hret]; [by cbn; rewrite !length_map|done|].
  destruct (ask_cases normalize_L2 self question log retrieved Hret)
    as [[_ Hask]|[_ (first & rest & top & _ & _ & Hask)]];
    rewrite Hask; eauto.
Qed.

Lemma ingested_assistant_answers_witness :
  ingest.main id demo.encode demo.scanned
  = Py.Ok (ingest.Saved demo.scanned_index demo.scanned_chunks)
  /\ exists r log',
       ask.ask id
         (ask.mkAssistant demo.scanned_index demo.scanned_chunks demo.encode)
         "Which sides?" []
       = Py.Ok (r, log').
Proof.
  assert (ingest.main id demo.encode demo.scanned
          = Py.Ok (ingest.Saved demo.scanned_index demo.scanned_chunks))
    as H by (vm_compute; reflexivity).
  split; [exact H|].
  exact (ingested_assistant_answers id _ _ _ _ "Which sides?" [] H).
Defined.

(** ** The assistant that matches words *)

Section simple_facts.

Lemma ratio_bounds (a b : nat) :
  a <= b -> (0 <= inject_Z (Z.of_nat a) / inject_Z (Z.of_nat b) <= 1)%Q.
Proof.
  intros Hab. destruct b as [|b].
  - assert (a = 0) as -> by lia. by vm_compute.
  - assert (0 < inject_Z (Z.of_nat (S b)))%Q as Hb
      by (rewrite <- (Zlt_Qlt 0); lia).
    split.
    + apply Qle_shift_div_l; [done|]. rewrite Qmult_0_l.
      rewrite <- (Zle_Qle 0). lia.
    + apply Qle_shift_div_r; [done|]. rewrite Qmult_1_l.
      rewrite <- Zle_Qle. lia.
Qed.

Lemma ratio_pos (a b : nat) :
  a <= b -> (0 < inject_Z (Z.of_nat a) / inject_Z (Z.of_nat b))%Q <-> 0 < a.
Proof.
  intros Hab. split.
  - intros H. destruct a as [|a]; [|lia]. exfalso.
    unfold Qdiv in H. rewrite Qmult_0_l in H. by apply Qlt_irrefl in H.
  - intros Ha. apply Qlt_shift_div_l.
    + rewrite <- (Zlt_Qlt 0). lia.
    + rewrite Qmult_0_l. rewrite <- (Zlt_Qlt 0). lia.
Qed.

Lemma share_bounds query text : (0 <= share query text <= 1)%Q.
Proof. apply ratio_bounds, subseteq_size, intersection_subseteq_l. Qed.

Lemma share_pos query text :
  (0 < share query text)%Q <-> shares_word query text.
Proof.
  unfold share.
  rewrite ratio_pos by apply subseteq_size, intersection_subseteq_l.
  unfold shares_word, app_simple.word_set. split.
  - intros H. apply size_pos_elem_of in H as [w Hw].
    exists w. set_solver.
  - intros (w & Hq & Ht).
    destruct (decide (size (list_to_set (Py.split (Py.lower query))
                            ∩ list_to_set (Py.split (Py.lower text))
                            : gset string) = 0)) as [H0|]; [|lia].
    apply size_empty_iff in H0. set_solver.
Qed.

Lemma scored_spec query (m : Chunk) :
  app_simple.scored (Py.lower query) m
  = if Py.Qltb 0 (share query (text m))
    then Some (set_score m (share query (text m)), share query (text m))
    else None.
Proof.
  unfold app_simple.scored, share. cbv zeta.
  destruct (decide (app_simple.word_set (Py.lower query) = ∅)) as [->|];
    [|done].
  by rewrite (left_absorb_L ∅ (∩)), size_empty.
Qed.

Lemma insert_by_score_perm x l :
  app_simple.insert_by_score x l ≡ₚ x :: l.
Proof.
  induction l as [|y l IH]; [done|]. cbn [app_simple.insert_by_score].
  destruct (Py.Qltb x.2 y.2); [|done]. rewrite IH. apply Permutation_swap.
Qed.

Lemma sort_by_score_perm l : app_simple.sort_by_score l ≡ₚ l.
Proof.
  induction l as [|x l IH]; [done|]. cbn [app_simple.sort_by_score foldr].
  rewrite insert_by_score_perm. by constructor.
Qed.

Lemma insert_by_score_sorted x l :
  StronglySorted by_score l ->
  StronglySorted by_score (app_simple.insert_by_score x l).
Proof.
  induction 1 as [|y l Hl IH Hy]; [repeat constructor|].
  cbn [app_simple.insert_by_score].
  destruct (Py.Qltb x.2 y.2) eqn:E.
  - apply Qltb_lt in E. constructor; [done|].
    rewrite insert_by_score_perm. constructor; [|done].
    by apply Qlt_le_weak.
  - apply Qltb_ge in E. constructor; [by constructor|].
    constructor; [done|]. eapply Forall_impl; [exact Hy|].
    intros z Hz. unfold by_score in *. by apply (Qle_trans _ y.2).
Qed.

Lemma sort_by_score_sorted l :
  StronglySorted by_score (app_simple.sort_by_score l).
Proof.
  induction l as [|x l IH]; [constructor|].
  by apply insert_by_score_sorted.
Qed.

Lemma slice_prefix {A} (l : list A) (k : Z) :
  exists n, Py.slice l 0 k = take n l /\ ((0 <= k)%Z -> n = Z.to_nat k).
Proof.
  destruct (Z.le_gt_cases 0 k) as [Hk|Hk].
  - exists (Z.to_nat k). split; [|done].
    by rewrite <- (Z.add_0_l k), slice_from at 1 by lia.
  - exists (Z.to_nat (Py.clamp (Py.len l) k)). split; [|lia].
    unfold Py.slice. cbv zeta.
    replace (Py.clamp (Py.len l) 0) with 0%Z
      by (unfold Py.clamp, Py.len; simpl; lia).
    by rewrite Z.sub_0_r.
Qed.

(** The scored chunks are the records that share a word with the query,
    each with its share as score. *)
Lemma scored_chunks_elem query (metadata : list Chunk) (x : Chunk * Q) :
  x ∈ omap (app_simple.scored (Py.lower query)) metadata
  <-> exists m,
        m ∈ metadata /\ (0 < share query (text m))%Q
        /\ x = (set_score m (share query (text m)), share query (text m)).
Proof.
  rewrite list_elem_of_omap. split.
  - intros (m & Hm & Hx). exists m. split; [done|].
    rewrite scored_spec in Hx.
    destruct (Py.Qltb 0 (share query (text m))) eqn:E; [|done].
    apply Qltb_lt in E. by injection Hx as <-.
  - intros (m & Hm & Hpos & ->). exists m. split; [done|].
    rewrite scored_spec. apply Qltb_lt in Hpos. by rewrite Hpos.
Qed.

Lemma sorted_chunks_elem query (metadata : list Chunk) (x : Chunk * Q) :
  x ∈ app_simple.sort_by_score
        (omap (app_simple.scored (Py.lower query)) metadata)
  <-> exists m,
        m ∈ metadata /\ (0 < share query (text m))%Q
        /\ x = (set_score m (share query (text m)), share query (text m)).
Proof. by rewrite sort_by_score_perm, scored_chunks_elem. Qed.

Lemma length_omap_le {A B} (f : A -> option B) (l : list A) :
  length (omap f l) <= length l.
Proof.
  induction l as [|x l IH]; [done|]. cbn [omap list_omap length].
  destruct (f x); cbn [length]; fold (omap f l); lia.
Qed.

Lemma scores_of_fst (l : list (Chunk * Q)) :
  (forall x, x ∈ l -> score x.1 = Some x.2) ->
  scores_of (map fst l) = map snd l.
Proof.
  unfold scores_of. induction l as [|x l IH]; intros H; [done|].
  cbn [map omap list_omap]. rewrite (H x) by left.
  f_equal. apply IH. intros y Hy. apply H. by right.
Qed.

Lemma sorted_head (h : Chunk * Q) l x :
  StronglySorted by_score (h :: l) -> x ∈ h :: l -> (x.2 <= h.2)%Q.
Proof.
  intros [Hh _]%StronglySorted_cons [->|Hx]%elem_of_cons;
    [apply Qle_refl|].
  rewrite Forall_forall in Hh. by apply Hh.
Qed.

(** For a positive [top_k], the first chunk returned is the first of the
    sorted sequence. *)
Lemma simple_retrieve_head self query (top_k : Z) :
  (0 < top_k)%Z ->
  match app_simple.sort_by_score
          (omap (app_simple.scored (Py.lower query))
                (app_simple.metadata self)) with
  | [] => app_simple.simple_retrieve self query top_k = []
  | h :: _ =>
      exists rest,
        app_simple.simple_retrieve self query top_k = h.1 :: rest
  end.
Proof.
  intros Hk. unfold app_simple.simple_retrieve. cbv zeta.
  destruct (slice_prefix
              (app_simple.sort_by_score
                 (omap (app_simple.scored (Py.lower query))
                       (app_simple.metadata self))) top_k)
    as (n & -> & Hn).
  destruct (app_simple.sort_by_score _) as [|h l]; [by destruct n|].
  destruct n as [|n]; [lia|]. by eexists.
Qed.

End simple_facts.

(** Every chunk [simple_retrieve] returns is a record of the metadata
    that has a word of the query, case apart; its score is the share of
    the query's words it has. *)
Theorem simple_retrieve_members self query top_k c :
  c ∈ app_simple.simple_retrieve self query top_k ->
  exists m,
    m ∈ app_simple.metadata self
    /\ c = set_score m (share query (text m))
    /\ (0 < share query (text m) <= 1)%Q
    /\ shares_word query (text m).
Proof.
  unfold app_simple.simple_retrieve. cbv zeta.
  destruct (slice_prefix
              (app_simple.sort_by_score
                 (omap (app_simple.scored (Py.lower query))
                       (app_simple.metadata self))) top_k)
    as (n & -> & _).
  intros ([c' s] & -> & Hx)%list_elem_of_fmap.
  apply subseteq_take, sorted_chunks_elem in Hx as (m & Hm & Hpos & [= -> ->]).
  exists m. split; [done|]. split; [done|]. split.
  - split; [done|]. apply share_bounds.
  - by apply share_pos.
Qed.

Lemma simple_retrieve_members_witness :
  app_simple.simple_retrieve demo.simple "the LAST page" 5
  = demo.last_page_found
  /\ exists c m,
       demo.last_page_found !! 0 = Some c
       /\ m ∈ app_simple.metadata demo.simple
       /\ c = set_score m (share "the LAST page" (text m))
       /\ shares_word "the LAST page" (text m).
Proof.
  assert (app_simple.simple_retrieve demo.simple "the LAST page" 5
          = demo.last_page_found) as E by (vm_compute; reflexivity).
  split; [exact E|].
  destruct (demo.last_page_found !! 0) as [c|] eqn:Ec; [|discriminate Ec].
  assert (c ∈ app_simple.simple_retrieve demo.simple "the LAST page" 5)
    as Hc by (rewrite E; exact (list_elem_of_lookup_2 _ _ _ Ec)).
  destruct (simple_retrieve_members _ _ _ c Hc) as (m & Hm & Hcm & _ & Hw).
  exists c, m. split; [reflexivity|]. split; [exact Hm|].
  split; [exact Hcm|exact Hw].
Defined.

(** For a [top_k] that is not negative, [simple_retrieve] returns at
    most [top_k] chunks, never more than there are records, in
    descending order of score; a record that has a word of the query is
    left out only when [top_k] chunks that score at least as high were
    returned. *)
Theorem simple_retrieve_ranked self query top_k :
  (0 <= top_k)%Z ->
  let out := app_simple.simple_retrieve self query top_k in
  length out <= Z.to_nat top_k
  /\ length out <= length (app_simple.metadata self)
  /\ StronglySorted (fun s t => (t <= s)%Q) (scores_of out)
  /\ forall m,
       m ∈ app_simple.metadata self -> shares_word query (text m) ->
       set_score m (share query (text m)) ∈ out
       \/ (length out = Z.to_nat top_k
           /\ forall s, s ∈ scores_of out ->
                        (share query (text m) <= s)%Q).
Proof.
  intros Hk. unfold app_simple.simple_retrieve. cbv zeta.
  set (sorted := app_simple.sort_by_score
                   (omap (app_simple.scored (Py.lower query))
                         (app_simple.metadata self))).
  destruct (slice_prefix sorted top_k) as (n & -> & Hn).
  rewrite <- (Hn Hk). clear Hn.
  assert (StronglySorted by_score (take n sorted ++ drop n sorted))
    as [Hcross [Htake _]]%StronglySorted_app
    by (rewrite take_drop; apply sort_by_score_sorted).
  assert (scores_of (map fst (take n sorted)) = map snd (take n sorted))
    as Hscores.
  { apply scores_of_fst. intros x Hx.
    by apply subseteq_take, sorted_chunks_elem in Hx as (m & _ & _ & ->). }
  rewrite Hscores, length_map, length_take.
  split; [lia|]. split.
  { unfold sorted. rewrite sort_by_score_perm.
    pose proof (length_omap_le (app_simple.scored (Py.lower query))
                  (app_simple.metadata self)). lia. }
  split.
  { by apply (StronglySorted_fmap snd by_score). }
  intros m Hm Hword. apply share_pos in Hword.
  assert ((set_score m (share query (text m)), share query (text m))
          ∈ take n sorted ++ drop n sorted) as Hx.
  { rewrite take_drop. apply sorted_chunks_elem. by exists m. }
  apply elem_of_app in Hx as [Hx|Hx].
  - left. by apply (list_elem_of_fmap_2 fst) in Hx.
  - right. split.
    + destruct (Nat.le_gt_cases (length sorted) n) as [Hle|]; [|lia].
      rewrite drop_ge in Hx by done. by apply elem_of_nil in Hx.
    + intros s ([c' s'] & -> & Hy)%list_elem_of_fmap.
      apply (Hcross _ _ Hy Hx).
Qed.

Lemma simple_retrieve_ranked_witness :
  (0 <= 1)%Z
  /\ length (app_simple.simple_retrieve demo.simple "the LAST page" 1) <= 1
  /\ StronglySorted (fun s t => (t <= s)%Q)
       (scores_of (app_simple.simple_retrieve demo.simple "the LAST page" 1)).
Proof.
  assert (0 <= 1)%Z as H by lia. split; [exact H|].
  destruct (simple_retrieve_ranked demo.simple "the LAST page" 1 H)
    as (Hlen & _ & Hsorted & _).
  split; [exact Hlen|exact Hsorted].
Defined.

(** [answer_question] declines when no record has a quarter of the
    query's words. *)
Theorem simple_answer_declines self question log :
  (forall m,
     m ∈ app_simple.metadata self ->
     (share question (text m) < config.SIMILARITY_THRESHOLD)%Q) ->
  app_simple.answer_question self question log
  = Py.Ok ((utils.DECLINE, [], 0%Q), log).
Proof.
  intros Hlow. unfold app_simple.answer_question. cbv zeta.
  pose proof (simple_retrieve_head self question (Z.of_nat config.TOP_K)
                ltac:(done)) as Hhead.
  pose proof (sorted_chunks_elem question (app_simple.metadata self))
    as Helem.
  destruct (app_simple.sort_by_score _) as [|h l]; [by rewrite Hhead|].
  destruct Hhead as [rest ->].
  destruct (proj1 (Helem h)) as (m & Hm & _ & ->); [left|].
  cbn [fst]. change (Py.getitem (?c :: rest) 0) with (Py.Ok c). run_bind.
  apply Hlow, Qltb_lt in Hm. unfold get_score. cbn [score set_score].
  run_bind. by rewrite Hm.
Qed.

Lemma simple_answer_declines_witness :
  (forall m,
     m ∈ app_simple.metadata demo.simple ->
     (share "Which font is used for the new headings?" (text m)
      < config.SIMILARITY_THRESHOLD)%Q)
  /\ app_simple.answer_question demo.simple
       "Which font is used for the new headings?" []
     = Py.Ok ((utils.DECLINE, [], 0%Q), []).
Proof.
  assert (forall m,
            m ∈ app_simple.metadata demo.simple ->
            (share "Which font is used for the new headings?" (text m)
             < config.SIMILARITY_THRESHOLD)%Q) as H.
  { apply Forall_forall. repeat constructor; vm_compute; reflexivity. }
  split; [exact H|]. exact (simple_answer_declines _ _ [] H).
Defined.

(** [answer_question] answers when some record has a quarter of the
    query's words: with the chunks [simple_retrieve] returns for the
    configured [top_k], formatted, and with the highest share of any
    record as score; the answer is logged. *)
Theorem simple_answer_answers self question log m :
  m ∈ app_simple.metadata self ->
  (config.SIMILARITY_THRESHOLD <= share question (text m))%Q ->
  let chunks :=
    app_simple.simple_retrieve self question (Z.of_nat config.TOP_K) in
  let answer := utils.format_retrieved_chunks chunks in
  exists top best,
    app_simple.answer_question self question log
    = Py.Ok ((answer, chunks, top),
             utils.log_prompt question chunks answer log)
    /\ best ∈ app_simple.metadata self
    /\ top = share question (text best)
    /\ forall m', m' ∈ app_simple.metadata self ->
                  (share question (text m') <= top)%Q.
Proof.
  intros Hm Hhigh. cbv zeta. unfold app_simple.answer_question. cbv zeta.
  pose proof (simple_retrieve_head self question (Z.of_nat config.TOP_K)
                ltac:(done)) as Hhead.
  pose proof (sorted_chunks_elem question (app_simple.metadata self))
    as Helem.
  pose proof (sort_by_score_sorted
                (omap (app_simple.scored (Py.lower question))
                      (app_simple.metadata self))) as Hsorted.
  assert (0 < config.SIMILARITY_THRESHOLD)%Q as Hth by done.
  destruct (app_simple.sort_by_score _) as [|h l].
  { exfalso. apply (elem_of_nil (set_score m (share question (text m)),
                                 share question (text m))).
    apply Helem. exists m. split; [done|]. split; [|done].
    by apply (Qlt_le_trans _ config.SIMILARITY_THRESHOLD). }
  destruct Hhead as [rest ->].
  assert (forall m', m' ∈ app_simple.metadata self ->
                     (share question (text m') <= h.2)%Q) as Hmax.
  { intros m' Hm'.
    destruct (Qlt_le_dec 0 (share question (text m'))) as [Hpos|Hzero].
    - apply (sorted_head h l (set_score m' (share question (text m')),
                              share question (text m')) Hsorted).
      apply Helem. by exists m'.
    - apply (Qle_trans _ 0); [done|].
      apply (Qle_trans _ (share question (text m))).
      + apply (Qle_trans _ config.SIMILARITY_THRESHOLD); [done|done].
      + apply (sorted_head h l (set_score m (share question (text m)),
                                share question (text m)) Hsorted).
        apply Helem. exists m. split; [done|]. split; [|done].
        by apply (Qlt_le_trans _ config.SIMILARITY_THRESHOLD). }
  destruct (proj1 (Helem h)) as (best & Hbest & _ & Hh); [left|].
  exists h.2, best. split; [|split; [done|split; [by rewrite Hh|done]]].
  change (Py.getitem (h.1 :: rest) 0) with (Py.Ok h.1). run_bind.
  assert (get_score h.1 = Py.Ok h.2) as -> by (by rewrite Hh).
  run_bind.
  assert (Py.Qltb h.2 config.SIMILARITY_THRESHOLD = false) as ->; [|done].
  apply Qltb_ge. apply (Qle_trans _ (share question (text m))); [done|].
  by apply Hmax.
Qed.

Lemma simple_answer_answers_witness :
  exists m top,
    demo.handbook !! 2 = Some m
    /\ (config.SIMILARITY_THRESHOLD <= share "on a new" (text m))%Q
    /\ app_simple.answer_question demo.simple "on a new" []
       = Py.Ok ((utils.format_retrieved_chunks demo.on_a_new_found,
                 demo.on_a_new_found, top),
                utils.log_prompt "on a new" demo.on_a_new_found
                  (utils.format_retrieved_chunks demo.on_a_new_found) [])
    /\ (share "on a new" (text m) <= top)%Q.
Proof.
  destruct (demo.handbook !! 2) as [m|] eqn:Em; [|discriminate Em].
  assert (m ∈ app_simple.metadata demo.simple) as Hm
    by exact (list_elem_of_lookup_2 _ _ _ Em).
  assert (m = demo.chunk_at 2 3 "Chapters start on a new page.") as Hm2
    by (injection Em as <-; reflexivity).
  assert (config.SIMILARITY_THRESHOLD <= share "on a new" (text m))%Q
    as Hhigh by (rewrite Hm2; vm_compute; discriminate).
  destruct (simple_answer_answers demo.simple "on a new" [] m Hm Hhigh)
    as (top & best & Hask & _ & _ & Hmax).
  exists m, top. split; [reflexivity|]. split; [exact Hhigh|].
  split; [|exact (Hmax m Hm)].
  assert (app_simple.simple_retrieve demo.simple "on a new"
            (Z.of_nat config.TOP_K) = demo.on_a_new_found) as E
    by (vm_compute; reflexivity).
  rewrite E in Hask. exact Hask.
Defined.
